(** * news-fetcher: relevance matching, engagement scoring and aggregation

    A shallow embedding of the backend of the news fetcher
    ([subjects/index.ts], [crawlers/index.ts], [crawlers/types.ts],
    [services/engagementScorer.ts] and the articles route of [index.ts];
    then the three crawlers [crawlers/hackerNews.ts], [crawlers/reddit.ts]
    and [crawlers/devto.ts], [services/contentFetcher.ts], and
    [truncateContent] of the front end) together with the properties its
    specification states about it and further properties of the code.

    Conventions of the embedding.
    - A JavaScript [number] that holds a measured quantity (an engagement
      metric, a weight, a score) is an IEEE 754 binary64 value: Rocq's
      primitive [float], whose operations are the ones the JavaScript
      engine runs.
    - A [number] that the code only ever uses as a count or an index
      (a relevance score built from [+= 10] and [+= 5], the [limit] of
      [slice], the value of [parseInt]) is a [Z]; [NaN] of [parseInt] is
      [None].  The value of [parseInt] is the integer that the binary64
      result holds: the integer read, rounded to the nearest binary64 value.
    - A string is a string of characters of Latin-1 (U+0000 to U+00FF): a
      [string], whose character [ascii_of_nat n] is the character U+00n, one
      UTF-16 code unit.  On such strings [toLowerCase] works character by
      character, and [JS.toLowerCase] is that function; white space is the
      white space of ECMAScript among these characters.  Text with other
      characters is outside the embedding.  The string literals of this
      file hold ASCII characters only, but for the multiplication sign in
      the text of [getScoringMethodExplanation], which stands there as the
      two bytes of its UTF-8 form and is only copied.
    - A call [f(...items)] passes the items as arguments, of which an engine
      accepts a limited number: [argumentLimit], a parameter.  Beyond it the
      call throws a [RangeError].
    - The subject registry ([Map<string, Subject>]) is a [gmap string Subject]
      passed explicitly.
    - A promise is the outcome it settles to: [Resolved v] or [Rejected e].
    - [Array.prototype.sort] is a stable insertion sort on the sign of the
      comparison function; every conforming sort returns the same array when
      the comparison function is consistent.
    - [console.log] and [console.error] are left out, and so are the
      pauses [await new Promise(resolve => setTimeout(resolve, 100))], which
      never fail.
    - A request to the network ([axios.get(url)]) is a function from the
      URL to the outcome of the request: the [data] of the response, or a
      rejection.  The document that [cheerio] loads is the function from a
      selector to the text it selects.
    - Where the order of the [Map] of subjects counts ([getAllSubjects]),
      the registry is the list of its entries in insertion order. *)

From Stdlib Require Import ZArith List String Ascii Bool Lia.
From Stdlib Require Import Sorting.Sorted Sorting.Permutation.
From Stdlib Require Import Floats DecimalString.
From Stdlib Require DecimalPos DecimalN.
From stdpp Require Import gmap strings.

Import ListNotations.

Set Warnings "-inexact-float".

(** ** The JavaScript built-ins the code calls *)

Module JS.

Definition number := float.

(** [ToBoolean] of a number: [+0], [-0] and [NaN] are falsy. *)
Definition truthy (x : number) : bool :=
  negb (PrimFloat.eqb x 0 || PrimFloat.is_nan x).

(** [x || d] where [x] is a number or [undefined]. *)
Definition orElse (x : option number) (d : number) : number :=
  match x with
  | Some v => if truthy v then v else d
  | None => d
  end.

(** [if (x)] where [x] is a number or [undefined]. *)
Definition present (x : option number) : bool :=
  match x with
  | Some v => truthy v
  | None => false
  end.

(** *** Strings *)

(** The lower-case form of a character of Latin-1: the letters [A] to [Z]
    and U+00C0 to U+00DE, but for the multiplication sign U+00D7, have
    theirs 32 places further on. *)
Definition toLowerChar (c : ascii) : ascii :=
  let n := nat_of_ascii c in
  if (((65 <=? n) && (n <=? 90))
      || ((192 <=? n) && (n <=? 222) && negb (n =? 215)))%nat
  then ascii_of_nat (n + 32) else c.

Fixpoint toLowerCase (s : string) : string :=
  match s with
  | EmptyString => EmptyString
  | String c rest => String (toLowerChar c) (toLowerCase rest)
  end.

(** [s.includes(t)]: [t] occurs in [s] at some position. *)
Fixpoint includes (s t : string) : bool :=
  if String.prefix t s then true
  else match s with
       | EmptyString => false
       | String _ rest => includes rest t
       end.

(** [parts.join(sep)] *)
Fixpoint join (sep : string) (parts : list string) : string :=
  match parts with
  | [] => EmptyString
  | [p] => p
  | p :: rest => p +:+ sep +:+ join sep rest
  end.

Fixpoint repeatChar (c : ascii) (n : nat) : string :=
  match n with
  | O => EmptyString
  | S k => String c (repeatChar c k)
  end.

Definition decimal (n : Z) : string :=
  NilZero.string_of_uint (N.to_uint (Z.to_N n)).

(** *** Rendering numbers

    A finite non-zero binary64 value is [m * 2^e] for the integers that
    [Prim2SF] returns; both renderings below are computed on that exact
    value. *)

(** [Number.prototype.toFixed(1)] on a non-negative finite value below
    [10^21]: the integer [n] with [n / 10] nearest to the value, the larger
    one on a tie, printed with one digit after the point. *)
Definition tenths (m : positive) (e : Z) : Z :=
  if (0 <=? e)%Z then (10 * Zpos m * 2 ^ e)%Z
  else ((20 * Zpos m + 2 ^ (- e)) / (2 * 2 ^ (- e)))%Z.

Definition fixed1 (n : Z) : string :=
  decimal (n / 10) +:+ "." +:+ decimal (n mod 10).

(** [Number::toString]: the shortest decimal [s * 10^q] that reads back as
    the value.  [candidates] gives the range of [s] for which [s * 10^q]
    lies between the midpoints to the neighbouring binary64 values
    ([lo] and [hi], over the denominator [d]; the ends belong to the range
    when the mantissa is even). *)
Definition scaled (q : Z) (d v : Z) : Z * Z :=
  if (0 <=? q)%Z then (10 ^ q * d, v)%Z else (d, v * 10 ^ (- q))%Z.

Definition candidates (closed : bool) (q d lo hi : Z) : Z * Z :=
  let '(p, l) := scaled q d lo in
  let '(_, h) := scaled q d hi in
  let smin := if closed then ((l + p - 1) / p)%Z else (l / p + 1)%Z in
  let smax := if closed then (h / p)%Z else ((h - 1) / p)%Z in
  (Z.max smin 1, smax).

Definition nearest (q d x smin smax : Z) : Z :=
  let '(p, v) := scaled q d x in
  let clamp s := Z.max smin (Z.min smax s) in
  let a := clamp (v / p)%Z in
  let b := clamp (v / p + 1)%Z in
  let da := Z.abs (a * p - v) in
  let db := Z.abs (b * p - v) in
  if (da <? db)%Z then a
  else if (db <? da)%Z then b
  else if Z.even a then a else b.

Fixpoint shortest (fuel : nat) (closed : bool) (q d lo x hi : Z) : Z * Z :=
  let '(smin, smax) := candidates closed q d lo hi in
  if (smin <=? smax)%Z then (nearest q d x smin smax, q)
  else match fuel with
       | O => (0, q)%Z
       | S k => shortest k closed (q - 1) d lo x hi
       end.

Definition digitsOf (m : positive) (e : Z) : Z * Z :=
  let boundary := (Zpos m =? 2 ^ 52)%Z && (-1074 <? e)%Z in
  let x := (4 * Zpos m)%Z in
  let lo := if boundary then (x - 1)%Z else (x - 2)%Z in
  let hi := (x + 2)%Z in
  let d := if (2 <=? e)%Z then 1%Z else (2 ^ (2 - e))%Z in
  let up v := if (2 <=? e)%Z then (v * 2 ^ (e - 2))%Z else v in
  let bits := (Z.log2 (Zpos m) + 1 + e)%Z in
  let q0 := (bits * 30103 / 100000 + 2)%Z in
  shortest 30 (Z.even (Zpos m)) q0 d (up lo) (up x) (up hi).

Definition layout (s q : Z) : string :=
  let ds := decimal s in
  let k := Z.of_nat (String.length ds) in
  let n := (k + q)%Z in
  let expo :=
    (if (0 <=? n - 1)%Z then "e+" else "e-") +:+ decimal (Z.abs (n - 1)) in
  if ((k <=? n) && (n <=? 21))%Z then
    ds +:+ repeatChar "0" (Z.to_nat (n - k))
  else if ((0 <? n) && (n <=? 21))%Z then
    substring 0 (Z.to_nat n) ds +:+ "." +:+
    substring (Z.to_nat n) (Z.to_nat (k - n)) ds
  else if ((-6 <? n) && (n <=? 0))%Z then
    "0." +:+ repeatChar "0" (Z.to_nat (- n)) +:+ ds
  else if (k =? 1)%Z then ds +:+ expo
  else substring 0 1 ds +:+ "." +:+
       substring 1 (Z.to_nat (k - 1)) ds +:+ expo.

(** [String(x)], as a template literal renders a number. *)
Definition toString (x : number) : string :=
  match Prim2SF x with
  | S754_nan => "NaN"
  | S754_zero _ => "0"
  | S754_infinity sign => if sign then "-Infinity" else "Infinity"
  | S754_finite sign m e =>
      let '(s, q) := digitsOf m e in
      (if sign then "-" else "") +:+ layout s q
  end.

(** [x.toFixed(1)] *)
Definition toFixed1 (x : number) : string :=
  match Prim2SF x with
  | S754_finite sign m e =>
      if PrimFloat.leb 1e21 (PrimFloat.abs x) then toString x
      else (if sign then "-" else "") +:+ fixed1 (tenths m e)
  | S754_zero _ => "0.0"
  | _ => toString x
  end.

(** *** Array.prototype.sort

    [SortCompare]: the sign of [comparefn(x, y)], a [NaN] counting as [+0]. *)
Section Sort.
Context {A : Type} (comparefn : A -> A -> number).

Definition SortCompare (x y : A) : comparison :=
  let v := comparefn x y in
  if PrimFloat.ltb v 0 then Lt
  else if PrimFloat.ltb 0 v then Gt
  else Eq.

(** A stable sort: [x], which stood before every element of [sorted],
    moves to the right only past the elements it has to follow. *)
Fixpoint insert (x : A) (sorted : list A) : list A :=
  match sorted with
  | [] => [x]
  | y :: rest =>
      match SortCompare x y with
      | Gt => y :: insert x rest
      | _ => x :: y :: rest
      end
  end.

Fixpoint sort (l : list A) : list A :=
  match l with
  | [] => []
  | x :: rest => insert x (sort rest)
  end.

(** The order a sorted array has: no entry has to follow a later one. *)
Definition mayPrecede (x y : A) : Prop := SortCompare x y <> Gt.

(** [x] and [y] compare as equal. *)
Definition tied (x y : A) : bool :=
  match SortCompare x y with
  | Eq => true
  | _ => false
  end.
End Sort.

(** *** Array.prototype.slice, with integer arguments *)
Definition slice {A : Type} (l : list A) (start end_ : Z) : list A :=
  let len := Z.of_nat (length l) in
  let k := if (start <? 0)%Z then Z.max (len + start) 0 else Z.min start len in
  let final := if (end_ <? 0)%Z then Z.max (len + end_) 0 else Z.min end_ len in
  firstn (Z.to_nat (Z.max (final - k) 0)) (skipn (Z.to_nat k) l).

(** *** White space, [trim]

    The white space and line terminators of Latin-1: U+0009 to U+000D, the
    space and the no-break space U+00A0. *)
Definition isWhiteSpace (c : ascii) : bool :=
  let n := nat_of_ascii c in
  (((9 <=? n) && (n <=? 13)) || (n =? 32) || (n =? 160))%nat.

Fixpoint trimStart (s : string) : string :=
  match s with
  | String c rest => if isWhiteSpace c then trimStart rest else s
  | EmptyString => s
  end.

Definition reverse (s : string) : string :=
  string_of_list_ascii (rev (list_ascii_of_string s)).

Definition trim (s : string) : string :=
  reverse (trimStart (reverse (trimStart s))).

Definition newline : string := String (ascii_of_nat 10) EmptyString.

(** *** parseInt, radix omitted *)

Definition digitValue (c : ascii) : option Z :=
  let n := nat_of_ascii c in
  if ((48 <=? n) && (n <=? 57))%nat then Some (Z.of_nat (n - 48))
  else if ((97 <=? n) && (n <=? 122))%nat then Some (Z.of_nat (n - 87))
  else if ((65 <=? n) && (n <=? 90))%nat then Some (Z.of_nat (n - 55))
  else None.

(** The value of the longest prefix of radix-[R] digits; [None] when the
    prefix is empty. *)
Fixpoint digitsPrefix (R : Z) (s : string) (acc : option Z) : option Z :=
  match s with
  | EmptyString => acc
  | String c rest =>
      match digitValue c with
      | Some d =>
          if (d <? R)%Z
          then digitsPrefix R rest
                 (Some (R * match acc with Some v => v | None => 0 end + d)%Z)
          else acc
      | None => acc
      end
  end.

(** The Number of a mathematical integer: the binary64 value nearest to it,
    the one with an even mantissa on a tie.  Every binary64 value that an
    integer rounds to is an integer, which is returned.  An integer that
    rounds to [Infinity] or [-Infinity] is returned as it is: it is beyond
    the length of every array, as the infinite value is. *)
Definition toNumber (v : Z) : Z :=
  match SpecFloat.binary_normalize 53 1024 v 0 false with
  | S754_finite sign m e =>
      let magnitude :=
        if (0 <=? e)%Z then (Zpos m * 2 ^ e)%Z else (Zpos m / 2 ^ (- e))%Z in
      if sign then (- magnitude)%Z else magnitude
  | S754_zero _ => 0%Z
  | _ => v
  end.

(** [input] is a string or [undefined]; the result is [None] for [NaN].
    [-0] is [0]. *)
Definition parseInt (input : option string) : option Z :=
  let inputString := match input with Some s => s | None => "undefined" end in
  let str := trimStart inputString in
  let '(sign, str) :=
    match str with
    | String "-" rest => ((-1)%Z, rest)
    | String "+" rest => (1%Z, rest)
    | _ => (1%Z, str)
    end in
  let '(R, str) :=
    match str with
    | String "0" (String "x" rest) => (16%Z, rest)
    | String "0" (String "X" rest) => (16%Z, rest)
    | _ => (10%Z, str)
    end in
  match digitsPrefix R str None with
  | None => None
  | Some mathInt => Some (toNumber (sign * mathInt))
  end.

(** [n || d] where [n] is an integer or [NaN]. *)
Definition intOrElse (n : option Z) (d : Z) : Z :=
  match n with
  | Some v => if (v =? 0)%Z then d else v
  | None => d
  end.

(** *** Promises, by the outcome they settle to *)
Inductive promise (A : Type) : Type :=
  | Resolved (value : A)
  | Rejected (reason : string).
Arguments Resolved {A} value.
Arguments Rejected {A} reason.

(** [await p; k] *)
Definition andThen {A B : Type} (p : promise A) (k : A -> promise B)
  : promise B :=
  match p with
  | Resolved v => k v
  | Rejected e => Rejected e
  end.

(** [try { ... } catch (error) { ... }] around an awaited body *)
Definition tryCatch {A : Type} (body : promise A) (handler : string -> promise A)
  : promise A :=
  match body with
  | Resolved v => Resolved v
  | Rejected e => handler e
  end.

(** [Promise.all]: the values in the order of the promises, or a rejection. *)
Fixpoint all {A : Type} (ps : list (promise A)) : promise (list A) :=
  match ps with
  | [] => Resolved []
  | p :: rest =>
      andThen p (fun v => andThen (all rest) (fun vs => Resolved (v :: vs)))
  end.

(** [target.push(...items)] inside an [async] function: [items] are the
    arguments of one call.  The result is the array after the call; a call
    with more arguments than the engine accepts throws, which rejects the
    promise of the function. *)
Definition pushSpread {A : Type} (argumentLimit : nat) (target items : list A)
  : promise (list A) :=
  if (length items <=? argumentLimit)%nat then Resolved (target ++ items)
  else Rejected "RangeError: Maximum call stack size exceeded".

End JS.

(** ** The order of the binary64 values

    A key under which the values other than NaN are ordered as [<] orders
    them: the sign class first, then exponent and mantissa, both negated for
    the negative values. *)

Module Binary64.
Local Open Scope Z_scope.

Definition rank (f : spec_float) : Z * Z * Z :=
  match f with
  | S754_nan => (0, 0, 0)
  | S754_zero _ => (0, 0, 0)
  | S754_infinity s => (if s then -2 else 2, 0, 0)
  | S754_finite s m e => if s then (-1, - e, - Zpos m) else (1, e, Zpos m)
  end.

Definition key (x : float) : Z * Z * Z := rank (Prim2SF x).

(** The lexicographic order of the keys. *)
Definition below (a b : Z * Z * Z) : Prop :=
  fst (fst a) < fst (fst b) \/
  (fst (fst a) = fst (fst b) /\
   (snd (fst a) < snd (fst b) \/
    (snd (fst a) = snd (fst b) /\ snd a < snd b))).

(** [f] is a non-zero value of sign [s]. *)
Definition signed (s : bool) (f : spec_float) : Prop :=
  (exists m e, f = S754_finite s m e) \/ f = S754_infinity s.

End Binary64.

(** ** subjects/types.ts and subjects/index.ts *)

Module Subjects.

Record Subject := {
  id : string;
  name : string;
  description : string;
  keywords : list string;
  relatedTerms : list string;
}.

Record SubjectMatch := {
  subjectId : string;
  matchedKeywords : list string;
  relevanceScore : Z;
}.

(** The module-level [subjects] map, passed explicitly. *)
Definition getSubject (subjects : gmap string Subject) (i : string)
  : option Subject :=
  subjects !! i.

Definition addSubject (subjects : gmap string Subject) (subject : Subject)
  : gmap string Subject :=
  <[id subject := subject]> subjects.

(** One turn of either [for] loop: the local state is the pair
    [(matchedKeywords, relevanceScore)]. *)
Definition scan (lowerContent : string) (points : Z)
    (st : list string * Z) (term : string) : list string * Z :=
  if JS.includes lowerContent (JS.toLowerCase term)
  then (fst st ++ [term], (snd st + points)%Z)
  else st.

Definition matchContent (subjects : gmap string Subject)
    (content subjectId : string) : option SubjectMatch :=
  match subjects !! subjectId with
  | None => None
  | Some subject =>
      let lowerContent := JS.toLowerCase content in
      let st0 : list string * Z := ([], 0%Z) in
      let st1 := fold_left (scan lowerContent 10) (keywords subject) st0 in
      let st2 := fold_left (scan lowerContent 5) (relatedTerms subject) st1 in
      if (length (fst st2) =? 0)%nat then None
      else Some {| subjectId := subjectId;
                   matchedKeywords := fst st2;
                   relevanceScore := snd st2 |}
  end.

Definition isRelevantToSubject (subjects : gmap string Subject)
    (title content subjectId : string) : bool :=
  let combinedText := title +:+ " " +:+ content in
  match matchContent subjects combinedText subjectId with
  | None => false
  | Some m => (0 <? relevanceScore m)%Z
  end.

End Subjects.

(** ** crawlers/types.ts and crawlers/index.ts *)

Module Crawlers.

Record EngagementMetrics := {
  upvotes : option JS.number;
  comments : option JS.number;
  shares : option JS.number;
  reactions : option JS.number;
  views : option JS.number;
}.

(** [publishedAt] is a [Date] (its time value) or [null]. *)
Record Article := {
  id : string;
  title : string;
  url : string;
  content : string;
  source : string;
  publishedAt : option Z;
  engagement : EngagementMetrics;
}.

Record ScoreBreakdown := {
  upvotesContribution : JS.number;
  commentsContribution : JS.number;
  sharesContribution : JS.number;
  reactionsContribution : JS.number;
  viewsContribution : JS.number;
  totalScore : JS.number;
  explanation : string;
}.

(** [ScoredArticle extends Article]: [article] holds the inherited fields
    (what [...article] copies). *)
Record ScoredArticle := {
  article : Article;
  engagementScore : JS.number;
  scoreBreakdown : ScoreBreakdown;
  matchedKeywords : list string;
  relevanceScore : Z;
}.

(** A crawler's [fetchArticles] reads the network: here it is the outcome
    of that call for each subject id. *)
Record Crawler := {
  name : string;
  fetchArticles : string -> JS.promise (list Article);
}.

(** [console.log] and [console.error] are not modelled.  The loop over
    [results] stands outside every [try]: a [push] that throws rejects the
    promise of [fetchAllArticles]. *)
Definition fetchAllArticles (argumentLimit : nat) (crawlers : list Crawler)
    (subjectId : string) : JS.promise (list Article) :=
  let allArticles : list Article := [] in
  let crawlerPromises :=
    map (fun crawler =>
           JS.tryCatch
             (JS.andThen (fetchArticles crawler subjectId)
                (fun articles => JS.Resolved articles))
             (fun error => JS.Resolved []))
        crawlers in
  JS.andThen (JS.all crawlerPromises) (fun results =>
  fold_left
    (fun state articles =>
       JS.andThen state (fun allArticles =>
       JS.pushSpread argumentLimit allArticles articles))
    results (JS.Resolved allArticles)).

End Crawlers.

(** ** services/engagementScorer.ts *)

Module EngagementScorer.
Import Crawlers.

Record ScoringWeights := {
  upvotes : JS.number;
  comments : JS.number;
  shares : JS.number;
  reactions : JS.number;
  views : JS.number;
}.

Definition DEFAULT_WEIGHTS : ScoringWeights := {|
  upvotes := 1.0%float;
  comments := 2.0%float;
  shares := 1.5%float;
  reactions := 0.8%float;
  views := 0.01%float;
|}.

(** One entry of [explanationParts]:
    [`${value} ${metricName} x ${weight} = ${contribution.toFixed(1)}`] *)
Definition part (value : JS.number) (metricName : string)
    (weight contribution : JS.number) : string :=
  JS.toString value +:+ " " +:+ metricName +:+ " x " +:+ JS.toString weight
  +:+ " = " +:+ JS.toFixed1 contribution.

(** [if (metric) { explanationParts.push(...) }] *)
Definition pushIf (metric : option JS.number) (metricName : string)
    (weight contribution : JS.number) (explanationParts : list string)
  : list string :=
  match metric with
  | Some value =>
      if JS.truthy value
      then explanationParts ++ [part value metricName weight contribution]
      else explanationParts
  | None => explanationParts
  end.

(** The [weights] argument is explicit; the source defaults it to
    [DEFAULT_WEIGHTS]. *)
Definition calculateEngagementScore (article : Article)
    (weights : ScoringWeights) : ScoreBreakdown :=
  let engagement := Crawlers.engagement article in
  let upvotesContribution :=
    (JS.orElse (Crawlers.upvotes engagement) 0 * upvotes weights)%float in
  let commentsContribution :=
    (JS.orElse (Crawlers.comments engagement) 0 * comments weights)%float in
  let sharesContribution :=
    (JS.orElse (Crawlers.shares engagement) 0 * shares weights)%float in
  let reactionsContribution :=
    (JS.orElse (Crawlers.reactions engagement) 0 * reactions weights)%float in
  let viewsContribution :=
    (JS.orElse (Crawlers.views engagement) 0 * views weights)%float in
  let totalScore :=
    (upvotesContribution + commentsContribution + sharesContribution
     + reactionsContribution + viewsContribution)%float in
  let explanationParts : list string := [] in
  let explanationParts :=
    pushIf (Crawlers.upvotes engagement) "upvotes" (upvotes weights)
      upvotesContribution explanationParts in
  let explanationParts :=
    pushIf (Crawlers.comments engagement) "comments" (comments weights)
      commentsContribution explanationParts in
  let explanationParts :=
    pushIf (Crawlers.shares engagement) "shares" (shares weights)
      sharesContribution explanationParts in
  let explanationParts :=
    pushIf (Crawlers.reactions engagement) "reactions" (reactions weights)
      reactionsContribution explanationParts in
  let explanationParts :=
    pushIf (Crawlers.views engagement) "views" (views weights)
      viewsContribution explanationParts in
  let explanation :=
    if (0 <? length explanationParts)%nat
    then "Score calculation: " +:+ JS.join " + " explanationParts
         +:+ " = " +:+ JS.toFixed1 totalScore
    else "No engagement metrics available" in
  {| upvotesContribution := upvotesContribution;
     commentsContribution := commentsContribution;
     sharesContribution := sharesContribution;
     reactionsContribution := reactionsContribution;
     viewsContribution := viewsContribution;
     totalScore := totalScore;
     explanation := explanation |}.

(** The body of the [for] loop of [scoreArticles]. *)
Definition scoreOne (subjects : gmap string Subjects.Subject)
    (subjectId : string) (weights : ScoringWeights) (article : Article)
  : ScoredArticle :=
  let scoreBreakdown := calculateEngagementScore article weights in
  let match_ :=
    Subjects.matchContent subjects
      (title article +:+ " " +:+ content article) subjectId in
  {| Crawlers.article := article;
     engagementScore := totalScore scoreBreakdown;
     scoreBreakdown := scoreBreakdown;
     matchedKeywords :=
       match match_ with
       | Some m => Subjects.matchedKeywords m
       | None => []
       end;
     relevanceScore :=
       JS.intOrElse (option_map Subjects.relevanceScore match_) 0 |}.

Definition scoreArticles (subjects : gmap string Subjects.Subject)
    (articles : list Article) (subjectId : string) (weights : ScoringWeights)
  : list ScoredArticle :=
  fold_left
    (fun scoredArticles article =>
       scoredArticles ++ [scoreOne subjects subjectId weights article])
    articles [].

(** [(a, b) => b.engagementScore - a.engagementScore] *)
Definition byScore (a b : ScoredArticle) : JS.number :=
  (engagementScore b - engagementScore a)%float.

(** The value [getTopArticles] returns; [sort] also reorders the caller's
    array, which no caller reads again.  The [limit] argument is explicit;
    the source defaults it to 10. *)
Definition getTopArticles (scoredArticles : list ScoredArticle) (limit : Z)
  : list ScoredArticle :=
  JS.slice (JS.sort byScore scoredArticles) 0 limit.

Definition getScoringMethodExplanation : string :=
  let w f := JS.toString (f DEFAULT_WEIGHTS) in
  JS.trim (JS.join JS.newline [
    "";
    "## Engagement Score Calculation";
    "";
    "The engagement score is calculated using a weighted sum of various engagement metrics:";
    "";
    "### Weights Used:";
    "- **Upvotes**: " +:+ w upvotes +:+ "x - Direct measure of user approval";
    "- **Comments**: " +:+ w comments
      +:+ "x - Higher weight as comments indicate deeper engagement";
    "- **Shares**: " +:+ w shares +:+ "x - Indicates content worth spreading";
    "- **Reactions**: " +:+ w reactions +:+ "x - Quick engagement indicator";
    "- **Views**: " +:+ w views
      +:+ "x - Lower weight as views don't indicate quality";
    "";
    "### Formula:";
    "`Score = (upvotes × " +:+ w upvotes +:+ ") + (comments × " +:+ w comments
      +:+ ") + (shares × " +:+ w shares +:+ ") + (reactions × " +:+ w reactions
      +:+ ") + (views × " +:+ w views +:+ ")`";
    "";
    "### Data Sources:";
    "- **Hacker News**: Provides upvotes (points) and comment counts";
    "- **Reddit**: Provides upvotes (score) and comment counts";
    "- **Dev.to**: Provides reactions, comments, and sometimes view counts";
    "";
    "### Why These Weights?";
    "- Comments are weighted highest (2.0x) because they require the most effort and indicate genuine interest";
    "- Shares are weighted at 1.5x as they show users found content valuable enough to spread";
    "- Upvotes are weighted at 1.0x as the baseline engagement metric";
    "- Reactions are weighted at 0.8x as they're easier than upvotes on some platforms";
    "- Views are weighted lowest (0.01x) as they don't indicate quality or engagement depth";
    ""
  ]).

End EngagementScorer.

(** ** index.ts: GET /api/articles/:subjectId *)

Module Api.
Import Crawlers.

Record ArticlesBody := {
  subject : string;
  totalFound : nat;
  returned : nat;
  scoringMethod : string;
  weights : EngagementScorer.ScoringWeights;
  articles : list ScoredArticle;
}.

Inductive response :=
  | Ok (body : ArticlesBody)
  | NotFound (error : string)
  | ServerError (error : string).

(** [parseInt(req.query.limit as string) || 10]; the query parameter is a
    string or absent. *)
Definition requestLimit (limitParam : option string) : Z :=
  JS.intOrElse (JS.parseInt limitParam) 10.

Section Handler.
(** The number of arguments the engine accepts in a call, the registry,
    the registered crawlers and the content enricher
    ([services/contentFetcher.ts], which reads the network) the route
    runs against. *)
Variable argumentLimit : nat.
Variable subjects : gmap string Subjects.Subject.
Variable crawlers : list Crawler.
Variable enrichArticlesWithContent :
  list ScoredArticle -> JS.promise (list ScoredArticle).

(** The [try] block of the route, for a registered subject. *)
Definition pipeline (subject : Subjects.Subject) (subjectId : string)
    (limit : Z) : JS.promise ArticlesBody :=
  JS.andThen (fetchAllArticles argumentLimit crawlers subjectId) (fun articles =>
  let scoredArticles :=
    EngagementScorer.scoreArticles subjects articles subjectId
      EngagementScorer.DEFAULT_WEIGHTS in
  let topArticles := EngagementScorer.getTopArticles scoredArticles limit in
  JS.andThen (enrichArticlesWithContent topArticles) (fun enrichedArticles =>
  JS.Resolved
    {| subject := Subjects.name subject;
       totalFound := length articles;
       returned := length enrichedArticles;
       scoringMethod := EngagementScorer.getScoringMethodExplanation;
       weights := EngagementScorer.DEFAULT_WEIGHTS;
       articles := map (fun article => article) enrichedArticles |})).

Definition getArticles (subjectId : string) (limitParam : option string)
  : response :=
  let limit := requestLimit limitParam in
  match Subjects.getSubject subjects subjectId with
  | None => NotFound "Subject not found"
  | Some subject =>
      match pipeline subject subjectId limit with
      | JS.Resolved body => Ok body
      | JS.Rejected error => ServerError "Failed to fetch articles"
      end
  end.
End Handler.

End Api.

(** ** More of the built-ins: strings, [Map], [Set], [Date] *)

Module JSString.

(** [if (s)] on a string: only the empty string is falsy. *)
Definition truthy (s : string) : bool :=
  negb (String.length s =? 0)%nat.

(** [x || d] where [x] is a string or [undefined]. *)
Definition orElse (x : option string) (d : string) : string :=
  match x with
  | Some s => if truthy s then s else d
  | None => d
  end.

(** [s.startsWith(t)] *)
Definition startsWith (s t : string) : bool := String.prefix t s.

(** [s.substring(start, end)] with integer arguments: both are clamped to
    the string and swapped when [start] is the larger. *)
Definition substring (s : string) (start end_ : Z) : string :=
  let len := Z.of_nat (String.length s) in
  let finalStart := Z.min (Z.max start 0) len in
  let finalEnd := Z.min (Z.max end_ 0) len in
  let from := Z.min finalStart finalEnd in
  let to := Z.max finalStart finalEnd in
  String.substring (Z.to_nat from) (Z.to_nat (to - from)) s.

(** [s.replace(/c+/g, by)] for a class [c] of characters: every maximal run
    of characters of the class becomes [by].  [inRun] tells that the
    previous character belonged to the class. *)
Fixpoint replaceRuns (class : ascii -> bool) (by_ : string) (inRun : bool)
    (s : string) : string :=
  match s with
  | EmptyString => EmptyString
  | String c rest =>
      if class c then
        if inRun then replaceRuns class by_ true rest
        else by_ +:+ replaceRuns class by_ true rest
      else String c (replaceRuns class by_ false rest)
  end.

Definition isLineFeed (c : ascii) : bool := (nat_of_ascii c =? 10)%nat.

(** [s.split(/\s+/)]: the pieces between the maximal runs of white space;
    a run at either end leaves an empty piece there, and the empty string
    gives one empty piece. *)
Fixpoint splitRuns (inRun : bool) (s : string) : list string :=
  match s with
  | EmptyString => [EmptyString]
  | String c rest =>
      if JS.isWhiteSpace c then
        if inRun then splitRuns true rest
        else EmptyString :: splitRuns true rest
      else
        match splitRuns false rest with
        | piece :: pieces => String c piece :: pieces
        | [] => [String c EmptyString]
        end
  end.

Definition split (s : string) : list string := splitRuns false s.

(** [encodeURIComponent] of an ASCII string (the search terms are): the
    unreserved characters stay, every other one is written [%XX]. *)
Definition unreserved (c : ascii) : bool :=
  let n := nat_of_ascii c in
  (((65 <=? n) && (n <=? 90)) || ((97 <=? n) && (n <=? 122))
   || ((48 <=? n) && (n <=? 57))
   || (n =? 45) || (n =? 95) || (n =? 46) || (n =? 33) || (n =? 126)
   || (n =? 42) || (n =? 39) || (n =? 40) || (n =? 41))%nat.

Definition hexDigit (n : nat) : ascii :=
  if (n <? 10)%nat then ascii_of_nat (48 + n) else ascii_of_nat (55 + n).

Fixpoint encodeURIComponent (s : string) : string :=
  match s with
  | EmptyString => EmptyString
  | String c rest =>
      if unreserved c then String c (encodeURIComponent rest)
      else
        let n := nat_of_ascii c in
        String "%" (String (hexDigit (n / 16)) (String (hexDigit (n mod 16))
          (encodeURIComponent rest)))
  end.

End JSString.

(** [Map<string, V>]: the entries in insertion order. *)
Module JSMap.
Section Entries.
Context {V : Type}.

(** [m.set(key, value)]: an existing key keeps its place. *)
Fixpoint set (m : list (string * V)) (key : string) (value : V)
  : list (string * V) :=
  match m with
  | [] => [(key, value)]
  | (k, v) :: rest =>
      if String.eqb k key then (k, value) :: rest
      else (k, v) :: set rest key value
  end.

Fixpoint get (m : list (string * V)) (key : string) : option V :=
  match m with
  | [] => None
  | (k, v) :: rest => if String.eqb k key then Some v else get rest key
  end.

(** [Array.from(m.values())] *)
Definition values (m : list (string * V)) : list V := map snd m.

(** [new Map(entries)] *)
Definition ofEntries (entries : list (string * V)) : list (string * V) :=
  fold_left (fun m entry => set m (fst entry) (snd entry)) entries [].

End Entries.
End JSMap.

(** [Set<number>]: the members in insertion order. *)
Module JSSet.

Definition sameValueZero (x y : JS.number) : bool :=
  PrimFloat.eqb x y || (PrimFloat.is_nan x && PrimFloat.is_nan y).

Definition add (s : list JS.number) (x : JS.number) : list JS.number :=
  if existsb (sameValueZero x) s then s else s ++ [x].

(** [[...new Set(xs)]] *)
Definition ofArray (xs : list JS.number) : list JS.number :=
  fold_left add xs [].

End JSSet.

Module JSDate.

(** [new Date(x)] for a number [x]: the time value, the integer part of [x]
    when that lies within 8.64e15 milliseconds of the epoch.  Otherwise the
    date is invalid; it is [None] here, as is [null]: the backend only
    passes [publishedAt] on to [res.json], which writes both as [null]. *)
Definition ofNumber (x : JS.number) : option Z :=
  match Prim2SF x with
  | S754_zero _ => Some 0%Z
  | S754_finite sign m e =>
      let magnitude :=
        if (0 <=? e)%Z then (Zpos m * 2 ^ e)%Z else (Zpos m / 2 ^ (- e))%Z in
      if (magnitude <=? 8640000000000000)%Z
      then Some (if sign then (- magnitude)%Z else magnitude)
      else None
  | _ => None
  end.

End JSDate.

(** ** subjects/index.ts: the registry in insertion order

    [getAllSubjects] returns the subjects in the order of the [Map]; the
    registry is then the list of the entries, of which [Subjects.getSubject]
    and [Subjects.addSubject] see the finite map [snapshot]. *)

Module Registry.
Import Subjects.

Definition getSubject (subjects : list (string * Subject)) (i : string)
  : option Subject :=
  JSMap.get subjects i.

Definition getAllSubjects (subjects : list (string * Subject))
  : list Subject :=
  JSMap.values subjects.

Definition addSubject (subjects : list (string * Subject)) (subject : Subject)
  : list (string * Subject) :=
  JSMap.set subjects (id subject) subject.

(** The registry after the calls [addSubject(s)] for [s] in [added],
    starting from the empty [Map].  The module fills its [Map] the same way
    when it is loaded, so that its registry is [registered] of the subject
    set at the load followed by the subjects added since. *)
Definition registered (added : list Subject) : list (string * Subject) :=
  fold_left addSubject added [].

(** The registry when the module has been loaded:
    [subjects.set(agenticAISubject.id, agenticAISubject)] on the new [Map].
    [agenticAISubject], of [subjects/agenticAI.ts], is a parameter. *)
Definition loaded (agenticAISubject : Subject) : list (string * Subject) :=
  JSMap.set [] (id agenticAISubject) agenticAISubject.

(** The registry of the module after the later calls [addSubject(s)] for
    [s] in [added]. *)
Definition current (agenticAISubject : Subject) (added : list Subject)
  : list (string * Subject) :=
  fold_left addSubject added (loaded agenticAISubject).

Definition snapshot (subjects : list (string * Subject))
  : gmap string Subject :=
  list_to_map subjects.

End Registry.

(** ** crawlers/hackerNews.ts *)

Module HackerNewsCrawler.
Import Crawlers.

Definition HN_API_BASE : string := "https://hacker-news.firebaseio.com/v0".

Record HNItem := {
  id : JS.number;
  title : option string;
  url : option string;
  text : option string;
  score : option JS.number;
  descendants : option JS.number;
  time : option JS.number;
  type_ : option string;
}.

Definition name : string := "Hacker News".

Section Network.
Variable subjects : gmap string Subjects.Subject.
(** [axios.get(url)] for the two listings and for an item: the [data] of
    the response ([None] for an item when it is [null]), or a rejection. *)
Variable getIds : string -> JS.promise (list JS.number).
Variable getItem : string -> JS.promise (option HNItem).

(** [item.type !== 'story'] *)
Definition notStory (type_ : option string) : bool :=
  match type_ with
  | Some t => negb (String.eqb t "story")
  | None => true
  end.

(** One turn of the loop over [responses]; a response is [None] for [null]. *)
Definition visit (subjectId : string) (articles : list Article)
    (response : option (option HNItem)) : list Article :=
  match response with
  | None => articles
  | Some None => articles
  | Some (Some item) =>
      match title item with
      | None => articles
      | Some title =>
          if notStory (type_ item) || negb (JSString.truthy title)
          then articles
          else
            let content := JSString.orElse (text item) "" in
            let url :=
              JSString.orElse (url item)
                ("https://news.ycombinator.com/item?id="
                 +:+ JS.toString (id item)) in
            if negb (Subjects.isRelevantToSubject subjects title content
                       subjectId)
            then articles
            else
              let engagement := {|
                upvotes := Some (JS.orElse (score item) 0%float);
                comments := Some (JS.orElse (descendants item) 0%float);
                shares := None;
                reactions := None;
                views := None |} in
              articles ++ [ {|
                Crawlers.id := "hn-" +:+ JS.toString (id item);
                Crawlers.title := title;
                Crawlers.url := url;
                content := content;
                source := "Hacker News";
                publishedAt :=
                  match time item with
                  | Some t =>
                      if JS.truthy t then JSDate.ofNumber (t * 1000)%float
                      else None
                  | None => None
                  end;
                engagement := engagement |} ]
      end
  end.

Definition fetchArticles (subjectId : string) : JS.promise (list Article) :=
  let articles : list Article := [] in
  JS.tryCatch
    (JS.andThen (getIds (HN_API_BASE +:+ "/topstories.json"))
       (fun topStories =>
     let topStoryIds := JS.slice topStories 0 100 in
     JS.andThen (getIds (HN_API_BASE +:+ "/newstories.json"))
       (fun newStories =>
     let newStoryIds := JS.slice newStories 0 50 in
     let allIds := JSSet.ofArray (topStoryIds ++ newStoryIds) in
     let storyPromises :=
       map (fun id =>
              JS.tryCatch
                (JS.andThen
                   (getItem (HN_API_BASE +:+ "/item/" +:+ JS.toString id
                             +:+ ".json"))
                   (fun data => JS.Resolved (Some data)))
                (fun _ => JS.Resolved None))
           allIds in
     JS.andThen (JS.all storyPromises) (fun responses =>
     JS.Resolved (fold_left (visit subjectId) responses articles)))))
    (fun error => JS.Resolved articles).

Definition crawler : Crawler :=
  {| Crawlers.name := name; Crawlers.fetchArticles := fetchArticles |}.

End Network.
End HackerNewsCrawler.

(** ** crawlers/reddit.ts *)

Module RedditCrawler.
Import Crawlers.

Definition REDDIT_API_BASE : string := "https://www.reddit.com".

(** The [data] of a [RedditPost]. *)
Record RedditPost := {
  id : string;
  title : string;
  url : string;
  selftext : string;
  score : JS.number;
  num_comments : JS.number;
  created_utc : JS.number;
  subreddit : string;
  permalink : string;
}.

Definition TECH_SUBREDDITS : list string :=
  ["artificial"; "MachineLearning"; "technology"; "programming";
   "LocalLLaMA"; "singularity"; "ChatGPT"; "OpenAI"].

Definition name : string := "Reddit".

Section Network.
Variable subjects : gmap string Subjects.Subject.
(** [axios.get(url)]: the posts of [response.data.data.children], or a
    rejection. *)
Variable get : string -> JS.promise (list RedditPost).

(** One turn of the loop over the posts of a listing. *)
Definition visit (subjectId : string) (articles : list Article)
    (data : RedditPost) : list Article :=
  let title := title data in
  let content := JSString.orElse (Some (selftext data)) "" in
  if negb (Subjects.isRelevantToSubject subjects title content subjectId)
  then articles
  else
    let engagement := {|
      upvotes := Some (score data);
      comments := Some (num_comments data);
      shares := None;
      reactions := None;
      views := None |} in
    articles ++ [ {|
      Crawlers.id := "reddit-" +:+ id data;
      Crawlers.title := title;
      Crawlers.url :=
        if JSString.startsWith (url data) "http" then url data
        else "https://www.reddit.com" +:+ permalink data;
      content := content;
      source := "Reddit r/" +:+ subreddit data;
      publishedAt := JSDate.ofNumber (created_utc data * 1000)%float;
      engagement := engagement |} ].

(** One turn of the loop over the subreddits: the [try] block and its
    [catch], which only logs. *)
Definition visitSubreddit (subjectId : string) (articles : list Article)
    (subreddit : string) : JS.promise (list Article) :=
  JS.tryCatch
    (JS.andThen
       (get (REDDIT_API_BASE +:+ "/r/" +:+ subreddit +:+ "/hot.json?limit=50"))
       (fun children =>
          JS.Resolved (fold_left (visit subjectId) children articles)))
    (fun error => JS.Resolved articles).

Definition fetchArticles (subjectId : string) : JS.promise (list Article) :=
  fold_left
    (fun state subreddit =>
       JS.andThen state (fun articles =>
         visitSubreddit subjectId articles subreddit))
    TECH_SUBREDDITS (JS.Resolved []).

Definition crawler : Crawler :=
  {| Crawlers.name := name; Crawlers.fetchArticles := fetchArticles |}.

End Network.
End RedditCrawler.

(** ** crawlers/devto.ts *)

Module DevToCrawler.
Import Crawlers.

Definition DEVTO_API_BASE : string := "https://dev.to/api".

Record DevToArticle := {
  id : JS.number;
  title : string;
  url : string;
  description : string;
  body_markdown : option string;
  public_reactions_count : JS.number;
  comments_count : JS.number;
  page_views_count : option JS.number;
  published_at : string;
  tag_list : list string;
}.

Definition searchTerms : list string :=
  ["ai"; "artificial intelligence"; "llm"; "agents"; "automation"].

Definition name : string := "Dev.to".


Section Network.
Variable subjects : gmap string Subjects.Subject.
(** [axios.get(url)]: the [data] of the response, or a rejection. *)
Variable get : string -> JS.promise (list DevToArticle).
(** [new Date(s)] for a string: the time value, [None] when [s] is no
    date. *)
Variable parseDate : string -> option Z.

(** One turn of the loop over the articles of a response. *)
Definition visit (subjectId : string) (articles : list Article)
    (article : DevToArticle) : list Article :=
  let title := title article in
  let content :=
    JSString.orElse (Some (description article))
      (JSString.orElse (body_markdown article) "") in
  if negb (Subjects.isRelevantToSubject subjects title content subjectId)
  then articles
  else
    let engagement := {|
      upvotes := None;
      comments := Some (comments_count article);
      shares := None;
      reactions := Some (public_reactions_count article);
      views := page_views_count article |} in
    articles ++ [ {|
      Crawlers.id := "devto-" +:+ JS.toString (id article);
      Crawlers.title := title;
      Crawlers.url := url article;
      content := content;
      source := "Dev.to";
      publishedAt := parseDate (published_at article);
      engagement := engagement |} ].

(** The loop over the search terms inside the [try]: a request that fails
    leaves the loop with the articles pushed so far. *)
Fixpoint search (subjectId : string) (terms : list string)
    (articles : list Article) : list Article :=
  match terms with
  | [] => articles
  | term :: rest =>
      match get (DEVTO_API_BASE +:+ "/articles?tag="
                 +:+ JSString.encodeURIComponent term +:+ "&per_page=30") with
      | JS.Resolved data =>
          search subjectId rest (fold_left (visit subjectId) data articles)
      | JS.Rejected _ => articles
      end
  end.

Definition fetchArticles (subjectId : string) : JS.promise (list Article) :=
  let articles := search subjectId searchTerms [] in
  let uniqueArticles :=
    JSMap.values
      (JSMap.ofEntries (map (fun a => (Crawlers.id a, a)) articles)) in
  JS.Resolved uniqueArticles.

Definition crawler : Crawler :=
  {| Crawlers.name := name; Crawlers.fetchArticles := fetchArticles |}.

End Network.
End DevToCrawler.

(** ** services/contentFetcher.ts *)

Module ContentFetcher.
Import Crawlers.

(** The document [cheerio.load] gives, after the [remove()] of the
    boilerplate elements: for a selector the text of the elements it
    matches ([None] when it matches none), and the text of [body]. *)
Record Page := {
  select : string -> option string;
  body : string;
}.

Definition quote : string := String (ascii_of_nat 34) EmptyString.

Definition selectors : list string :=
  ["article"; "[role=" +:+ quote +:+ "main" +:+ quote +:+ "]";
   ".post-content"; ".article-content"; ".entry-content"; ".content";
   "main"; ".story-body"; "#article-body"].

(** The loop over the selectors, left at the first one that matches. *)
Fixpoint firstMatch (page : Page) (selectors : list string) (text : string)
  : string :=
  match selectors with
  | [] => text
  | selector :: rest =>
      match select page selector with
      | Some found => found
      | None => firstMatch page rest text
      end
  end.

(** [content.split(/\s+/).slice(0, 300).join(' ')] *)
Definition firstWords (content : string) : string :=
  let words := JS.slice (JSString.split content) 0 300 in
  JS.join " " words.

(** [{...article, content}] *)
Definition withContent (article : ScoredArticle) (content : string)
  : ScoredArticle :=
  let a := Crawlers.article article in
  {| article := {|
       id := id a;
       title := title a;
       url := url a;
       content := content;
       source := source a;
       publishedAt := publishedAt a;
       engagement := engagement a |};
     engagementScore := engagementScore article;
     scoreBreakdown := scoreBreakdown article;
     matchedKeywords := matchedKeywords article;
     relevanceScore := relevanceScore article |}.

Section Network.
(** [axios.get(url)] followed by [cheerio.load], or a rejection. *)
Variable get : string -> JS.promise Page.

Definition fetchArticleContent (url : string) : JS.promise string :=
  JS.tryCatch
    (JS.andThen (get url) (fun page =>
     let text := firstMatch page selectors "" in
     let text := if negb (JSString.truthy text) then body page else text in
     let text :=
       JS.trim
         (JSString.replaceRuns JSString.isLineFeed " " false
            (JSString.replaceRuns JS.isWhiteSpace " " false text)) in
     JS.Resolved (firstWords text)))
    (fun error => JS.Resolved "").

(** One turn of the loop of [enrichArticlesWithContent]. *)
Definition visit (enrichedArticles : list ScoredArticle)
    (article : ScoredArticle) : JS.promise (list ScoredArticle) :=
  let content := content (Crawlers.article article) in
  JS.andThen
    (if negb (JSString.truthy content) || (String.length content <? 100)%nat
     then
       JS.tryCatch
         (JS.andThen (fetchArticleContent (url (Crawlers.article article)))
            (fun fetchedContent =>
               JS.Resolved
                 (if JSString.truthy fetchedContent then fetchedContent
                  else content)))
         (fun error => JS.Resolved content)
     else JS.Resolved (firstWords content))
    (fun content =>
       JS.Resolved (enrichedArticles ++ [withContent article content])).

Definition enrichArticlesWithContent (articles : list ScoredArticle)
  : JS.promise (list ScoredArticle) :=
  fold_left
    (fun state article =>
       JS.andThen state (fun enrichedArticles =>
         visit enrichedArticles article))
    articles (JS.Resolved []).

End Network.
End ContentFetcher.

(** ** index.ts: GET /api/subjects and GET /api/subjects/:id *)

Module SubjectsApi.

Inductive response :=
  | Ok (subject : Subjects.Subject)
  | NotFound (error : string).

(** [res.json({ subjects })] *)
Definition getSubjects (subjects : list (string * Subjects.Subject))
  : list Subjects.Subject :=
  Registry.getAllSubjects subjects.

Definition getSubjectById (subjects : list (string * Subjects.Subject))
    (i : string) : response :=
  match Registry.getSubject subjects i with
  | None => NotFound "Subject not found"
  | Some subject => Ok subject
  end.

End SubjectsApi.

(** ** crawlers/index.ts: the registered crawlers; index.ts: the server *)

Module Server.
Section Network.
Variable argumentLimit : nat.
Variable subjects : gmap string Subjects.Subject.
Variable hackerNewsIds : string -> JS.promise (list JS.number).
Variable hackerNewsItem :
  string -> JS.promise (option HackerNewsCrawler.HNItem).
Variable reddit : string -> JS.promise (list RedditCrawler.RedditPost).
Variable devTo : string -> JS.promise (list DevToCrawler.DevToArticle).
Variable parseDate : string -> option Z.
Variable page : string -> JS.promise ContentFetcher.Page.

Definition crawlers : list Crawlers.Crawler :=
  [ HackerNewsCrawler.crawler subjects hackerNewsIds hackerNewsItem;
    RedditCrawler.crawler subjects reddit;
    DevToCrawler.crawler subjects devTo parseDate ].

(** GET /api/articles/:subjectId of the running server. *)
Definition getArticles (subjectId : string) (limitParam : option string)
  : Api.response :=
  Api.getArticles argumentLimit subjects crawlers
    (ContentFetcher.enrichArticlesWithContent page) subjectId limitParam.

End Network.
End Server.

(** ** frontend/src/App.tsx *)

Module App.

(** The [maxLength] argument is explicit; the source defaults it to 300. *)
Definition truncateContent (content : string) (maxLength : Z) : string :=
  if (Z.of_nat (String.length content) <=? maxLength)%Z then content
  else JSString.substring content 0 maxLength +:+ "...".

End App.

(** ** The notions the specification is worded in *)

Module Spec.
Import Crawlers.

(** [content] contains [term] as a case-insensitive substring. *)
Definition mentions (content term : string) : bool :=
  JS.includes (JS.toLowerCase content) (JS.toLowerCase term).

(** The entries of [terms] that [content] contains, with repetitions. *)
Definition matched (content : string) (terms : list string) : list string :=
  List.filter (mentions content) terms.

(** The number of distinct terms of [terms] that [content] contains. *)
Definition distinctMatched (content : string) (terms : list string) : nat :=
  length (nodup string_dec (matched content terms)).

(** The engagementScore of [a] is a number: not NaN. *)
Definition hasScore (a : ScoredArticle) : Prop :=
  PrimFloat.is_nan (engagementScore a) = false.

(** The lists of the providers that did not fail, in registration order. *)
Fixpoint healthy (crawlers : list Crawler) (subjectId : string)
  : list (list Article) :=
  match crawlers with
  | [] => []
  | crawler :: rest =>
      match fetchArticles crawler subjectId with
      | JS.Resolved articles => articles :: healthy rest subjectId
      | JS.Rejected _ => healthy rest subjectId
      end
  end.

(** What a provider contributes: its list, or nothing when it fails. *)
Definition settled (subjectId : string) (crawler : Crawler) : list Article :=
  match fetchArticles crawler subjectId with
  | JS.Resolved articles => articles
  | JS.Rejected _ => []
  end.

(** Each of the lists has no more entries than a call accepts arguments. *)
Definition fits (argumentLimit : nat) (lists : list (list Article)) : bool :=
  forallb (fun articles => (length articles <=? argumentLimit)%nat) lists.

(** The five metrics in the fixed order, each with its name and weight. *)
Definition metrics (e : EngagementMetrics) (w : EngagementScorer.ScoringWeights)
  : list (option JS.number * string * JS.number) :=
  [ (upvotes e, "upvotes", EngagementScorer.upvotes w);
    (comments e, "comments", EngagementScorer.comments w);
    (shares e, "shares", EngagementScorer.shares w);
    (reactions e, "reactions", EngagementScorer.reactions w);
    (views e, "views", EngagementScorer.views w) ].

(** A metric is present and non-zero. *)
Definition nonZero (m : option JS.number) : bool :=
  match m with
  | Some v => negb (PrimFloat.eqb v 0)
  | None => false
  end.

(** A metric is present, non-zero and not NaN. *)
Definition counted (m : option JS.number) : bool :=
  match m with
  | Some v => negb (PrimFloat.eqb v 0) && negb (PrimFloat.is_nan v)
  | None => false
  end.

(** ["<value> <metricName> x <weight> = <contribution to one decimal place>"],
    the contribution being value times weight. *)
Definition rendered (row : option JS.number * string * JS.number) : string :=
  match row with
  | (Some v, metricName, weight) =>
      JS.toString v +:+ " " +:+ metricName +:+ " x " +:+ JS.toString weight
      +:+ " = " +:+ JS.toFixed1 (v * weight)%float
  | (None, _, _) => ""
  end.

(** The entry a metric contributes to [explanationParts]. *)
Definition segment (row : option JS.number * string * JS.number) : list string :=
  match row with
  | (Some v, metricName, weight) =>
      if JS.truthy v
      then [EngagementScorer.part v metricName weight (v * weight)%float]
      else []
  | (None, _, _) => []
  end.

(** The explanation, for the metrics that [listed] selects: the literal when
    there is none, else [lead] followed by the renderings joined with
    [" + "] and [" = <total to one decimal place>"]. *)
Definition explanationAs (lead : string) (listed : option JS.number -> bool)
    (e : EngagementMetrics) (w : EngagementScorer.ScoringWeights)
    (total : JS.number) : string :=
  match List.filter (fun row => listed (fst (fst row))) (metrics e w) with
  | [] => "No engagement metrics available"
  | rows =>
      lead +:+ JS.join " + " (map rendered rows) +:+ " = " +:+ JS.toFixed1 total
  end.

End Spec.

(** ** Values taken from the repository's tests *)

Module Samples.
Import Crawlers EngagementScorer.

(** The article of the first test of [engagementScorer.test.ts]. *)
Definition fullArticle : Article := {|
  id := "test-1";
  title := "Test Article";
  url := "https://example.com";
  content := "Test content";
  source := "Test Source";
  publishedAt := Some 0%Z;
  engagement := {|
    Crawlers.upvotes := Some 100%float;
    Crawlers.comments := Some 50%float;
    Crawlers.shares := Some 20%float;
    Crawlers.reactions := Some 30%float;
    Crawlers.views := Some 1000%float |};
|}.

(** [createScoredArticle(id, score)] of [engagementScorer.test.ts] *)
Definition createScoredArticle (i : string) (score : JS.number)
  : ScoredArticle := {|
  article := {|
    id := i;
    title := "Test";
    url := "https://example.com";
    content := "Test content";
    source := "Test";
    publishedAt := Some 0%Z;
    engagement := {|
      Crawlers.upvotes := None;
      Crawlers.comments := None;
      Crawlers.shares := None;
      Crawlers.reactions := None;
      Crawlers.views := None |};
  |};
  engagementScore := score;
  scoreBreakdown := {|
    upvotesContribution := 0%float;
    commentsContribution := 0%float;
    sharesContribution := 0%float;
    reactionsContribution := 0%float;
    viewsContribution := 0%float;
    totalScore := score;
    explanation := "" |};
  matchedKeywords := [];
  relevanceScore := 0;
|}.

Definition threeScored : list ScoredArticle :=
  [createScoredArticle "1" 50%float; createScoredArticle "2" 100%float;
   createScoredArticle "3" 75%float].

(** The subject that [subjects.test.ts] registers. *)
Definition testSubject : Subjects.Subject := {|
  Subjects.id := "test-subject";
  Subjects.name := "Test Subject";
  Subjects.description := "A test subject for testing";
  Subjects.keywords := ["test"; "testing"];
  Subjects.relatedTerms := ["unit test"; "integration test"];
|}.

(** Subjects that [addSubject] accepts: one with an empty keyword, one that
    lists a related term twice. *)
Definition emptyKeywordSubject : Subjects.Subject := {|
  Subjects.id := "blank";
  Subjects.name := "Blank";
  Subjects.description := "A subject with an empty keyword";
  Subjects.keywords := [""];
  Subjects.relatedTerms := [];
|}.

Definition repeatedTermSubject : Subjects.Subject := {|
  Subjects.id := "retrieval";
  Subjects.name := "Retrieval";
  Subjects.description := "A subject that lists a related term twice";
  Subjects.keywords := ["llm"];
  Subjects.relatedTerms := ["rag"; "rag"];
|}.

(** The subject pattern of the README. *)
Definition yourSubject : Subjects.Subject := {|
  Subjects.id := "your-subject-id";
  Subjects.name := "Your Subject Name";
  Subjects.description := "Description of what this subject covers";
  Subjects.keywords := ["primary keyword 1"; "primary keyword 2"];
  Subjects.relatedTerms := ["related term 1"; "related term 2"];
|}.

Definition registry : gmap string Subjects.Subject :=
  Subjects.addSubject
    (Subjects.addSubject
       (Subjects.addSubject
          (Subjects.addSubject ∅ testSubject) emptyKeywordSubject)
       repeatedTermSubject)
    yourSubject.

(** The article of the explanation test of [engagementScorer.test.ts]. *)
Definition twoMetrics : Article := {|
  id := "test-7";
  title := "Test Article";
  url := "https://example.com";
  content := "Test content";
  source := "Test Source";
  publishedAt := Some 0%Z;
  engagement := {|
    Crawlers.upvotes := Some 10%float;
    Crawlers.comments := Some 5%float;
    Crawlers.shares := None;
    Crawlers.reactions := None;
    Crawlers.views := None |};
|}.

(** The same article with a NaN upvote count. *)
Definition nanMetric : Article := {|
  id := "test-7";
  title := "Test Article";
  url := "https://example.com";
  content := "Test content";
  source := "Test Source";
  publishedAt := Some 0%Z;
  engagement := {|
    Crawlers.upvotes := Some nan;
    Crawlers.comments := Some 5%float;
    Crawlers.shares := None;
    Crawlers.reactions := None;
    Crawlers.views := None |};
|}.

(** Three providers, the second of which fails. *)
Definition healthyA : Crawler := {|
  name := "Hacker News";
  fetchArticles := fun _ => JS.Resolved [fullArticle];
|}.

Definition failing : Crawler := {|
  name := "Reddit";
  fetchArticles := fun _ => JS.Rejected "Network Error";
|}.

Definition healthyB : Crawler := {|
  name := "Dev.to";
  fetchArticles := fun _ => JS.Resolved [twoMetrics; nanMetric];
|}.

(** An article whose comments weigh in at [-Infinity] and whose shares at
    [Infinity]. *)
Definition oppositeInfinities : Article := {|
  id := "test-8";
  title := "Test Article";
  url := "https://example.com";
  content := "Test content";
  source := "Test Source";
  publishedAt := Some 0%Z;
  engagement := {|
    Crawlers.upvotes := None;
    Crawlers.comments := Some (-1e308)%float;
    Crawlers.shares := Some 1.5e308%float;
    Crawlers.reactions := None;
    Crawlers.views := None |};
|}.

(** An engine that accepts 125000 arguments in a call, about what Node.js
    accepts on its default stack, and a provider that returns 200000
    articles. *)
Definition argumentLimit : nat := N.to_nat 125000.

Definition flooding : Crawler := {|
  name := "Reddit";
  fetchArticles := fun _ => JS.Resolved (repeat twoMetrics (N.to_nat 200000));
|}.

End Samples.

(** ** Further notions the properties are worded in *)

Module Notions.
Import Crawlers.

(** The upper-case form of a character of Latin-1 that has one in Latin-1:
    the letters [a] to [z] and U+00E0 to U+00FE, but for the division sign
    U+00F7, have theirs 32 places back. *)
Definition toUpperChar (c : ascii) : ascii :=
  let n := nat_of_ascii c in
  if (((97 <=? n) && (n <=? 122))
      || ((224 <=? n) && (n <=? 254) && negb (n =? 247)))%nat
  then ascii_of_nat (n - 32) else c.

(** The three characters of Latin-1 whose upper-case form lies outside it:
    the micro sign U+00B5, the sharp s U+00DF (in upper case the two letters
    [SS]) and U+00FF. *)
Definition upperCaseOutside (c : ascii) : bool :=
  let n := nat_of_ascii c in
  ((n =? 181) || (n =? 223) || (n =? 255))%nat.

(** The texts whose upper-case form is a text of Latin-1. *)
Fixpoint upperCaseInLatin1 (s : string) : bool :=
  match s with
  | EmptyString => true
  | String c rest => negb (upperCaseOutside c) && upperCaseInLatin1 rest
  end.

(** [String.prototype.toUpperCase] on the texts of [upperCaseInLatin1]. *)
Fixpoint toUpperCase (s : string) : string :=
  match s with
  | EmptyString => EmptyString
  | String c rest => String (toUpperChar c) (toUpperCase rest)
  end.

(** The terms of a subject: its keywords, then its related terms. *)
Definition terms (subject : Subjects.Subject) : list string :=
  Subjects.keywords subject ++ Subjects.relatedTerms subject.

(** A number above 0 and below infinity. *)
Definition positiveFinite (x : JS.number) : bool :=
  PrimFloat.ltb 0 x && PrimFloat.ltb x infinity.

(** A metric that is absent or not below 0 (NaN included, which the
    scorer reads as 0). *)
Definition notNegative (metric : option JS.number) : bool :=
  match metric with
  | Some v => negb (PrimFloat.ltb v 0)
  | None => true
  end.

(** An article that passes the relevance test of the crawlers. *)
Definition passes (subjects : gmap string Subjects.Subject) (sid : string)
    (a : Article) : Prop :=
  Subjects.isRelevantToSubject subjects (title a) (content a) sid = true.

(** A Reddit post as an article: the id after ["reddit-"], the title, the
    url of the post when it starts with ["http"] and the permalink on
    reddit.com otherwise, the selftext as content, the subreddit after
    ["Reddit r/"] as source, the creation time in milliseconds as date, the
    score as upvotes and the number of comments as comments. *)
Definition redditArticle (post : RedditCrawler.RedditPost) : Article := {|
  id := "reddit-" +:+ RedditCrawler.id post;
  title := RedditCrawler.title post;
  url :=
    if String.prefix "http" (RedditCrawler.url post)
    then RedditCrawler.url post
    else "https://www.reddit.com" +:+ RedditCrawler.permalink post;
  content := RedditCrawler.selftext post;
  source := "Reddit r/" +:+ RedditCrawler.subreddit post;
  publishedAt := JSDate.ofNumber (RedditCrawler.created_utc post * 1000)%float;
  engagement := {|
    upvotes := Some (RedditCrawler.score post);
    comments := Some (RedditCrawler.num_comments post);
    shares := None;
    reactions := None;
    views := None |};
|}.

(** A post whose title and selftext are relevant to the subject. *)
Definition redditRelevant (subjects : gmap string Subjects.Subject)
    (sid : string) (post : RedditCrawler.RedditPost) : bool :=
  Subjects.isRelevantToSubject subjects (RedditCrawler.title post)
    (RedditCrawler.selftext post) sid.

(** The relevant posts of the hot listing of one subreddit, as articles in
    the order of the listing; none when the request for the listing
    fails. *)
Definition redditListed (subjects : gmap string Subjects.Subject)
    (get : string -> JS.promise (list RedditCrawler.RedditPost))
    (sid subreddit : string) : list Article :=
  match get ("https://www.reddit.com/r/" +:+ subreddit
             +:+ "/hot.json?limit=50") with
  | JS.Resolved posts =>
      map redditArticle (List.filter (redditRelevant subjects sid) posts)
  | JS.Rejected _ => []
  end.

(** No character of [s] is white space. *)
Fixpoint noWhiteSpace (s : string) : bool :=
  match s with
  | EmptyString => true
  | String c rest => negb (JS.isWhiteSpace c) && noWhiteSpace rest
  end.

(** The only white space in [s] is the space character. *)
Fixpoint spacesOnly (s : string) : bool :=
  match s with
  | EmptyString => true
  | String c rest =>
      (negb (JS.isWhiteSpace c) || Ascii.eqb c " ") && spacesOnly rest
  end.

(** [s] starts with a character that is not white space. *)
Definition startsWord (s : string) : bool :=
  match s with
  | EmptyString => false
  | String c _ => negb (JS.isWhiteSpace c)
  end.

(** [s] ends with a character that is not white space. *)
Fixpoint endsWord (s : string) : bool :=
  match s with
  | EmptyString => false
  | String c EmptyString => negb (JS.isWhiteSpace c)
  | String _ rest => endsWord rest
  end.

(** [s] is made of words with one space between two of them: it neither
    starts nor ends with white space and has no white space but single
    spaces.  The empty string is the text of no word. *)
Definition normalized (s : string) : Prop :=
  exists words,
    s = JS.join " " words /\
    Forall (fun w => w <> EmptyString /\ noWhiteSpace w = true) words.

(** The number of pieces [split(/\s+/)] cuts [s] into. *)
Definition wordCount (s : string) : nat := length (JSString.split s).

Definition metricsOf (e : EngagementMetrics) : list (option JS.number) :=
  [upvotes e; comments e; shares e; reactions e; views e].

Definition weightsOf (w : EngagementScorer.ScoringWeights) : list JS.number :=
  [EngagementScorer.upvotes w; EngagementScorer.comments w;
   EngagementScorer.shares w; EngagementScorer.reactions w;
   EngagementScorer.views w].

Definition contributionsOf (r : ScoreBreakdown) : list JS.number :=
  [upvotesContribution r; commentsContribution r; sharesContribution r;
   reactionsContribution r; viewsContribution r].

End Notions.

(** The sign of a binary64 value. *)
Module Sign.

(** [f] is a zero of sign [s] or a non-zero value of sign [s]. *)
Definition signedOrZero (s : bool) (f : spec_float) : Prop :=
  f = S754_zero s \/ Binary64.signed s f.

(** [f] is a zero, a positive value or [+Infinity]. *)
Definition nonNegative (f : spec_float) : Prop :=
  match f with
  | S754_zero _ => True
  | S754_finite s _ _ => s = false
  | S754_infinity s => s = false
  | S754_nan => False
  end.

Definition isZero (f : spec_float) : Prop :=
  match f with
  | S754_zero _ => True
  | _ => False
  end.

End Sign.

(** ** Further values taken from the repository's tests *)

Module Fixtures.
Import Crawlers.

(** The article of the missing-metrics test of [engagementScorer.test.ts]. *)
Definition noMetrics : Article := {|
  id := "test-3";
  title := "Test Article";
  url := "https://example.com";
  content := "Test content";
  source := "Test Source";
  publishedAt := Some 0%Z;
  engagement := {|
    upvotes := None;
    comments := None;
    shares := None;
    reactions := None;
    views := None |};
|}.

(** A network on which every request fails. *)
Definition offline {A : Type} (url : string) : JS.promise A :=
  JS.Rejected "Network Error".

(** The article of the first test of [devto.test.ts], with a title that
    the test subject matches. *)
Definition devToArticle : DevToCrawler.DevToArticle := {|
  DevToCrawler.id := 12345%float;
  DevToCrawler.title := "Testing AI Agents with TypeScript";
  DevToCrawler.url := "https://dev.to/user/ai-agents-article";
  DevToCrawler.description := "A guide to building agentic ai systems";
  DevToCrawler.body_markdown := None;
  DevToCrawler.public_reactions_count := 250%float;
  DevToCrawler.comments_count := 45%float;
  DevToCrawler.page_views_count := Some 5000%float;
  DevToCrawler.published_at := "2024-01-15T10:00:00Z";
  DevToCrawler.tag_list := ["ai"];
|}.

(** Dev.to answering every request with that article. *)
Definition devToOnline (url : string)
  : JS.promise (list DevToCrawler.DevToArticle) :=
  JS.Resolved [devToArticle].

(** The time value of ["2024-01-15T10:00:00Z"]. *)
Definition parseDate (s : string) : option Z := Some 1705312800000%Z.

(** A post that the test subject matches, and Reddit answering every
    request with a listing of two such posts. *)
Definition redditPost : RedditCrawler.RedditPost := {|
  RedditCrawler.id := "abc123";
  RedditCrawler.title := "Testing AI Agents";
  RedditCrawler.url := "/r/artificial/comments/abc123";
  RedditCrawler.selftext := "";
  RedditCrawler.score := 500%float;
  RedditCrawler.num_comments := 30%float;
  RedditCrawler.created_utc := 1705312800%float;
  RedditCrawler.subreddit := "artificial";
  RedditCrawler.permalink := "/r/artificial/comments/abc123/testing";
|}.

Definition redditOnline (url : string)
  : JS.promise (list RedditCrawler.RedditPost) :=
  JS.Resolved [redditPost; redditPost].

End Fixtures.

(** * Properties *)

(** ** Sample evaluations of the built-ins *)
Example toString_samples :
  map JS.toString [1; 2; 1.5; 0.8; 0.01; 100; 1000; 0.30000000000000004;
                   1e21; 123456789012345680000; 1.5e-7; 0.000001; (-42.5)]%float
  = ["1"; "2"; "1.5"; "0.8"; "0.01"; "100"; "1000"; "0.30000000000000004";
     "1e+21"; "123456789012345680000"; "1.5e-7"; "0.000001"; "-42.5"].
Proof. vm_compute. reflexivity. Qed.

Example toFixed1_samples :
  map JS.toFixed1 [100; 24; 10; 0.05; 0.25; 1.45; 264; (-0.01); 0.95]%float
  = ["100.0"; "24.0"; "10.0"; "0.1"; "0.3"; "1.4"; "264.0"; "-0.0"; "0.9"].
Proof. vm_compute. reflexivity. Qed.

Example toString_extremes :
  map JS.toString [5e-324; 1.7976931348623157e308; 9007199254740993;
                   0.1; 1e-7; 4.35; 0.000015; infinity; nan; (-0)]%float
  = ["5e-324"; "1.7976931348623157e+308"; "9007199254740992";
     "0.1"; "1e-7"; "4.35"; "0.000015"; "Infinity"; "NaN"; "0"].
Proof. vm_compute. reflexivity. Qed.

Example parseInt_samples :
  map JS.parseInt [Some "0"; None; Some "abc"; Some " 12px"; Some "-5";
                   Some "0x1F"; Some "+7"; Some ""; Some "0x"; Some "-0";
                   Some "1e3"; Some "007"]
  = [Some 0; None; None; Some 12; Some (-5); Some 31; Some 7; None; None;
     Some 0; Some 1; Some 7]%Z.
Proof. vm_compute. reflexivity. Qed.

(** White space before the digits is skipped, the no-break space U+00A0
    included. *)
Example parseInt_white_space :
  JS.parseInt
    (Some (String (ascii_of_nat 160) (String (ascii_of_nat 9) " 12")))
  = Some 12%Z.
Proof. vm_compute. reflexivity. Qed.

Example matchContent_sample :
  Subjects.matchContent (Subjects.addSubject ∅ Samples.testSubject)
    "Unit Tests and more TESTING" "test-subject"
  = Some {| Subjects.subjectId := "test-subject";
            Subjects.matchedKeywords := ["test"; "testing"; "unit test"];
            Subjects.relevanceScore := 25 |}.
Proof. vm_compute. reflexivity. Qed.

(** ** The engagement score *)

Module ScoreFacts.
Import Crawlers EngagementScorer Samples.

(** C1, as stated, fails: for the article with metrics
    [{upvotes:100, comments:50, shares:20, reactions:30, views:1000}] and
    the default weights, [totalScore] is not 321. *)
Lemma totalScore_full_article_not_321 :
  totalScore (calculateEngagementScore fullArticle DEFAULT_WEIGHTS)
  <> 321%float.
Proof. vm_compute. discriminate. Qed.

(** C1, amended: for that article and the default weights the five
    contributions are 100, 100, 30, 24 and 10, and [totalScore] is their
    sum [100*1.0 + 50*2.0 + 20*1.5 + 30*0.8 + 1000*0.01], which is 264. *)
Theorem totalScore_full_article :
  let b := calculateEngagementScore fullArticle DEFAULT_WEIGHTS in
  upvotesContribution b = 100%float /\
  commentsContribution b = 100%float /\
  sharesContribution b = 30%float /\
  reactionsContribution b = 24%float /\
  viewsContribution b = 10%float /\
  totalScore b = (100 * 1.0 + 50 * 2.0 + 20 * 1.5 + 30 * 0.8 + 1000 * 0.01)%float /\
  totalScore b = 264%float.
Proof. vm_compute. repeat split. Qed.

(** *** scoreArticles *)

Lemma push_loop {A B : Type} (f : A -> B) (l : list A) (acc : list B) :
  fold_left (fun out x => out ++ [f x]) l acc = acc ++ map f l.
Proof.
  revert acc. induction l as [|x l IH]; intros acc; cbn [fold_left map].
  - symmetry. apply app_nil_r.
  - rewrite IH, <- app_assoc. reflexivity.
Qed.

Lemma scoreArticles_map (subjects : gmap string Subjects.Subject)
    (articles : list Article) (sid : string) (w : ScoringWeights) :
  scoreArticles subjects articles sid w = map (scoreOne subjects sid w) articles.
Proof.
  unfold scoreArticles. rewrite (push_loop (scoreOne subjects sid w)).
  reflexivity.
Qed.

(** JavaScript's [x === x] on a number is true unless [x] is NaN. *)
Lemma strict_equal_self (x : JS.number) :
  PrimFloat.eqb x x = negb (PrimFloat.is_nan x).
Proof. unfold PrimFloat.is_nan. symmetry. apply negb_involutive. Qed.

(** C8, as stated, fails: for the article with the metrics
    [{comments: -1e308, shares: 1.5e308}] and the default weights the
    contributions are [-Infinity] and [Infinity], [totalScore] is NaN, and
    [engagementScore === scoreBreakdown.totalScore] is false. *)
Lemma scoreArticles_not_strictly_equal :
  ~ Forall (fun sa =>
              PrimFloat.eqb (engagementScore sa) (totalScore (scoreBreakdown sa))
              = true)
      (scoreArticles registry [oppositeInfinities] "test-subject"
         DEFAULT_WEIGHTS).
Proof.
  intros H. rewrite List.Forall_forall in H.
  specialize (H (scoreOne registry "test-subject" DEFAULT_WEIGHTS
                   oppositeInfinities) (or_introl eq_refl)).
  vm_compute in H. discriminate.
Qed.

(** C8, amended: every ScoredArticle produced by [scoreArticles], for any
    input articles, subjectId and weights, holds in engagementScore the
    number of its scoreBreakdown.totalScore, so that
    [engagementScore === scoreBreakdown.totalScore] is true unless that
    number is NaN, for which [===] is false; the output has the length and
    the order of the input (entry [i] extends article [i]), and an article
    without a relevance match is kept, with no matched keywords and
    relevance 0. *)
Theorem scoreArticles_spec (subjects : gmap string Subjects.Subject)
    (articles : list Article) (sid : string) (w : ScoringWeights) :
  let out := scoreArticles subjects articles sid w in
  Forall (fun sa =>
            engagementScore sa = totalScore (scoreBreakdown sa) /\
            PrimFloat.eqb (engagementScore sa) (totalScore (scoreBreakdown sa))
            = negb (PrimFloat.is_nan (totalScore (scoreBreakdown sa)))) out /\
  length out = length articles /\
  map article out = articles /\
  Forall (fun sa =>
            Subjects.matchContent subjects
              (title (article sa) +:+ " " +:+ content (article sa)) sid = None ->
            matchedKeywords sa = [] /\ relevanceScore sa = 0%Z) out.
Proof.
  cbv zeta. rewrite scoreArticles_map.
  split.
  { apply Forall_map, List.Forall_forall. intros a _.
    cbn [scoreOne engagementScore scoreBreakdown].
    split; [ reflexivity | apply strict_equal_self ]. }
  split; [ apply length_map | ].
  split; [ rewrite map_map; apply map_id | ].
  apply Forall_map, List.Forall_forall. intros a _ H.
  cbn [scoreOne article] in *. unfold scoreOne.
  cbn [matchedKeywords relevanceScore]. rewrite H. split; reflexivity.
Qed.

(** The two fields of the article of the counterexample hold NaN; those of
    the articles of the tests a number, equal to itself. *)
Example scoreArticles_strict_equality :
  map (fun sa =>
         (PrimFloat.is_nan (totalScore (scoreBreakdown sa)),
          PrimFloat.eqb (engagementScore sa) (totalScore (scoreBreakdown sa))))
    (scoreArticles registry [oppositeInfinities; fullArticle; twoMetrics]
       "test-subject" DEFAULT_WEIGHTS)
  = [(true, false); (false, true); (false, true)].
Proof. vm_compute. reflexivity. Qed.

Example scoreArticles_sample :
  map (fun sa => (id (article sa), engagementScore sa, relevanceScore sa))
    (scoreArticles registry [fullArticle; twoMetrics] "test-subject"
       DEFAULT_WEIGHTS)
  = [("test-1", 264%float, 10%Z); ("test-7", 20%float, 10%Z)].
Proof. vm_compute. reflexivity. Qed.

(** *** The explanation *)

Lemma pushIf_segment (m : option JS.number) (metricName : string)
    (weight : JS.number) (parts : list string) :
  pushIf m metricName weight (JS.orElse m 0 * weight)%float parts
  = parts ++ Spec.segment (m, metricName, weight).
Proof.
  unfold pushIf, Spec.segment, JS.orElse. destruct m as [v|].
  - destruct (JS.truthy v); [ reflexivity | symmetry; apply app_nil_r ].
  - symmetry. apply app_nil_r.
Qed.

Lemma counted_present (m : option JS.number) : Spec.counted m = JS.present m.
Proof.
  destruct m as [v|]; trivial. unfold Spec.counted, JS.present, JS.truthy.
  symmetry. apply negb_orb.
Qed.

Lemma rendered_segment (rows : list (option JS.number * string * JS.number)) :
  map Spec.rendered (List.filter (fun row => Spec.counted (fst (fst row))) rows)
  = concat (map Spec.segment rows).
Proof.
  induction rows as [|[[m metricName] weight] rows IH]; trivial.
  cbn [List.filter map concat fst]. rewrite counted_present, <- IH.
  destruct m as [v|]; cbn [JS.present Spec.segment]; trivial.
  destruct (JS.truthy v); reflexivity.
Qed.

(** C4, as stated, fails: the explanation of the code starts with
    ["Score calculation: "], which the claimed form lacks. *)
Lemma explanation_has_lead :
  let b := calculateEngagementScore twoMetrics DEFAULT_WEIGHTS in
  explanation b
  = "Score calculation: 10 upvotes x 1 = 10.0 + 5 comments x 2 = 10.0 = 20.0" /\
  Spec.explanationAs "" Spec.nonZero (engagement twoMetrics) DEFAULT_WEIGHTS
    (totalScore b)
  = "10 upvotes x 1 = 10.0 + 5 comments x 2 = 10.0 = 20.0" /\
  explanation b
  <> Spec.explanationAs "" Spec.nonZero (engagement twoMetrics) DEFAULT_WEIGHTS
       (totalScore b).
Proof.
  cbv zeta. split; [ vm_compute; reflexivity | ].
  split; [ vm_compute; reflexivity | ]. vm_compute. discriminate.
Qed.

(** The explanation lists the metrics that are truthy: present, non-zero
    and not NaN. *)
Lemma explanation_listed (a : Article) (w : ScoringWeights) :
  explanation (calculateEngagementScore a w)
  = Spec.explanationAs "Score calculation: " Spec.counted (engagement a) w
      (totalScore (calculateEngagementScore a w)).
Proof.
  unfold Spec.explanationAs.
  pose proof (rendered_segment (Spec.metrics (engagement a) w)) as Hrows.
  unfold calculateEngagementScore. cbn [explanation totalScore].
  rewrite !pushIf_segment. cbn [app].
  unfold Spec.metrics in *. cbn [map concat] in Hrows.
  rewrite app_nil_r, !app_assoc in Hrows. rewrite <- Hrows.
  destruct (List.filter _ _) as [|row rows]; reflexivity.
Qed.

(** C4, amended: for every Article and all weights, the explanation is
    exactly the literal ["No engagement metrics available"] when every metric
    is absent, zero or NaN, and otherwise is exactly ["Score calculation: "]
    followed by the list, in the fixed order upvotes, comments, shares,
    reactions, views, of only the metrics that are present, non-zero and not
    NaN, each rendered as
    ["<value> <metricName> x <weight> = <contribution to one decimal place>"],
    joined with [" + "], followed by
    [" = <totalScore to one decimal place>"]. *)
Theorem explanation_spec (a : Article) (w : ScoringWeights) :
  let b := calculateEngagementScore a w in
  (Forall (fun row => Spec.counted (fst (fst row)) = false)
     (Spec.metrics (engagement a) w) ->
   explanation b = "No engagement metrics available") /\
  explanation b
  = Spec.explanationAs "Score calculation: " Spec.counted (engagement a) w
      (totalScore b).
Proof.
  cbv zeta. split; [ | apply explanation_listed ].
  intros H. rewrite explanation_listed. unfold Spec.explanationAs.
  replace (List.filter _ _) with (@nil (option JS.number * string * JS.number));
    trivial.
  induction H as [|row rows Hrow _ IH]; trivial.
  cbn [List.filter]. rewrite Hrow. exact IH.
Qed.

(** The two tests of [engagementScorer.test.ts] without metrics: all zero,
    and none reported. *)
Example explanation_no_metrics :
  map (fun e =>
         explanation
           (calculateEngagementScore
              {| id := "test-3"; title := "Test Article";
                 url := "https://example.com"; content := "Test content";
                 source := "Test Source"; publishedAt := Some 0%Z;
                 engagement := e |} DEFAULT_WEIGHTS))
    [ {| Crawlers.upvotes := Some 0%float; Crawlers.comments := Some 0%float;
         Crawlers.shares := Some 0%float; Crawlers.reactions := Some 0%float;
         Crawlers.views := Some 0%float |};
      {| Crawlers.upvotes := None; Crawlers.comments := None;
         Crawlers.shares := None; Crawlers.reactions := None;
         Crawlers.views := None |} ]
  = ["No engagement metrics available"; "No engagement metrics available"].
Proof. vm_compute. reflexivity. Qed.

(** A NaN metric is left out of the explanation, and counts as 0. *)
Example explanation_nan_metric :
  explanation (calculateEngagementScore nanMetric DEFAULT_WEIGHTS)
  = "Score calculation: 5 comments x 2 = 10.0 = 10.0".
Proof. vm_compute. reflexivity. Qed.

End ScoreFacts.

(** ** Binary64 comparison and the sign of a difference *)

Module FloatOrder.
Import Binary64.
Local Open Scope Z_scope.

Lemma SFltb_rank (x y : spec_float) :
  x <> S754_nan -> y <> S754_nan ->
  (SFltb x y = true <-> below (rank x) (rank y)).
Proof.
  intros Hx Hy. unfold SFltb, below.
  destruct x as [sx|sx| |sx mx ex], y as [sy|sy| |sy my ey]; try congruence;
    clear Hx Hy;
    repeat match goal with s : bool |- _ => destruct s end;
    cbn [SFcompare rank fst snd];
    try change (Pos.compare_cont Eq mx my) with (Pos.compare mx my);
    try destruct (Z.compare_spec ex ey);
    try destruct (Pos.compare_spec mx my);
    cbn [CompOpp]; split; intros ?; try discriminate; try lia; trivial.
Qed.

(** *** Rounding keeps the sign *)

Lemma digits2_bounds (p : positive) :
  2 ^ (Zpos (digits2_pos p) - 1) <= Zpos p < 2 ^ Zpos (digits2_pos p).
Proof.
  induction p as [p IH|p IH|]; cbn [digits2_pos].
  - rewrite Pos2Z.inj_succ, (Pos2Z.inj_xI p).
    replace (Z.succ (Zpos (digits2_pos p)) - 1)
      with (Z.succ (Zpos (digits2_pos p) - 1)) by lia.
    rewrite !Z.pow_succ_r by lia. lia.
  - rewrite Pos2Z.inj_succ, (Pos2Z.inj_xO p).
    replace (Z.succ (Zpos (digits2_pos p)) - 1)
      with (Z.succ (Zpos (digits2_pos p) - 1)) by lia.
    rewrite !Z.pow_succ_r by lia. lia.
  - split; [ discriminate | reflexivity ].
Qed.

Lemma shr_1_m (mrs : shr_record) :
  0 <= shr_m mrs -> shr_m (shr_1 mrs) = Z.div2 (shr_m mrs).
Proof.
  destruct mrs as [m r s]. destruct m as [|[p|p|]|p]; cbn; intros; trivial; lia.
Qed.

Lemma iter_shr_m (p : positive) (mrs : shr_record) :
  0 <= shr_m mrs ->
  shr_m (SpecFloat.iter_pos shr_1 p mrs) = Z.shiftr (shr_m mrs) (Zpos p).
Proof.
  revert mrs. induction p as [p IH|p IH|]; intros mrs Hm; cbn [SpecFloat.iter_pos].
  - assert (H1 : 0 <= shr_m (shr_1 mrs))
      by (rewrite shr_1_m, Z.div2_spec; trivial; apply Z.shiftr_nonneg; trivial).
    assert (H2 : 0 <= shr_m (SpecFloat.iter_pos shr_1 p (shr_1 mrs)))
      by (rewrite IH; trivial; apply Z.shiftr_nonneg; trivial).
    rewrite IH, IH, shr_1_m, Z.div2_spec, !Z.shiftr_shiftr by lia.
    f_equal. lia.
  - assert (H2 : 0 <= shr_m (SpecFloat.iter_pos shr_1 p mrs))
      by (rewrite IH; trivial; apply Z.shiftr_nonneg; trivial).
    rewrite IH, IH, !Z.shiftr_shiftr by lia. f_equal. lia.
  - rewrite shr_1_m, Z.div2_spec; trivial.
Qed.

Lemma shr_record_of_loc_m (m : Z) (l : location) :
  shr_m (shr_record_of_loc m l) = m.
Proof. destruct l as [|[| |]]; reflexivity. Qed.

Lemma shr_fexp_pos (M E : Z) (l : location) :
  0 < M -> emin <= E ->
  0 < shr_m (fst (shr_fexp prec emax M E l)) /\
  emin <= snd (shr_fexp prec emax M E l).
Proof.
  intros HM HE. unfold shr_fexp, shr.
  destruct M as [|p|p]; try lia. cbn [Zdigits2].
  pose proof (digits2_bounds p) as [Hlo Hhi].
  set (d := Zpos (digits2_pos p)) in *.
  assert (Hd : 0 < d) by (unfold d; lia).
  destruct (fexp prec emax (d + E) - E) as [|q|q] eqn:En; cbn [fst snd];
    rewrite ?shr_record_of_loc_m; try lia.
  unfold fexp, SpecFloat.emin, prec, emax in *.
  rewrite iter_shr_m by (rewrite shr_record_of_loc_m; lia).
  rewrite shr_record_of_loc_m, Z.shiftr_div_pow2 by lia.
  split; [ | lia ].
  assert (Hq : Zpos q <= d - 1) by lia.
  assert (Hp : 2 ^ Zpos q <= 2 ^ (d - 1)) by (apply Z.pow_le_mono_r; lia).
  apply Z.div_str_pos. lia.
Qed.

Lemma round_nearest_even_pos (m : Z) (l : location) :
  0 < m -> 0 < round_nearest_even m l.
Proof.
  intros Hm. destruct l as [|[| |]]; cbn [round_nearest_even]; try lia.
  destruct (Z.even m); lia.
Qed.

Lemma binary_round_aux_signed (s : bool) (M E : Z) :
  0 < M -> emin <= E ->
  signed s (binary_round_aux prec emax s M E loc_Exact).
Proof.
  intros HM HE. unfold binary_round_aux.
  pose proof (shr_fexp_pos M E loc_Exact HM HE) as [H1 H1e].
  destruct (shr_fexp prec emax M E loc_Exact) as [mrs1 e1]. cbn [fst snd] in *.
  pose proof (round_nearest_even_pos _ (loc_of_shr_record mrs1) H1) as H2.
  pose proof (shr_fexp_pos _ e1 loc_Exact H2 H1e) as [H3 _].
  destruct (shr_fexp prec emax _ e1 loc_Exact) as [mrs2 e2]. cbn [fst snd] in *.
  destruct (shr_m mrs2) as [|m2|m2]; try lia.
  destruct (e2 <=? emax - prec); [ left; eauto | right; trivial ].
Qed.

Lemma binary_round_signed (s : bool) (m : positive) (e : Z) :
  emin <= e -> signed s (binary_round prec emax s m e).
Proof.
  intros He. unfold binary_round.
  destruct (shl_align m e _) as [mz ez] eqn:Ea.
  apply binary_round_aux_signed; [ lia | ].
  unfold shl_align in Ea.
  destruct (fexp prec emax (Zpos (digits2_pos m) + e) - e) eqn:En;
    inversion Ea; subst; trivial.
  unfold fexp, SpecFloat.emin, prec, emax in *. lia.
Qed.

(** *** Valid finite values are canonical *)

Lemma valid_finite (s : bool) (m : positive) (e : Z) :
  valid_binary (S754_finite s m e) = true ->
  emin <= e /\ Zpos m < 2 ^ 53 /\ (e = emin \/ 2 ^ 52 <= Zpos m).
Proof.
  cbn [SpecFloat.valid_binary]. unfold bounded, canonical_mantissa.
  intros H. apply andb_true_iff in H. destruct H as [H _].
  apply Z.eqb_eq in H.
  pose proof (digits2_bounds m) as [Hlo Hhi].
  set (d := Zpos (digits2_pos m)) in *.
  assert (Hd : 0 < d) by (unfold d; lia).
  unfold fexp, SpecFloat.emin, prec, emax in *.
  assert (Hd53 : d <= 53) by lia.
  assert (Hp : 2 ^ d <= 2 ^ 53) by (apply Z.pow_le_mono_r; lia).
  split; [ lia | ]. split; [ lia | ].
  destruct (Z.eq_dec e (3 - 1024 - 53)) as [He|He]; [ left; trivial | right ].
  assert (Hd' : d = 53) by lia. rewrite Hd' in Hlo. exact Hlo.
Qed.

Lemma iter_xO (m d : positive) :
  Zpos (Pos.iter xO m d) = Zpos m * 2 ^ Zpos d.
Proof.
  induction d as [|d IH] using Pos.peano_ind.
  - cbn [Pos.iter]. rewrite Pos2Z.inj_xO. lia.
  - rewrite Pos.iter_succ, Pos2Z.inj_xO, IH, Pos2Z.inj_succ, Z.pow_succ_r by lia.
    lia.
Qed.

Lemma shl_align_value (m : positive) (e ez : Z) :
  ez <= e -> Zpos (fst (shl_align m e ez)) = Zpos m * 2 ^ (e - ez).
Proof.
  intros H. unfold shl_align.
  destruct (ez - e) as [|d|d] eqn:E; cbn [fst]; try lia.
  - replace (e - ez) with 0 by lia. lia.
  - rewrite iter_xO. f_equal. f_equal. lia.
Qed.

(** The aligned mantissas of two valid finite values compare as the
    values do. *)
Lemma aligned_compare (mx my : positive) (ex ey : Z) :
  valid_binary (S754_finite false mx ex) = true ->
  valid_binary (S754_finite false my ey) = true ->
  let ez := Z.min ey ex in
  let vx := Zpos (fst (shl_align mx ex ez)) in
  let vy := Zpos (fst (shl_align my ey ez)) in
  0 < vx /\ 0 < vy /\
  (vy < vx <-> ey < ex \/ (ey = ex /\ Zpos my < Zpos mx)) /\
  (vx < vy <-> ex < ey \/ (ex = ey /\ Zpos mx < Zpos my)).
Proof.
  intros Hx Hy ez vx vy.
  apply valid_finite in Hx, Hy.
  destruct Hx as [Hex [Hmx Hnx]], Hy as [Hey [Hmy Hny]].
  unfold vx, vy, ez. rewrite !shl_align_value by lia.
  unfold SpecFloat.emin, prec, emax in *.
  split; [ lia | ]. split; [ lia | ].
  assert (H53 : 2 ^ 53 = 2 * 2 ^ 52) by reflexivity.
  destruct (Z.lt_total ey ex) as [Hlt|[Heq|Hgt]].
  - rewrite Z.min_l by lia. replace (ey - ey) with 0 by lia.
    assert (Hp : 2 ^ 1 <= 2 ^ (ex - ey)) by (apply Z.pow_le_mono_r; lia).
    change (2 ^ 1) with 2 in Hp. change (2 ^ 0) with 1.
    assert (2 ^ 52 <= Zpos mx) by lia. split; split; intros; nia.
  - subst ey. rewrite Z.min_l by lia. replace (ex - ex) with 0 by lia.
    change (2 ^ 0) with 1. split; split; intros; lia.
  - rewrite Z.min_r by lia. replace (ex - ex) with 0 by lia.
    assert (Hp : 2 ^ 1 <= 2 ^ (ey - ex)) by (apply Z.pow_le_mono_r; lia).
    change (2 ^ 1) with 2 in Hp. change (2 ^ 0) with 1.
    assert (2 ^ 52 <= Zpos my) by lia. split; split; intros; nia.
Qed.

(** *** The sign of a difference *)

Lemma signed_tests (s : bool) (f : spec_float) :
  signed s f ->
  SFltb f (S754_zero false) = s /\ SFltb (S754_zero false) f = negb s.
Proof.
  intros [[m [e ->]]| ->]; destruct s; split; reflexivity.
Qed.

Lemma SFsub_finite_sign (sx sy : bool) (mx my : positive) (ex ey : Z) :
  valid_binary (S754_finite sx mx ex) = true ->
  valid_binary (S754_finite sy my ey) = true ->
  let x := S754_finite sx mx ex in
  let y := S754_finite sy my ey in
  (SFltb (SF64sub y x) (S754_zero false) = true <-> below (rank y) (rank x)) /\
  (SFltb (S754_zero false) (SF64sub y x) = true <-> below (rank x) (rank y)).
Proof.
  intros Hx Hy x y.
  pose proof (aligned_compare mx my ex ey Hx Hy) as Hc. cbv zeta in Hc.
  destruct Hc as [Hvx [Hvy [Hlt Hgt]]].
  pose proof (valid_finite _ _ _ Hx) as [Hex _].
  pose proof (valid_finite _ _ _ Hy) as [Hey _].
  unfold SF64sub, x, y. cbn [SFsub].
  set (vx := Zpos (fst (shl_align mx ex (Z.min ey ex)))) in *.
  set (vy := Zpos (fst (shl_align my ey (Z.min ey ex)))) in *.
  set (d := cond_Zopp sy vy - cond_Zopp sx vx).
  assert (Hez : emin <= Z.min ey ex) by lia.
  assert (Hd : d = cond_Zopp sy vy - cond_Zopp sx vx) by reflexivity.
  clearbody d vx vy.
  unfold binary_normalize.
  destruct d as [|p|p].
  - cbn [SFltb SFcompare]. unfold below.
    destruct sx, sy; cbn [rank fst snd cond_Zopp] in *;
      split; split; intros; try discriminate; lia.
  - destruct (signed_tests false _ (binary_round_signed false p _ Hez)) as [-> ->].
    unfold below.
    destruct sx, sy; cbn [rank fst snd cond_Zopp negb] in *;
      split; split; intros; try discriminate; trivial; lia.
  - destruct (signed_tests true _ (binary_round_signed true p _ Hez)) as [-> ->].
    unfold below.
    destruct sx, sy; cbn [rank fst snd cond_Zopp negb] in *;
      split; split; intros; try discriminate; trivial; lia.
Qed.

Lemma SFsub_sign (x y : spec_float) :
  valid_binary x = true -> valid_binary y = true ->
  x <> S754_nan -> y <> S754_nan ->
  (SFltb (SF64sub y x) (S754_zero false) = true <-> below (rank y) (rank x)) /\
  (SFltb (S754_zero false) (SF64sub y x) = true <-> below (rank x) (rank y)).
Proof.
  intros Vx Vy Hx Hy.
  destruct x as [sx|sx| |sx mx ex], y as [sy|sy| |sy my ey]; try congruence;
    try (apply SFsub_finite_sign; assumption);
    clear Vx Vy Hx Hy; unfold below;
    repeat match goal with s : bool |- _ => destruct s end;
    cbn [SF64sub SFsub SFltb SFcompare rank fst snd negb];
    split; split; intros; try discriminate; trivial; lia.
Qed.

(** *** The primitive operations *)

Local Open Scope float_scope.

Lemma Prim2SF_number (x : float) : is_nan x = false -> Prim2SF x <> S754_nan.
Proof.
  unfold Prim2SF. intros ->.
  destruct (is_zero x); [ discriminate | ].
  destruct (is_infinity x); [ discriminate | ].
  destruct (Z.frexp x) as [r e].
  destruct (shr_fexp _ _ _ _ _) as [mrs e'].
  destruct (shr_m mrs); discriminate.
Qed.

Lemma ltb_key (x y : float) :
  is_nan x = false -> is_nan y = false ->
  ((x <? y) = true <-> below (key x) (key y)).
Proof.
  intros Hx Hy. rewrite FloatAxioms.ltb_spec.
  apply SFltb_rank; apply Prim2SF_number; assumption.
Qed.

Lemma leb_key (x y : float) :
  is_nan x = false -> is_nan y = false ->
  ((x <=? y) = true <-> ~ below (key y) (key x)).
Proof.
  intros Hx Hy. rewrite FloatAxioms.leb_spec. unfold key.
  apply Prim2SF_number in Hx, Hy.
  destruct (Prim2SF x) as [sx|sx| |sx mx ex], (Prim2SF y) as [sy|sy| |sy my ey];
    try congruence; clear Hx Hy; unfold SFleb, below;
    repeat match goal with s : bool |- _ => destruct s end;
    cbn [SFcompare rank fst snd];
    try change (Pos.compare_cont Eq mx my) with (Pos.compare mx my);
    try destruct (Z.compare_spec ex ey);
    try destruct (Pos.compare_spec mx my);
    cbn [CompOpp]; split; intros ?; try discriminate; try lia; trivial.
Qed.

Lemma eqb_key (x y : float) :
  is_nan x = false -> is_nan y = false ->
  ((x =? y) = true <-> ~ below (key x) (key y) /\ ~ below (key y) (key x)).
Proof.
  intros Hx Hy. rewrite FloatAxioms.eqb_spec. unfold key.
  apply Prim2SF_number in Hx, Hy.
  destruct (Prim2SF x) as [sx|sx| |sx mx ex], (Prim2SF y) as [sy|sy| |sy my ey];
    try congruence; clear Hx Hy; unfold SFeqb, below;
    repeat match goal with s : bool |- _ => destruct s end;
    cbn [SFcompare rank fst snd];
    try change (Pos.compare_cont Eq mx my) with (Pos.compare mx my);
    try destruct (Z.compare_spec ex ey);
    try destruct (Pos.compare_spec mx my);
    cbn [CompOpp]; split; intros ?; try discriminate; try lia; trivial.
Qed.

(** For numbers [x] and [y], [y - x] is negative exactly when [y < x] and
    positive exactly when [x < y]: the difference neither rounds to zero nor
    changes sign. *)
Lemma sub_sign (x y : float) :
  is_nan x = false -> is_nan y = false ->
  (y - x <? 0) = (y <? x) /\ (0 <? y - x) = (x <? y).
Proof.
  intros Hx Hy.
  pose proof (SFsub_sign (Prim2SF x) (Prim2SF y) (Prim2SF_valid x)
                (Prim2SF_valid y) (Prim2SF_number x Hx) (Prim2SF_number y Hy))
    as [Hneg Hpos].
  rewrite <- FloatAxioms.sub_spec in Hneg, Hpos.
  change (S754_zero false) with (Prim2SF 0) in Hneg, Hpos.
  rewrite <- !FloatAxioms.ltb_spec in Hneg, Hpos.
  rewrite <- (ltb_key y x) in Hneg by assumption.
  rewrite <- (ltb_key x y) in Hpos by assumption.
  split; apply eq_true_iff_eq; assumption.
Qed.

End FloatOrder.

(** ** Array.prototype.sort with a consistent comparison function

    ECMAScript calls [comparefn] consistent on a set of values when
    [a =CF a], [a =CF b] gives [b =CF a], and [=CF], [<CF] and [>CF] are each
    transitive; these are the hypotheses of the section. *)

Module SortFacts.

Section Consistent.
Context {A : Type} (comparefn : A -> A -> JS.number).

(** The values being sorted, and the comparison function being consistent
    on them. *)
Variable V : A -> Prop.

Local Notation "'SC'" := (JS.SortCompare comparefn).

Hypothesis refl : forall a, V a -> SC a a = Eq.
Hypothesis sym : forall a b, V a -> V b -> SC a b = Eq -> SC b a = Eq.
Hypothesis eq_trans :
  forall a b c, V a -> V b -> V c -> SC a b = Eq -> SC b c = Eq -> SC a c = Eq.
Hypothesis lt_trans :
  forall a b c, V a -> V b -> V c -> SC a b = Lt -> SC b c = Lt -> SC a c = Lt.
Hypothesis gt_trans :
  forall a b c, V a -> V b -> V c -> SC a b = Gt -> SC b c = Gt -> SC a c = Gt.

Local Notation "'inOrder'" := (JS.mayPrecede comparefn).
Local Notation "'tied'" := (JS.tied comparefn).

Lemma tied_spec a b : tied a b = true <-> SC a b = Eq.
Proof.
  unfold JS.tied. destruct (SC a b); split; congruence.
Qed.

Lemma gt_flip a b : V a -> V b -> SC a b = Gt -> SC b a = Lt.
Proof.
  intros Ha Hb Hab. destruct (SC b a) eqn:Hba; trivial.
  - apply sym in Hba; trivial. congruence.
  - pose proof (gt_trans a b a Ha Hb Ha Hab Hba) as H.
    rewrite refl in H; trivial. discriminate.
Qed.

Lemma lt_flip a b : V a -> V b -> SC a b = Lt -> SC b a = Gt.
Proof.
  intros Ha Hb Hab. destruct (SC b a) eqn:Hba; trivial.
  - apply sym in Hba; trivial. congruence.
  - pose proof (lt_trans a b a Ha Hb Ha Hab Hba) as H.
    rewrite refl in H; trivial. discriminate.
Qed.

Lemma inOrder_trans a b c :
  V a -> V b -> V c -> inOrder a b -> inOrder b c -> inOrder a c.
Proof.
  unfold JS.mayPrecede. intros Ha Hb Hc Hab Hbc Hac.
  pose proof (gt_flip a c Ha Hc Hac) as Hca.
  destruct (SC a b) eqn:Eab; [ | | congruence ];
    destruct (SC b c) eqn:Ebc; try congruence.
  - rewrite (eq_trans a b c) in Hac; trivial. discriminate.
  - pose proof (lt_trans b c a Hb Hc Ha Ebc Hca) as Hba.
    apply sym in Eab; trivial. congruence.
  - pose proof (lt_trans c a b Hc Ha Hb Hca Eab) as Hcb.
    apply sym in Ebc; trivial. congruence.
  - rewrite (lt_trans a b c) in Hac; trivial. discriminate.
Qed.

Lemma insert_perm x l : Permutation (JS.insert comparefn x l) (x :: l).
Proof.
  induction l as [|y rest IH]; simpl.
  - apply Permutation_refl.
  - destruct (SC x y); try apply Permutation_refl.
    eapply Permutation_trans; [ apply perm_skip, IH | apply perm_swap ].
Qed.

Lemma sort_perm l : Permutation (JS.sort comparefn l) l.
Proof.
  induction l as [|x rest IH]; simpl.
  - apply perm_nil.
  - eapply Permutation_trans; [ apply insert_perm | apply perm_skip, IH ].
Qed.

Lemma sort_values l : Forall V l -> Forall V (JS.sort comparefn l).
Proof.
  intros H. eapply Permutation_Forall; [ | exact H ].
  apply Permutation_sym, sort_perm.
Qed.

Lemma insert_sorted x l :
  V x -> Forall V l -> StronglySorted inOrder l ->
  StronglySorted inOrder (JS.insert comparefn x l).
Proof.
  intros Hx. induction l as [|y rest IH]; intros Hl Hs; simpl.
  - constructor; constructor.
  - inversion Hl as [|? ? Hy Hrest]; subst.
    inversion Hs as [|? ? Hs' Hall]; subst.
    destruct (SC x y) eqn:Exy.
    + constructor; trivial. constructor; [ unfold JS.mayPrecede; congruence | ].
      rewrite Forall_forall in *. intros z Hz.
      apply (inOrder_trans x y z); auto. unfold JS.mayPrecede; congruence.
    + constructor; trivial. constructor; [ unfold JS.mayPrecede; congruence | ].
      rewrite Forall_forall in *. intros z Hz.
      apply (inOrder_trans x y z); auto. unfold JS.mayPrecede; congruence.
    + constructor; [ apply IH; trivial | ].
      eapply Permutation_Forall;
        [ apply Permutation_sym, insert_perm | ].
      constructor; trivial.
      unfold JS.mayPrecede. rewrite (gt_flip x y); trivial. discriminate.
Qed.

Lemma sort_sorted l :
  Forall V l -> StronglySorted inOrder (JS.sort comparefn l).
Proof.
  induction l as [|x rest IH]; intros Hl; simpl.
  - constructor.
  - inversion Hl; subst. apply insert_sorted; auto using sort_values.
Qed.

(** Stability: the entries that compare equal to [a] keep their order. *)
Lemma insert_stable a x l :
  V a -> V x -> Forall V l ->
  List.filter (tied a) (JS.insert comparefn x l)
  = List.filter (tied a) (x :: l).
Proof.
  intros Ha Hx. induction l as [|y rest IH]; intros Hl; trivial.
  inversion Hl as [|? ? Hy Hrest]; subst.
  cbn [JS.insert]. destruct (SC x y) eqn:Exy; trivial.
  cbn [List.filter] in *. rewrite (IH Hrest).
  destruct (tied a x) eqn:Tx, (tied a y) eqn:Ty; trivial.
  apply tied_spec in Tx, Ty.
  apply sym in Tx; trivial.
  rewrite (eq_trans x a y) in Exy; trivial. discriminate.
Qed.

Lemma sort_stable a l :
  V a -> Forall V l ->
  List.filter (tied a) (JS.sort comparefn l) = List.filter (tied a) l.
Proof.
  intros Ha. induction l as [|x rest IH]; intros Hl; trivial.
  inversion Hl; subst. cbn [JS.sort].
  rewrite insert_stable; auto using sort_values.
  cbn [List.filter]. rewrite IH; trivial.
Qed.

End Consistent.

Section Sorted.
Context {A : Type} (comparefn : A -> A -> JS.number).

(** A list in which no entry has to follow a later one is left as it is. *)
Lemma sort_fixed l :
  StronglySorted (JS.mayPrecede comparefn) l -> JS.sort comparefn l = l.
Proof.
  induction 1 as [|x l Hs IH Hall]; trivial.
  cbn [JS.sort]. rewrite IH. destruct l as [|y rest]; trivial.
  inversion Hall as [|? ? Hxy _]; subst. unfold JS.mayPrecede in Hxy.
  cbn [JS.insert]. destruct (JS.SortCompare comparefn x y); congruence.
Qed.

Lemma firstn_sorted n l :
  StronglySorted (JS.mayPrecede comparefn) l ->
  StronglySorted (JS.mayPrecede comparefn) (firstn n l).
Proof.
  intros Hs. revert n. induction Hs as [|x l Hs IH Hall]; intros [|n]; simpl;
    try constructor; auto.
  apply Forall_take, Hall.
Qed.

(** A relation that holds between the values of a sorted list may replace
    the order. *)
Lemma sorted_on (V : A -> Prop) (R1 R2 : A -> A -> Prop) (l : list A) :
  (forall a b, V a -> V b -> R1 a b -> R2 a b) ->
  Forall V l -> StronglySorted R1 l -> StronglySorted R2 l.
Proof.
  intros HR HV Hs. induction Hs as [|x l Hs IH Hall]; [ constructor | ].
  inversion HV as [|? ? Hx Hl]; subst. constructor; [ apply IH, Hl | ].
  rewrite List.Forall_forall in *. intros b Hb. apply HR; auto.
Qed.

End Sorted.

End SortFacts.

(** ** Ranking: getTopArticles *)

Module RankingFacts.
Import Crawlers EngagementScorer Samples.

Lemma firstn_min {A : Type} (n : nat) (l : list A) :
  firstn (Nat.min n (length l)) l = firstn n l.
Proof.
  destruct (Nat.le_ge_cases n (length l)) as [H|H].
  - rewrite Nat.min_l; trivial.
  - rewrite Nat.min_r, firstn_all, firstn_all2; trivial.
Qed.

(** [l.slice(0, end)] for [end >= 0] *)
Lemma slice_prefix {A : Type} (l : list A) (e : Z) :
  (0 <= e)%Z -> JS.slice l 0 e = firstn (Z.to_nat e) l.
Proof.
  intros He. unfold JS.slice.
  destruct (0 <? 0)%Z eqn:E0; [ discriminate | ].
  destruct (e <? 0)%Z eqn:E1; [ apply Z.ltb_lt in E1; lia | ].
  replace (Z.to_nat (Z.min 0 (Z.of_nat (length l)))) with O by lia.
  cbn [skipn]. rewrite <- (firstn_min (Z.to_nat e)). f_equal. lia.
Qed.

(** [l.slice(0, end)] for [end < 0] drops the last [-end] entries. *)
Lemma slice_negative {A : Type} (l : list A) (e : Z) :
  (e < 0)%Z -> JS.slice l 0 e = firstn (length l - Z.to_nat (- e)) l.
Proof.
  intros He. unfold JS.slice.
  destruct (0 <? 0)%Z eqn:E0; [ discriminate | ].
  destruct (e <? 0)%Z eqn:E1; [ | apply Z.ltb_ge in E1; lia ].
  replace (Z.to_nat (Z.min 0 (Z.of_nat (length l)))) with O by lia.
  cbn [skipn]. f_equal. lia.
Qed.

(** *** The comparison function is consistent on the scored articles *)

Import FloatOrder Binary64.

Lemma ltb_false_key (x y : float) :
  is_nan x = false -> is_nan y = false ->
  ((x <? y)%float = false <-> ~ below (key x) (key y)).
Proof.
  intros Hx Hy. rewrite <- (ltb_key x y Hx Hy).
  destruct (x <? y)%float; split; congruence.
Qed.

(** On numbers the comparison function gives the sign of the comparison of
    the scores. *)
Lemma SortCompare_byScore (a b : ScoredArticle) :
  Spec.hasScore a -> Spec.hasScore b ->
  JS.SortCompare byScore a b
  = if (engagementScore b <? engagementScore a)%float then Lt
    else if (engagementScore a <? engagementScore b)%float then Gt
    else Eq.
Proof.
  intros Ha Hb. unfold JS.SortCompare, byScore.
  destruct (sub_sign (engagementScore a) (engagementScore b) Ha Hb) as [-> ->].
  reflexivity.
Qed.

(** Turns the comparisons of the context into facts on the keys. *)
Ltac on_keys :=
  unfold Spec.hasScore in *;
  repeat match goal with
         | E : (?x <? ?y)%float = true |- _ =>
             apply ltb_key in E; [ | assumption | assumption ]
         | E : (?x <? ?y)%float = false |- _ =>
             apply ltb_false_key in E; [ | assumption | assumption ]
         end;
  unfold below in *.

Ltac by_cases :=
  repeat match goal with
         | |- context [ (?x <? ?y)%float ] =>
             let E := fresh "E" in destruct (x <? y)%float eqn:E
         end;
  intros; try discriminate; try reflexivity; try (exfalso; on_keys; lia).

Lemma byScore_refl (a : ScoredArticle) :
  Spec.hasScore a -> JS.SortCompare byScore a a = Eq.
Proof. intros Ha. rewrite SortCompare_byScore by assumption. by_cases. Qed.

Lemma byScore_sym (a b : ScoredArticle) :
  Spec.hasScore a -> Spec.hasScore b ->
  JS.SortCompare byScore a b = Eq -> JS.SortCompare byScore b a = Eq.
Proof.
  intros Ha Hb. rewrite !SortCompare_byScore by assumption. by_cases.
Qed.

Lemma byScore_trans (r : comparison) (a b c : ScoredArticle) :
  Spec.hasScore a -> Spec.hasScore b -> Spec.hasScore c ->
  JS.SortCompare byScore a b = r -> JS.SortCompare byScore b c = r ->
  JS.SortCompare byScore a c = r.
Proof.
  intros Ha Hb Hc. rewrite !SortCompare_byScore by assumption.
  destruct r; by_cases.
Qed.

(** [a] may precede [b] exactly when its score is not lower. *)
Lemma mayPrecede_leb (a b : ScoredArticle) :
  Spec.hasScore a -> Spec.hasScore b ->
  (JS.mayPrecede byScore a b <->
   (engagementScore b <=? engagementScore a)%float = true).
Proof.
  intros Ha Hb. unfold JS.mayPrecede.
  rewrite SortCompare_byScore, leb_key by assumption.
  split; intros H;
    destruct (engagementScore b <? engagementScore a)%float eqn:E1;
    destruct (engagementScore a <? engagementScore b)%float eqn:E2;
    try congruence; try discriminate; on_keys; lia.
Qed.

(** [a] and [b] compare as equal exactly when their scores are equal. *)
Lemma tied_eqb (a b : ScoredArticle) :
  Spec.hasScore a -> Spec.hasScore b ->
  JS.tied byScore a b = (engagementScore b =? engagementScore a)%float.
Proof.
  intros Ha Hb. unfold JS.tied. rewrite SortCompare_byScore by assumption.
  apply eq_true_iff_eq. rewrite (eqb_key _ _ Hb Ha).
  destruct (engagementScore b <? engagementScore a)%float eqn:E1;
    destruct (engagementScore a <? engagementScore b)%float eqn:E2;
    on_keys; split; intros H; try discriminate; trivial; lia.
Qed.

Lemma sorted_descending (xs : list ScoredArticle) :
  Forall Spec.hasScore xs ->
  StronglySorted
    (fun a b => (engagementScore b <=? engagementScore a)%float = true)
    (JS.sort byScore xs).
Proof.
  intros Hxs.
  apply (SortFacts.sorted_on Spec.hasScore (JS.mayPrecede byScore)).
  - intros a b Ha Hb. apply mayPrecede_leb; assumption.
  - eapply Permutation_Forall; [ | exact Hxs ].
    apply Permutation_sym, SortFacts.sort_perm.
  - apply (SortFacts.sort_sorted byScore Spec.hasScore byScore_refl byScore_sym
             (byScore_trans Eq) (byScore_trans Lt) (byScore_trans Gt)).
    exact Hxs.
Qed.

Lemma sorted_in_order (xs : list ScoredArticle) :
  Forall Spec.hasScore xs ->
  StronglySorted (JS.mayPrecede byScore) (JS.sort byScore xs).
Proof.
  apply (SortFacts.sort_sorted byScore Spec.hasScore byScore_refl byScore_sym
           (byScore_trans Eq) (byScore_trans Lt) (byScore_trans Gt)).
Qed.

Lemma sorted_stable (xs : list ScoredArticle) (a : ScoredArticle) :
  Forall Spec.hasScore xs -> Spec.hasScore a ->
  List.filter (fun b => (engagementScore b =? engagementScore a)%float)
    (JS.sort byScore xs)
  = List.filter (fun b => (engagementScore b =? engagementScore a)%float) xs.
Proof.
  intros Hxs Ha.
  assert (Hsorted : Forall Spec.hasScore (JS.sort byScore xs)).
  { eapply Permutation_Forall; [ | exact Hxs ].
    apply Permutation_sym, SortFacts.sort_perm. }
  rewrite <- (List.filter_ext_in (JS.tied byScore a)),
          <- (List.filter_ext_in (JS.tied byScore a) _ xs).
  - apply (SortFacts.sort_stable byScore Spec.hasScore byScore_sym
             (byScore_trans Eq)); assumption.
  - intros b Hb. apply tied_eqb; trivial.
    rewrite List.Forall_forall in Hxs. auto.
  - intros b Hb. apply tied_eqb; trivial.
    rewrite List.Forall_forall in Hsorted. auto.
Qed.

Lemma sort_length (xs : list ScoredArticle) :
  length (JS.sort byScore xs) = length xs.
Proof. apply Permutation_length, SortFacts.sort_perm. Qed.

(** C2, as stated, fails for a negative limit: of the three test articles
    with scores 50, 100 and 75, [getTopArticles] with limit -1 returns the
    two with the highest scores, not the empty sequence. *)
Lemma getTopArticles_negative_limit_not_empty :
  (-1 <= 0)%Z /\
  map (fun a => id (article a)) (getTopArticles threeScored (-1)) = ["2"; "3"] /\
  getTopArticles threeScored (-1) <> [].
Proof.
  split; [ lia | ]. split; [ vm_compute; reflexivity | ].
  vm_compute. discriminate.
Qed.

(** C2, amended: for every sequence of ScoredArticles and every integer
    limit, [getTopArticles] sorts the sequence and returns the first [limit]
    entries of the sorted sequence when [limit >= 0]: all of them when
    [limit] is at least the input length, none when the input is empty or
    [limit = 0]; for [limit < 0] it returns the sorted sequence without its
    last [-limit] entries.  The sorted sequence is a permutation of the
    input and, when no engagementScore is NaN, it is descending by
    engagementScore and the sort is stable: the articles of any one score
    keep their relative input order. *)
Theorem getTopArticles_spec (xs : list ScoredArticle) (limit : Z) :
  let sorted := JS.sort byScore xs in
  Permutation sorted xs /\
  (Forall Spec.hasScore xs ->
     StronglySorted
       (fun a b => (engagementScore b <=? engagementScore a)%float = true)
       sorted /\
     forall a, Spec.hasScore a ->
       List.filter (fun b => (engagementScore b =? engagementScore a)%float)
         sorted
       = List.filter (fun b => (engagementScore b =? engagementScore a)%float)
           xs) /\
  ((0 <= limit)%Z -> getTopArticles xs limit = firstn (Z.to_nat limit) sorted) /\
  ((Z.of_nat (length xs) <= limit)%Z -> getTopArticles xs limit = sorted) /\
  (xs = [] -> getTopArticles xs limit = []) /\
  (limit = 0%Z -> getTopArticles xs limit = []) /\
  ((limit < 0)%Z ->
     getTopArticles xs limit = firstn (length xs - Z.to_nat (- limit)) sorted).
Proof.
  intros sorted. unfold getTopArticles. fold sorted.
  split; [ apply SortFacts.sort_perm | ].
  split.
  { intros Hxs. split; [ apply sorted_descending, Hxs | ].
    intros a Ha. apply sorted_stable; trivial. }
  split; [ intros H; apply slice_prefix, H | ].
  split.
  { intros H. rewrite slice_prefix by lia.
    apply firstn_all2. unfold sorted. rewrite sort_length. lia. }
  split.
  { intros ->. unfold JS.slice. cbn [JS.sort length skipn].
    rewrite skipn_nil. apply firstn_nil. }
  split.
  { intros ->. rewrite slice_prefix by lia. reflexivity. }
  intros H. rewrite slice_negative by trivial.
  unfold sorted. rewrite sort_length. reflexivity.
Qed.

(** The theorem at the three test articles and limit 2. *)
Lemma getTopArticles_spec_witness :
  Forall Spec.hasScore threeScored /\
  map (fun a => id (article a)) (JS.sort byScore threeScored) = ["2"; "3"; "1"] /\
  StronglySorted
    (fun a b => (engagementScore b <=? engagementScore a)%float = true)
    (JS.sort byScore threeScored) /\
  getTopArticles threeScored 2
  = firstn (Z.to_nat 2) (JS.sort byScore threeScored).
Proof.
  split; [ repeat constructor | ].
  split; [ vm_compute; reflexivity | ].
  destruct (getTopArticles_spec threeScored 2) as [_ [Hsorted [Hfirst _]]].
  split; [ apply Hsorted; repeat constructor | apply Hfirst; lia ].
Defined.

(** With a NaN score the sort leaves a lower score before a higher one. *)
Example nan_score_unsorted :
  let xs := [createScoredArticle "1" 1%float; createScoredArticle "2" nan;
             createScoredArticle "3" 2%float] in
  map (fun a => id (article a)) (JS.sort byScore xs) = ["1"; "2"; "3"].
Proof. vm_compute. reflexivity. Qed.

(** C9, as stated, fails for a negative limit: with limit -1 each
    application drops one more entry. *)
Lemma getTopArticles_twice_negative_limit :
  map (fun a => id (article a)) (getTopArticles threeScored (-1)) = ["2"; "3"] /\
  map (fun a => id (article a))
    (getTopArticles (getTopArticles threeScored (-1)) (-1)) = ["2"] /\
  getTopArticles (getTopArticles threeScored (-1)) (-1)
  <> getTopArticles threeScored (-1).
Proof.
  split; [ vm_compute; reflexivity | ]. split; [ vm_compute; reflexivity | ].
  vm_compute. discriminate.
Qed.

(** C9, amended: for every sequence of ScoredArticles none of whose
    engagementScores is NaN and every limit [>= 0], applying
    [getTopArticles] twice with the same limit yields the same result as
    applying it once. *)
Theorem getTopArticles_idempotent (xs : list ScoredArticle) (limit : Z) :
  Forall Spec.hasScore xs -> (0 <= limit)%Z ->
  getTopArticles (getTopArticles xs limit) limit = getTopArticles xs limit.
Proof.
  intros Hxs Hl. unfold getTopArticles.
  rewrite (slice_prefix (JS.sort byScore xs)) by trivial.
  rewrite SortFacts.sort_fixed
    by (apply SortFacts.firstn_sorted, sorted_in_order, Hxs).
  rewrite slice_prefix by trivial.
  rewrite firstn_firstn, Nat.min_id. reflexivity.
Qed.

(** The theorem at the three test articles and limit 2. *)
Lemma getTopArticles_idempotent_witness :
  Forall Spec.hasScore threeScored /\ (0 <= 2)%Z /\
  getTopArticles (getTopArticles threeScored 2) 2 = getTopArticles threeScored 2.
Proof.
  split; [ repeat constructor | ]. split; [ lia | ].
  apply (getTopArticles_idempotent threeScored 2);
    [ repeat constructor | lia ].
Defined.

(** The scenario of the specification: limit 2 on scores 50, 100, 75. *)
Example getTopArticles_scenario :
  map (fun a => id (article a)) (getTopArticles threeScored 2) = ["2"; "3"].
Proof. vm_compute. reflexivity. Qed.

End RankingFacts.

(** ** Relevance matching: matchContent *)

Module MatchFacts.
Import Subjects Spec Samples.

Lemma append_cons (c : ascii) (s t : string) :
  String c s +:+ t = String c (s +:+ t).
Proof. reflexivity. Qed.

Lemma append_empty (t : string) : "" +:+ t = t.
Proof. reflexivity. Qed.

Lemma prefix_spec (t s : string) :
  String.prefix t s = true <-> exists post, s = t +:+ post.
Proof.
  revert s. induction t as [|a t IH]; intros s.
  - destruct s; cbn [String.prefix]; split; eauto.
  - destruct s as [|b s]; cbn [String.prefix].
    + split; [ discriminate | ].
      intros [post H]. rewrite append_cons in H. discriminate.
    + destruct (ascii_dec a b) as [->|Hab].
      * rewrite IH. split; intros [post H]; exists post;
          rewrite append_cons in *; congruence.
      * split; [ discriminate | ].
        intros [post H]. rewrite append_cons in H. congruence.
Qed.

(** [s.includes(t)] holds exactly when [t] is a substring of [s]. *)
Lemma includes_spec (s t : string) :
  JS.includes s t = true <-> exists pre post, s = pre +:+ t +:+ post.
Proof.
  induction s as [|c s IH]; cbn [JS.includes].
  - destruct (String.prefix t "") eqn:E.
    + split; trivial. intros _. exists "". apply prefix_spec, E.
    + split; [ discriminate | ]. intros [pre [post H]].
      destruct pre; [ | rewrite append_cons in H; discriminate ].
      assert (String.prefix t "" = true) by (apply prefix_spec; eauto).
      congruence.
  - destruct (String.prefix t (String c s)) eqn:E.
    + split; trivial. intros _. exists "". apply prefix_spec, E.
    + rewrite IH. split.
      * intros [pre [post H]]. exists (String c pre), post.
        rewrite append_cons. congruence.
      * intros [pre [post H]]. destruct pre as [|d pre].
        -- assert (String.prefix t (String c s) = true)
             by (apply prefix_spec; eauto).
           congruence.
        -- exists pre, post. rewrite append_cons in H. congruence.
Qed.

(** [mentions]: the case-folded term is a substring of the case-folded
    text. *)
Lemma mentions_spec (content term : string) :
  mentions content term = true <->
  exists pre post,
    JS.toLowerCase content = pre +:+ JS.toLowerCase term +:+ post.
Proof. apply includes_spec. Qed.

Lemma toLowerCase_empty (t : string) : JS.toLowerCase t = "" <-> t = "".
Proof. destruct t; simpl; split; congruence. Qed.

(** The empty text contains only the empty term. *)
Lemma mentions_empty (term : string) :
  mentions "" term = true <-> term = "".
Proof.
  unfold mentions. cbn [JS.toLowerCase JS.includes].
  rewrite <- toLowerCase_empty.
  destruct (JS.toLowerCase term); simpl; split; congruence.
Qed.

(** Either loop appends the entries the text contains, in order, and adds
    [points] for each. *)
Lemma scan_loop (content : string) (points : Z) (terms : list string)
    (st : list string * Z) :
  fold_left (scan (JS.toLowerCase content) points) terms st
  = (fst st ++ matched content terms,
     (snd st + points * Z.of_nat (length (matched content terms)))%Z).
Proof.
  revert st. induction terms as [|t terms IH]; intros [mk rs].
  - cbn. rewrite app_nil_r. f_equal. lia.
  - cbn [fold_left]. rewrite IH. unfold scan, matched, mentions.
    cbn [List.filter fst snd].
    destruct (JS.includes (JS.toLowerCase content) (JS.toLowerCase t)).
    + cbn [fst snd length]. rewrite <- app_assoc. f_equal. lia.
    + reflexivity.
Qed.

(** [matchContent] for a registered subject. *)
Lemma matchContent_registered (subjects : gmap string Subject)
    (content sid : string) (subject : Subject) :
  subjects !! sid = Some subject ->
  let hits := matched content (keywords subject)
              ++ matched content (relatedTerms subject) in
  matchContent subjects content sid
  = match hits with
    | [] => None
    | _ :: _ =>
        Some {| subjectId := sid;
                matchedKeywords := hits;
                relevanceScore :=
                  10 * Z.of_nat (length (matched content (keywords subject)))
                  + 5 * Z.of_nat (length (matched content (relatedTerms subject)))
             |}
    end.
Proof.
  intros Hreg hits. unfold matchContent. rewrite Hreg.
  rewrite !scan_loop. cbn [fst snd app]. fold hits.
  destruct hits; reflexivity.
Qed.

Lemma matched_In (content term : string) (terms : list string) :
  In term (matched content terms) <->
  In term terms /\ mentions content term = true.
Proof. apply filter_In. Qed.

Lemma matched_empty_text (terms : list string) :
  matched "" terms = [] <-> Forall (fun term => term <> "") terms.
Proof.
  induction terms as [|t terms IH]; cbn [matched List.filter].
  - split; trivial.
  - destruct (mentions "" t) eqn:E.
    + apply mentions_empty in E. split; [ discriminate | ].
      intros H. inversion H; subst. congruence.
    + fold (matched "" terms). rewrite IH. split.
      * intros H. constructor; trivial.
        intros ->. rewrite (proj2 (mentions_empty "")) in E; congruence.
      * intros H. inversion H; trivial.
Qed.

(** C5, as stated, fails: [addSubject] accepts a subject with the empty
    string as a keyword, and the empty text contains that keyword. *)
Lemma matchContent_empty_text_empty_keyword :
  registry !! "blank" = Some emptyKeywordSubject /\
  matchContent registry "" "blank"
  = Some {| subjectId := "blank";
            matchedKeywords := [""];
            relevanceScore := 10 |}.
Proof. split; vm_compute; reflexivity. Qed.

(** C5, amended: for every registered subject, [matchContent] applied to
    the empty input text returns absent exactly when none of the subject's
    keywords and related terms is the empty string. *)
Theorem matchContent_empty_text (subjects : gmap string Subject)
    (sid : string) (subject : Subject) :
  subjects !! sid = Some subject ->
  (matchContent subjects "" sid = None <->
   Forall (fun term => term <> "") (keywords subject ++ relatedTerms subject)).
Proof.
  intros Hreg. rewrite (matchContent_registered _ _ _ _ Hreg).
  rewrite Forall_app, <- !matched_empty_text.
  destruct (matched "" (keywords subject)), (matched "" (relatedTerms subject));
    cbn [app]; split; try tauto; try discriminate; intros [? ?]; discriminate.
Qed.

(** The theorem at the test subject. *)
Lemma matchContent_empty_text_witness :
  registry !! "test-subject" = Some testSubject /\
  (matchContent registry "" "test-subject" = None <->
   Forall (fun term => term <> "")
     (keywords testSubject ++ relatedTerms testSubject)).
Proof.
  split; [ vm_compute; reflexivity | ].
  apply (matchContent_empty_text registry "test-subject" testSubject).
  vm_compute; reflexivity.
Defined.

(** The test of [subjects.test.ts] for empty content, on the test subject. *)
Example matchContent_empty_text_sample :
  matchContent registry "" "test-subject" = None.
Proof. vm_compute. reflexivity. Qed.

(** C6, as stated, fails: [addSubject] accepts a subject that lists a
    related term twice; a text with that term and no keyword scores 10,
    which is 5 times the two entries, while one distinct term is matched. *)
Lemma matchContent_repeated_related_term :
  registry !! "retrieval" = Some repeatedTermSubject /\
  matched "RAG pipelines" (keywords repeatedTermSubject) = [] /\
  mentions "RAG pipelines" "rag" = true /\
  distinctMatched "RAG pipelines" (relatedTerms repeatedTermSubject) = 1%nat /\
  matchContent registry "RAG pipelines" "retrieval"
  = Some {| subjectId := "retrieval";
            matchedKeywords := ["rag"; "rag"];
            relevanceScore := 10 |}.
Proof. repeat split; vm_compute; reflexivity. Qed.

(** C6, amended: for every registered subject and every text that contains
    at least one related term of that subject as a case-insensitive
    substring but none of the subject's keywords, [matchContent] returns a
    match whose relevanceScore equals exactly 5 times the number of entries
    of the subject's related-term list that the text contains (an entry
    listed twice counts twice); when the list has no repeated entry this is
    5 times the number of distinct related terms matched. *)
Theorem matchContent_related_only (subjects : gmap string Subject)
    (text sid : string) (subject : Subject) :
  subjects !! sid = Some subject ->
  (forall keyword, In keyword (keywords subject) ->
     mentions text keyword = false) ->
  (exists term, In term (relatedTerms subject) /\ mentions text term = true) ->
  exists m,
    matchContent subjects text sid = Some m /\
    matchedKeywords m = matched text (relatedTerms subject) /\
    relevanceScore m
    = (5 * Z.of_nat (length (matched text (relatedTerms subject))))%Z /\
    (List.NoDup (relatedTerms subject) ->
     relevanceScore m
     = (5 * Z.of_nat (distinctMatched text (relatedTerms subject)))%Z).
Proof.
  intros Hreg Hkw [term [Hin Hterm]].
  rewrite (matchContent_registered _ _ _ _ Hreg).
  assert (Hnone : matched text (keywords subject) = []).
  { destruct (matched text (keywords subject)) as [|k ks] eqn:E; trivial.
    assert (Hk : In k (matched text (keywords subject)))
      by (rewrite E; left; trivial).
    apply matched_In in Hk. destruct Hk as [Hk1 Hk2].
    rewrite (Hkw k Hk1) in Hk2. discriminate. }
  rewrite Hnone. cbn [app length].
  assert (Hsome : In term (matched text (relatedTerms subject)))
    by (apply matched_In; auto).
  destruct (matched text (relatedTerms subject)) as [|t ts] eqn:E;
    [ destruct Hsome | ].
  eexists. split; [ reflexivity | ]. cbn [matchedKeywords relevanceScore].
  split; [ reflexivity | ]. split; [ lia | ].
  intros Hnd. unfold distinctMatched. rewrite E.
  rewrite nodup_fixed_point; [ lia | ].
  rewrite <- E. apply List.NoDup_filter, Hnd.
Qed.

(** The theorem at the README subject and a text with one related term. *)
Lemma matchContent_related_only_witness :
  exists m,
    matchContent registry "A note on Related Term 2" "your-subject-id" = Some m
    /\ relevanceScore m = 5%Z.
Proof.
  destruct (matchContent_related_only registry
              "A note on Related Term 2" "your-subject-id" yourSubject)
    as [m [Hm [_ [Hscore _]]]].
  - vm_compute; reflexivity.
  - intros keyword [<-|[<-|[]]]; vm_compute; reflexivity.
  - exists "related term 2". split; [ right; left; reflexivity | ].
    vm_compute; reflexivity.
  - exists m. split; [ exact Hm | ]. rewrite Hscore. vm_compute; reflexivity.
Defined.

(** C7: for every registered subject and every text that contains one of
    the subject's keywords as a case-insensitive substring, [matchContent]
    returns a present result whose matchedKeywords sequence contains that
    keyword, in its original case, and whose relevanceScore is at least
    10. *)
Theorem matchContent_keyword (subjects : gmap string Subject)
    (text sid : string) (subject : Subject) (keyword : string) :
  subjects !! sid = Some subject ->
  In keyword (keywords subject) ->
  mentions text keyword = true ->
  exists m,
    matchContent subjects text sid = Some m /\
    In keyword (matchedKeywords m) /\
    (10 <= relevanceScore m)%Z.
Proof.
  intros Hreg Hin Hm.
  rewrite (matchContent_registered _ _ _ _ Hreg).
  assert (Hk : In keyword (matched text (keywords subject)))
    by (apply matched_In; auto).
  destruct (matched text (keywords subject)) as [|k ks] eqn:E;
    [ destruct Hk | ].
  cbn [app]. eexists. split; [ reflexivity | ].
  cbn [matchedKeywords relevanceScore length].
  split; [ | lia ].
  apply in_or_app with (l := k :: ks). left. exact Hk.
Qed.

(** The theorem at the test subject and a text with the keyword in upper
    case. *)
Lemma matchContent_keyword_witness :
  exists m,
    matchContent registry "Unit TESTING in practice" "test-subject" = Some m /\
    In "testing" (matchedKeywords m) /\
    (10 <= relevanceScore m)%Z.
Proof.
  apply (matchContent_keyword registry "Unit TESTING in practice"
           "test-subject" testSubject "testing");
    [ vm_compute; reflexivity | right; left; reflexivity
    | vm_compute; reflexivity ].
Defined.

End MatchFacts.

(** ** Aggregation: fetchAllArticles *)

Module AggregatorFacts.
Import Crawlers Samples.

Lemma all_resolved {A : Type} (vs : list A) :
  JS.all (map JS.Resolved vs) = JS.Resolved vs.
Proof.
  induction vs as [|v vs IH]; trivial.
  cbn [map JS.all JS.andThen]. rewrite IH. reflexivity.
Qed.

Lemma pushSpread_fits {A : Type} (argumentLimit : nat) (target items : list A) :
  (length items <=? argumentLimit)%nat = true ->
  JS.pushSpread argumentLimit target items = JS.Resolved (target ++ items).
Proof. unfold JS.pushSpread. intros ->. reflexivity. Qed.

Lemma push_loop_rejected {A : Type} (argumentLimit : nat)
    (ls : list (list A)) (e : string) :
  fold_left
    (fun state l =>
       JS.andThen state (fun out => JS.pushSpread argumentLimit out l))
    ls (JS.Rejected e)
  = JS.Rejected e.
Proof. induction ls as [|l ls IH]; cbn [fold_left JS.andThen]; trivial. Qed.

(** The loop over [results]: the concatenation when every list fits the
    arguments of a call, the [RangeError] of the first that does not
    otherwise. *)
Lemma append_loop {A : Type} (argumentLimit : nat) (ls : list (list A))
    (acc : list A) :
  fold_left
    (fun state l =>
       JS.andThen state (fun out => JS.pushSpread argumentLimit out l))
    ls (JS.Resolved acc)
  = if forallb (fun l => (length l <=? argumentLimit)%nat) ls
    then JS.Resolved (acc ++ concat ls)
    else JS.Rejected "RangeError: Maximum call stack size exceeded".
Proof.
  revert acc.
  induction ls as [|l ls IH]; intros acc; cbn [fold_left concat forallb].
  - rewrite app_nil_r. reflexivity.
  - cbn [JS.andThen]. unfold JS.pushSpread at 2.
    destruct (length l <=? argumentLimit)%nat; cbn [andb].
    + rewrite IH, app_assoc. reflexivity.
    + apply push_loop_rejected.
Qed.

Lemma settled_healthy (crawlers : list Crawler) (sid : string) :
  concat (map (Spec.settled sid) crawlers) = concat (Spec.healthy crawlers sid).
Proof.
  induction crawlers as [|c cs IH]; trivial.
  cbn [map concat Spec.healthy]. unfold Spec.settled at 1.
  destruct (fetchArticles c sid); cbn [concat app]; congruence.
Qed.

Lemma settled_fits (argumentLimit : nat) (crawlers : list Crawler)
    (sid : string) :
  forallb (fun l => (length l <=? argumentLimit)%nat)
    (map (Spec.settled sid) crawlers)
  = Spec.fits argumentLimit (Spec.healthy crawlers sid).
Proof.
  unfold Spec.fits.
  induction crawlers as [|c cs IH]; trivial.
  cbn [map forallb Spec.healthy]. unfold Spec.settled at 1.
  destruct (fetchArticles c sid); cbn [forallb length Nat.leb andb];
    congruence.
Qed.

(** What [fetchAllArticles] settles to: the concatenation of the lists of
    the providers that did not fail when each of these lists fits the
    arguments of a call, a rejection otherwise. *)
Lemma fetchAllArticles_outcome (argumentLimit : nat) (crawlers : list Crawler)
    (sid : string) :
  fetchAllArticles argumentLimit crawlers sid
  = if Spec.fits argumentLimit (Spec.healthy crawlers sid)
    then JS.Resolved (concat (Spec.healthy crawlers sid))
    else JS.Rejected "RangeError: Maximum call stack size exceeded".
Proof.
  unfold fetchAllArticles.
  rewrite (map_ext _ (fun c => JS.Resolved (Spec.settled sid c))).
  - rewrite <- (map_map (Spec.settled sid) JS.Resolved), all_resolved.
    cbn [JS.andThen]. rewrite append_loop. cbn [app].
    rewrite settled_healthy, settled_fits. reflexivity.
  - intros c. unfold Spec.settled.
    destruct (fetchArticles c sid); reflexivity.
Qed.

Lemma length_concat_sum (ls : list (list Article)) :
  length (concat ls) = list_sum (map (@length Article) ls).
Proof.
  induction ls as [|l ls IH]; trivial.
  cbn [concat map list_sum]. rewrite length_app, IH. reflexivity.
Qed.

(** C3, where the code departs from it: a provider returns a list of more
    entries than the engine accepts as the arguments of a call.  The
    provider did not fail and its own [try] has been left; the
    [allArticles.push(...articles)] of the loop over the results throws, and
    [fetchAllArticles] rejects instead of returning the concatenation, the
    articles of the other provider included. *)
Theorem fetchAllArticles_large_list :
  Spec.healthy [healthyA; flooding] "agentic-ai"
  = [[fullArticle]; repeat twoMetrics (N.to_nat 200000)] /\
  fetchAllArticles argumentLimit [healthyA; flooding] "agentic-ai"
  = JS.Rejected "RangeError: Maximum call stack size exceeded" /\
  fetchAllArticles argumentLimit [healthyA; flooding] "agentic-ai"
  <> JS.Resolved (concat (Spec.healthy [healthyA; flooding] "agentic-ai")).
Proof.
  split; [ reflexivity | ].
  assert (E : fetchAllArticles argumentLimit [healthyA; flooding] "agentic-ai"
              = JS.Rejected "RangeError: Maximum call stack size exceeded")
    by (vm_compute; reflexivity).
  split; [ exact E | ]. rewrite E. discriminate.
Qed.

(** The scenario of the specification: the second of three providers
    throws. *)
Example fetchAllArticles_scenario :
  fetchAllArticles argumentLimit [healthyA; failing; healthyB] "agentic-ai"
  = JS.Resolved [fullArticle; twoMetrics; nanMetric].
Proof. vm_compute. reflexivity. Qed.

End AggregatorFacts.

(** ** The articles route *)

Module ApiFacts.
Import Crawlers Samples.





Example requestLimit_samples :
  map Api.requestLimit
    [None; Some "0"; Some "abc"; Some ""; Some "-0"; Some "5"; Some "-5";
     Some "7.9"; Some "0x10"]
  = [10; 10; 10; 10; 10; 5; -5; 7; 16]%Z.
Proof. vm_compute. reflexivity. Qed.

End ApiFacts.

(** ** The registry: getSubject, getAllSubjects, addSubject *)

Module RegistryFacts.
Import Subjects.

Section Entries.
Context {V : Type}.
Implicit Types (m : list (string * V)) (k : string) (v : V).

Lemma get_set_same m k v : JSMap.get (JSMap.set m k v) k = Some v.
Proof.
  induction m as [|[k' v'] m IH]; cbn [JSMap.set JSMap.get].
  - rewrite String.eqb_refl. reflexivity.
  - destruct (String.eqb k' k) eqn:E; cbn [JSMap.get]; rewrite E; trivial.
Qed.

Lemma get_set_other m k v k' :
  k <> k' -> JSMap.get (JSMap.set m k v) k' = JSMap.get m k'.
Proof.
  intros Hne. induction m as [|[k0 v0] m IH]; cbn [JSMap.set JSMap.get].
  - destruct (String.eqb k k') eqn:E; trivial.
    apply String.eqb_eq in E. contradiction.
  - destruct (String.eqb k0 k) eqn:E; cbn [JSMap.get].
    + apply String.eqb_eq in E. subst k0.
      destruct (String.eqb k k') eqn:E'; trivial.
      apply String.eqb_eq in E'. contradiction.
    + rewrite IH. reflexivity.
Qed.

(** A new key goes to the end. *)
Lemma set_new m k v :
  JSMap.get m k = None -> JSMap.set m k v = m ++ [(k, v)].
Proof.
  induction m as [|[k' v'] m IH]; cbn [JSMap.set JSMap.get app]; trivial.
  destruct (String.eqb k' k); [ discriminate | ].
  intros H. rewrite IH; trivial.
Qed.

(** A key that is there keeps its place. *)
Lemma set_old m k v old :
  JSMap.get m k = Some old ->
  exists before after,
    m = before ++ (k, old) :: after /\
    JSMap.get before k = None /\
    JSMap.set m k v = before ++ (k, v) :: after.
Proof.
  induction m as [|[k' v'] m IH]; cbn [JSMap.set JSMap.get]; [ discriminate | ].
  destruct (String.eqb k' k) eqn:E.
  - apply String.eqb_eq in E. subst k'. intros [= ->].
    exists [], m. auto.
  - intros H. destruct (IH H) as [before [after [Hm [Hb Hs]]]].
    exists ((k', v') :: before), after. cbn [app JSMap.get].
    rewrite E, Hs, <- Hm. auto.
Qed.

Lemma get_None m k : JSMap.get m k = None <-> ~ In k (map fst m).
Proof.
  induction m as [|[k' v'] m IH]; cbn [JSMap.get map fst In]; [ tauto | ].
  destruct (String.eqb k' k) eqn:E.
  - apply String.eqb_eq in E. split; [ discriminate | tauto ].
  - apply String.eqb_neq in E. tauto.
Qed.

Lemma get_In m k v : JSMap.get m k = Some v -> In (k, v) m.
Proof.
  induction m as [|[k' v'] m IH]; cbn [JSMap.get In]; [ discriminate | ].
  destruct (String.eqb k' k) eqn:E; auto.
  apply String.eqb_eq in E. intros [= ->]. subst. auto.
Qed.

Lemma In_get m k v :
  List.NoDup (map fst m) -> In (k, v) m -> JSMap.get m k = Some v.
Proof.
  induction m as [|[k' v'] m IH]; cbn [JSMap.get map fst In]; [ tauto | ].
  intros Hnd [[= -> ->] | Hin].
  - rewrite String.eqb_refl. reflexivity.
  - inversion Hnd as [|? ? Hk Hm]; subst.
    destruct (String.eqb k' k) eqn:E; auto.
    apply String.eqb_eq in E. subst k'. exfalso. apply Hk.
    change k with (fst (k, v)). apply in_map, Hin.
Qed.

Lemma keys_set m k v :
  map fst (JSMap.set m k v)
  = match JSMap.get m k with
    | Some _ => map fst m
    | None => map fst m ++ [k]
    end.
Proof.
  induction m as [|[k' v'] m IH]; cbn [JSMap.set JSMap.get map fst app]; trivial.
  destruct (String.eqb k' k) eqn:E; cbn [map fst].
  - reflexivity.
  - rewrite IH. destruct (JSMap.get m k); reflexivity.
Qed.

Lemma set_NoDup m k v :
  List.NoDup (map fst m) -> List.NoDup (map fst (JSMap.set m k v)).
Proof.
  intros H. rewrite keys_set. destruct (JSMap.get m k) eqn:E; trivial.
  apply get_None in E. revert H E.
  induction (map fst m) as [|x l IH]; cbn [app In]; intros Hnd Hk.
  - repeat constructor. intros [].
  - inversion Hnd as [|? ? Hx Hl]; subst. constructor; [ | apply IH; tauto ].
    rewrite in_app_iff. cbn [In]. intros [?|[?|[]]]; [ tauto | ].
    subst. tauto.
Qed.

Lemma In_set m k v k' v' :
  In (k', v') (JSMap.set m k v) -> (k' = k /\ v' = v) \/ In (k', v') m.
Proof.
  induction m as [|[k0 v0] m IH]; cbn [JSMap.set In].
  - intros [[= <- <-]|[]]. auto.
  - destruct (String.eqb k0 k) eqn:E; cbn [In].
    + apply String.eqb_eq in E. subst k0. intros [[= <- <-]|H]; auto.
    + intros [H|H]; auto. destruct (IH H); auto.
Qed.

End Entries.

(** The finite map of a registry is the one [Subjects.addSubject] builds. *)
Lemma snapshot_lookup (subjects : list (string * Subject)) (i : string) :
  Subjects.getSubject (Registry.snapshot subjects) i
  = Registry.getSubject subjects i.
Proof.
  unfold Subjects.getSubject, Registry.getSubject, Registry.snapshot.
  induction subjects as [|[k v] m IH]; cbn [JSMap.get list_to_map foldr].
  - apply lookup_empty.
  - cbn [fst snd]. destruct (String.eqb k i) eqn:E.
    + apply String.eqb_eq in E. subst. apply lookup_insert_eq.
    + apply String.eqb_neq in E. rewrite lookup_insert_ne; trivial.
Qed.

Lemma snapshot_addSubject (subjects : list (string * Subject)) (s : Subject) :
  Registry.snapshot (Registry.addSubject subjects s)
  = Subjects.addSubject (Registry.snapshot subjects) s.
Proof.
  apply map_eq. intros i.
  pose proof (snapshot_lookup (Registry.addSubject subjects s) i) as H1.
  pose proof (snapshot_lookup subjects i) as H2.
  unfold Subjects.getSubject in *. rewrite H1.
  unfold Subjects.addSubject, Registry.addSubject, Registry.getSubject in *.
  destruct (string_dec (id s) i) as [<-|Hne].
  - rewrite get_set_same, lookup_insert_eq. reflexivity.
  - rewrite get_set_other, lookup_insert_ne; auto.
Qed.

Lemma registered_snoc (added : list Subject) (s : Subject) :
  Registry.registered (added ++ [s])
  = Registry.addSubject (Registry.registered added) s.
Proof. unfold Registry.registered. apply fold_left_app. Qed.

(** What every registry built by [addSubject] satisfies: a subject is filed
    under its id, and no id is filed twice. *)
Lemma registered_invariant (added : list Subject) :
  let subjects := Registry.registered added in
  Forall (fun entry => fst entry = id (snd entry)) subjects /\
  List.NoDup (map fst subjects).
Proof.
  induction added as [|s added IH] using rev_ind.
  - split; constructor.
  - rewrite registered_snoc. destruct IH as [Hid Hnd]. split.
    + rewrite List.Forall_forall in *. intros [k v] Hin.
      apply In_set in Hin. destruct Hin as [[-> ->]|Hin]; trivial.
      apply (Hid (k, v) Hin).
    + apply set_NoDup, Hnd.
Qed.

Lemma getSubject_registered (added : list Subject) (i : string) :
  Registry.getSubject (Registry.registered added) i
  = List.find (fun s => String.eqb (id s) i) (rev added).
Proof.
  induction added as [|s added IH] using rev_ind; trivial.
  rewrite registered_snoc, rev_app_distr. cbn [rev app List.find].
  unfold Registry.getSubject, Registry.addSubject in *.
  destruct (String.eqb (id s) i) eqn:E.
  - apply String.eqb_eq in E. subst i. apply get_set_same.
  - apply String.eqb_neq in E. rewrite get_set_other; trivial.
Qed.

Lemma find_snoc {A : Type} (f : A -> bool) (l : list A) (x : A) :
  List.find f (l ++ [x])
  = match List.find f l with
    | Some y => Some y
    | None => if f x then Some x else None
    end.
Proof.
  induction l as [|y l IH]; cbn [app List.find]; trivial.
  destruct (f y); trivial.
Qed.

(** X1: the registry of the module holds the subject set when the module
    is loaded, then what the calls of [addSubject] put into it.
    [getSubject(i)] returns the subject of the last call whose subject has
    the id [i]: a later registration under an id replaces the earlier one.
    When no call had that id, it returns the subject set at the load if [i]
    is its id, and nothing otherwise.  The finite map of the registry gives
    the same answer, and the registry is the one that the calls build from
    the empty [Map], the subject of the load first. *)
Theorem getSubject_last_registered (agenticAISubject : Subject)
    (added : list Subject) (i : string) :
  let subjects := Registry.current agenticAISubject added in
  let found :=
    match List.find (fun s => String.eqb (id s) i) (rev added) with
    | Some s => Some s
    | None =>
        if String.eqb (id agenticAISubject) i then Some agenticAISubject
        else None
    end in
  Registry.getSubject subjects i = found /\
  Subjects.getSubject (Registry.snapshot subjects) i = found /\
  subjects = Registry.registered (agenticAISubject :: added).
Proof.
  intros subjects found.
  assert (Hs : subjects = Registry.registered (agenticAISubject :: added))
    by reflexivity.
  assert (H : Registry.getSubject subjects i = found).
  { rewrite Hs, getSubject_registered. cbn [rev]. rewrite find_snoc.
    reflexivity. }
  rewrite snapshot_lookup. auto.
Qed.

(** The subject of the load is found under its id as long as no call
    replaces it. *)
Example getSubject_loaded (agenticAISubject : Subject) :
  Registry.getSubject (Registry.current agenticAISubject [])
    (id agenticAISubject)
  = Some agenticAISubject.
Proof.
  unfold Registry.current, Registry.loaded, Registry.getSubject.
  cbn [fold_left]. apply get_set_same.
Qed.

(** X2: [addSubject] with an id that is not registered puts the subject at
    the end of what [getAllSubjects] lists; with an id that is registered it
    replaces the subject listed under that id where it stands, so the
    listing keeps its length and the order of first registration. *)
Theorem getAllSubjects_addSubject (subjects : list (string * Subject))
    (s : Subject) :
  match Registry.getSubject subjects (id s) with
  | None =>
      Registry.getAllSubjects (Registry.addSubject subjects s)
      = Registry.getAllSubjects subjects ++ [s]
  | Some old =>
      exists before after,
        Registry.getAllSubjects subjects = before ++ old :: after /\
        Registry.getAllSubjects (Registry.addSubject subjects s)
        = before ++ s :: after
  end.
Proof.
  unfold Registry.getSubject, Registry.getAllSubjects, Registry.addSubject,
    JSMap.values.
  destruct (JSMap.get subjects (id s)) as [old|] eqn:E.
  - destruct (set_old subjects (id s) s old E) as [before [after [Hm [_ Hs]]]].
    exists (map snd before), (map snd after).
    rewrite Hs, Hm at 1. rewrite !map_app. auto.
  - rewrite (set_new _ _ _ E), map_app. reflexivity.
Qed.

(** X3: in a registry built by [addSubject] calls, [getAllSubjects] lists
    no two subjects with the same id, and it lists exactly the subjects
    that [getSubject] finds: a listed subject is found under its own id,
    and a subject found under an id is listed and has that id. *)
Theorem getAllSubjects_getSubject (added : list Subject) :
  let subjects := Registry.registered added in
  List.NoDup (map id (Registry.getAllSubjects subjects)) /\
  (forall s, In s (Registry.getAllSubjects subjects) ->
     Registry.getSubject subjects (id s) = Some s) /\
  (forall i s, Registry.getSubject subjects i = Some s ->
     In s (Registry.getAllSubjects subjects) /\ id s = i).
Proof.
  intros subjects.
  destruct (registered_invariant added) as [Hid Hnd]. fold subjects in Hid, Hnd.
  unfold Registry.getAllSubjects, Registry.getSubject, JSMap.values.
  rewrite List.Forall_forall in Hid.
  assert (Hkeys : map id (map snd subjects) = map fst subjects).
  { rewrite map_map. apply map_ext_in. intros e He. symmetry. auto. }
  split; [ rewrite Hkeys; exact Hnd | ]. split.
  - intros s Hs. apply in_map_iff in Hs. destruct Hs as [[k v] [<- Hin]].
    cbn [snd]. apply In_get; trivial.
    pose proof (Hid (k, v) Hin) as Hk. cbn [fst snd] in Hk.
    rewrite <- Hk. exact Hin.
  - intros i s Hget. apply get_In in Hget. split.
    + apply in_map_iff. exists (i, s). auto.
    + symmetry. apply (Hid (i, s) Hget).
Qed.

(** X4: for a registry built by [addSubject] calls, GET /api/subjects and
    GET /api/subjects/:id agree: every subject listed is served under its
    own id, every subject served under an id is listed and has that id, and
    an id gets a 404 exactly when no subject with that id is listed.  The
    articles route answers 404 for the same ids. *)
Theorem subject_routes_agree (argumentLimit : nat) (added : list Subject)
    (crawlers : list Crawlers.Crawler)
    (enrich : list Crawlers.ScoredArticle
              -> JS.promise (list Crawlers.ScoredArticle))
    (limitParam : option string) :
  let subjects := Registry.registered added in
  (forall s, In s (SubjectsApi.getSubjects subjects) ->
     SubjectsApi.getSubjectById subjects (id s) = SubjectsApi.Ok s) /\
  (forall i s, SubjectsApi.getSubjectById subjects i = SubjectsApi.Ok s ->
     In s (SubjectsApi.getSubjects subjects) /\ id s = i) /\
  (forall i,
     SubjectsApi.getSubjectById subjects i
     = SubjectsApi.NotFound "Subject not found" <->
     ~ In i (map id (SubjectsApi.getSubjects subjects))) /\
  (forall i,
     SubjectsApi.getSubjectById subjects i
     = SubjectsApi.NotFound "Subject not found" <->
     Api.getArticles argumentLimit (Registry.snapshot subjects) crawlers
       enrich i limitParam
     = Api.NotFound "Subject not found").
Proof.
  intros subjects.
  destruct (registered_invariant added) as [Hid Hnd]. fold subjects in Hid, Hnd.
  unfold SubjectsApi.getSubjects, SubjectsApi.getSubjectById,
    Registry.getAllSubjects, Registry.getSubject, JSMap.values.
  rewrite List.Forall_forall in Hid.
  assert (Hkeys : map id (map snd subjects) = map fst subjects).
  { rewrite map_map. apply map_ext_in. intros e He. symmetry. auto. }
  split; [ | split; [ | split ] ].
  - intros s Hs. apply in_map_iff in Hs. destruct Hs as [[k v] [<- Hin]].
    cbn [snd]. pose proof (Hid (k, v) Hin) as Hk. cbn [fst snd] in Hk.
    rewrite <- Hk, (In_get subjects k v Hnd Hin). reflexivity.
  - intros i s H.
    destruct (JSMap.get subjects i) as [s'|] eqn:E; [ | discriminate ].
    injection H as ->. apply get_In in E. split.
    + apply in_map_iff. exists (i, s). auto.
    + symmetry. apply (Hid (i, s) E).
  - intros i. rewrite Hkeys, <- get_None.
    destruct (JSMap.get subjects i); split; congruence.
  - intros i. unfold Api.getArticles.
    rewrite snapshot_lookup. unfold Registry.getSubject.
    destruct (JSMap.get subjects i) as [s|].
    + split; [ discriminate | ].
      destruct (Api.pipeline _ _ _ _ _ _ _); discriminate.
    + split; reflexivity.
Qed.

End RegistryFacts.

(** ** Relevance: matchContent and isRelevantToSubject *)

Module RelevanceFacts.
Import Subjects Spec Notions.

Lemma toLowerChar_idempotent (c : ascii) :
  JS.toLowerChar (JS.toLowerChar c) = JS.toLowerChar c.
Proof. destruct c as [[] [] [] [] [] [] [] []]; reflexivity. Qed.

Lemma toLowerChar_upper (c : ascii) :
  JS.toLowerChar (toUpperChar c) = JS.toLowerChar c.
Proof. destruct c as [[] [] [] [] [] [] [] []]; reflexivity. Qed.

Lemma toLowerCase_idempotent (s : string) :
  JS.toLowerCase (JS.toLowerCase s) = JS.toLowerCase s.
Proof.
  induction s as [|c s IH]; cbn [JS.toLowerCase]; trivial.
  rewrite toLowerChar_idempotent, IH. reflexivity.
Qed.

Lemma toLowerCase_upper (s : string) :
  JS.toLowerCase (toUpperCase s) = JS.toLowerCase s.
Proof.
  induction s as [|c s IH]; cbn [JS.toLowerCase toUpperCase]; trivial.
  rewrite toLowerChar_upper, IH. reflexivity.
Qed.

(** The lower-case form of a text of Latin-1 is made character by
    character. *)
Lemma toLowerCase_append (s t : string) :
  JS.toLowerCase (s +:+ t) = JS.toLowerCase s +:+ JS.toLowerCase t.
Proof.
  induction s as [|c s IH]; trivial.
  rewrite MatchFacts.append_cons. cbn [JS.toLowerCase].
  rewrite MatchFacts.append_cons, IH. reflexivity.
Qed.

Lemma append_assoc (s t u : string) : (s +:+ t) +:+ u = s +:+ (t +:+ u).
Proof.
  induction s as [|c s IH]; trivial.
  rewrite !MatchFacts.append_cons, IH. reflexivity.
Qed.

Lemma append_empty_r (s : string) : s +:+ "" = s.
Proof.
  induction s as [|c s IH]; trivial.
  rewrite MatchFacts.append_cons, IH. reflexivity.
Qed.

(** Only the case-folded text counts. *)
Lemma matchContent_folded (subjects : gmap string Subject)
    (text text' sid : string) :
  JS.toLowerCase text = JS.toLowerCase text' ->
  matchContent subjects text sid = matchContent subjects text' sid.
Proof. intros H. unfold matchContent. rewrite H. reflexivity. Qed.

(** A term that a text contains is contained in every text around it. *)
Lemma mentions_around (pre text post term : string) :
  mentions text term = true ->
  mentions (pre +:+ text +:+ post) term = true.
Proof.
  rewrite !MatchFacts.mentions_spec. intros [a [b H]].
  exists (JS.toLowerCase pre +:+ a), (b +:+ JS.toLowerCase post).
  rewrite !toLowerCase_append, H, !append_assoc. reflexivity.
Qed.

Lemma matched_grows (text text' : string) (terms : list string) :
  (forall term, mentions text term = true -> mentions text' term = true) ->
  incl (matched text terms) (matched text' terms) /\
  (length (matched text terms) <= length (matched text' terms))%nat.
Proof.
  intros H. split.
  - intros term Hin. apply MatchFacts.matched_In in Hin.
    apply MatchFacts.matched_In. destruct Hin; auto.
  - induction terms as [|t terms IH]; cbn [matched List.filter]; trivial.
    fold (matched text terms) (matched text' terms).
    destruct (mentions text t) eqn:E.
    + rewrite (H t E). cbn [length]. lia.
    + destruct (mentions text' t); cbn [length]; lia.
Qed.

(** A match is present exactly when a term of the subject is contained. *)
Lemma hits_iff (text : string) (subject : Subject) :
  matched text (keywords subject) ++ matched text (relatedTerms subject) <> []
  <-> exists term, In term (terms subject) /\ mentions text term = true.
Proof.
  unfold terms. split.
  - intros H.
    destruct (matched text (keywords subject) ++
              matched text (relatedTerms subject)) as [|t ts] eqn:E;
      [ congruence | ].
    assert (Hin : In t (matched text (keywords subject) ++
                        matched text (relatedTerms subject)))
      by (rewrite E; left; trivial).
    exists t. rewrite in_app_iff, !MatchFacts.matched_In in Hin.
    rewrite in_app_iff. tauto.
  - intros [term [Hin Hm]] E.
    assert (Hin' : In term (matched text (keywords subject) ++
                            matched text (relatedTerms subject))).
    { rewrite in_app_iff, !MatchFacts.matched_In.
      rewrite in_app_iff in Hin. tauto. }
    rewrite E in Hin'. destruct Hin'.
Qed.

Lemma matchContent_unregistered (subjects : gmap string Subject)
    (text sid : string) :
  subjects !! sid = None -> matchContent subjects text sid = None.
Proof. intros H. unfold matchContent. rewrite H. reflexivity. Qed.

(** The match of a registered subject, when there is one. *)
Lemma matchContent_Some (subjects : gmap string Subject)
    (text sid : string) (m : SubjectMatch) :
  matchContent subjects text sid = Some m ->
  exists subject,
    subjects !! sid = Some subject /\
    m = {| subjectId := sid;
           matchedKeywords :=
             matched text (keywords subject)
             ++ matched text (relatedTerms subject);
           relevanceScore :=
             10 * Z.of_nat (length (matched text (keywords subject)))
             + 5 * Z.of_nat (length (matched text (relatedTerms subject))) |}
    /\ matched text (keywords subject) ++ matched text (relatedTerms subject)
       <> [].
Proof.
  destruct (subjects !! sid) as [subject|] eqn:Hreg.
  - rewrite (MatchFacts.matchContent_registered _ _ _ _ Hreg).
    destruct (matched text (keywords subject) ++
              matched text (relatedTerms subject)) as [|t ts] eqn:E;
      [ discriminate | ].
    intros [= <-]. exists subject. rewrite E. repeat split. discriminate.
  - rewrite matchContent_unregistered by trivial. discriminate.
Qed.

Lemma matchContent_None (subjects : gmap string Subject)
    (text sid : string) (subject : Subject) :
  subjects !! sid = Some subject ->
  (matchContent subjects text sid = None <->
   matched text (keywords subject) ++ matched text (relatedTerms subject) = []).
Proof.
  intros Hreg. rewrite (MatchFacts.matchContent_registered _ _ _ _ Hreg).
  destruct (matched text (keywords subject) ++
            matched text (relatedTerms subject));
    split; congruence.
Qed.

(** A match has a positive score, so that [isRelevantToSubject] tells
    whether there is a match. *)
Lemma isRelevantToSubject_match (subjects : gmap string Subject)
    (title content sid : string) :
  isRelevantToSubject subjects title content sid
  = match matchContent subjects (title +:+ " " +:+ content) sid with
    | Some _ => true
    | None => false
    end.
Proof.
  unfold isRelevantToSubject.
  destruct (matchContent subjects (title +:+ " " +:+ content) sid) as [m|] eqn:E;
    trivial.
  apply matchContent_Some in E. destruct E as [subject [_ [-> Hne]]].
  cbn [relevanceScore]. apply Z.ltb_lt.
  destruct (matched (title +:+ " " +:+ content) (keywords subject));
    destruct (matched (title +:+ " " +:+ content) (relatedTerms subject));
    cbn [length app] in *; try congruence; lia.
Qed.

(** X5: [matchContent] is absent exactly when the subject id is not
    registered or the text contains, as a case-insensitive substring, none
    of the keywords and related terms of the subject registered under it. *)
Theorem matchContent_absent_iff (subjects : gmap string Subject)
    (text sid : string) :
  matchContent subjects text sid = None <->
  forall subject, subjects !! sid = Some subject ->
    Forall (fun term => mentions text term = false) (terms subject).
Proof.
  destruct (subjects !! sid) as [subject|] eqn:Hreg.
  - rewrite (matchContent_None _ _ _ _ Hreg). split.
    + intros H s [= <-]. apply List.Forall_forall. intros term Hin.
      destruct (mentions text term) eqn:E; trivial.
      exfalso. apply (proj2 (hits_iff text subject)); eauto.
    + intros H.
      destruct (matched text (keywords subject) ++
                matched text (relatedTerms subject)) as [|t ts] eqn:E; trivial.
      assert (Hne : matched text (keywords subject) ++
                    matched text (relatedTerms subject) <> [])
        by (rewrite E; discriminate).
      apply hits_iff in Hne. destruct Hne as [term [Hin Hm]].
      specialize (H subject eq_refl). rewrite List.Forall_forall in H.
      rewrite (H term Hin) in Hm. discriminate.
  - rewrite matchContent_unregistered by trivial.
    split; trivial. intros _ s H. discriminate.
Qed.

(** X6: [isRelevantToSubject] is true exactly when the subject id is
    registered and the title, a space and the content, put together,
    contain one of the subject's keywords or related terms as a
    case-insensitive substring; the test [relevanceScore > 0] never turns a
    match down.  In particular it is false for an id that is not
    registered. *)
Theorem isRelevantToSubject_iff (subjects : gmap string Subject)
    (title content sid : string) :
  (isRelevantToSubject subjects title content sid = true <->
   exists subject term,
     subjects !! sid = Some subject /\ In term (terms subject) /\
     mentions (title +:+ " " +:+ content) term = true) /\
  (isRelevantToSubject subjects title content sid = true <->
   matchContent subjects (title +:+ " " +:+ content) sid <> None).
Proof.
  rewrite isRelevantToSubject_match.
  set (text := title +:+ " " +:+ content).
  split.
  - destruct (matchContent subjects text sid) as [m|] eqn:E.
    + split; trivial. intros _.
      apply matchContent_Some in E. destruct E as [subject [Hreg [_ Hne]]].
      apply hits_iff in Hne. destruct Hne as [term [Hin Hm]].
      exists subject, term. auto.
    + split; [ discriminate | ]. intros [subject [term [Hreg [Hin Hm]]]].
      apply (matchContent_None _ _ _ _ Hreg) in E.
      exfalso. apply (proj2 (hits_iff text subject)); eauto.
  - destruct (matchContent subjects text sid); split; congruence.
Qed.

(** X7: a match that [matchContent] returns carries the subject id asked
    for; its matchedKeywords are the keywords the text contains followed by
    the related terms it contains, in the order of the subject's lists, and
    there is at least one; its relevanceScore is 10 for each of these
    keywords plus 5 for each of these related terms, hence between 5 and 10
    times the number of matchedKeywords. *)
Theorem matchContent_match (subjects : gmap string Subject)
    (text sid : string) (m : SubjectMatch) :
  matchContent subjects text sid = Some m ->
  exists subject,
    subjects !! sid = Some subject /\
    subjectId m = sid /\
    matchedKeywords m
    = matched text (keywords subject) ++ matched text (relatedTerms subject) /\
    matchedKeywords m <> [] /\
    relevanceScore m
    = (10 * Z.of_nat (length (matched text (keywords subject)))
       + 5 * Z.of_nat (length (matched text (relatedTerms subject))))%Z /\
    (5 * Z.of_nat (length (matchedKeywords m)) <= relevanceScore m
     <= 10 * Z.of_nat (length (matchedKeywords m)))%Z.
Proof.
  intros H. apply matchContent_Some in H.
  destruct H as [subject [Hreg [-> Hne]]].
  exists subject. cbn [subjectId matchedKeywords relevanceScore].
  repeat (split; trivial); rewrite length_app; lia.
Qed.

(** The theorem at the test subject and a text with three of its terms. *)
Lemma matchContent_match_witness :
  matchContent Samples.registry "Unit Tests and more TESTING" "test-subject"
  = Some {| subjectId := "test-subject";
            matchedKeywords := ["test"; "testing"; "unit test"];
            relevanceScore := 25 |} /\
  (5 * 3 <= 25 <= 10 * 3)%Z.
Proof.
  split; [ vm_compute; reflexivity | ].
  destruct (matchContent_match Samples.registry "Unit Tests and more TESTING"
              "test-subject"
              {| subjectId := "test-subject";
                 matchedKeywords := ["test"; "testing"; "unit test"];
                 relevanceScore := 25 |})
    as [subject [_ [_ [_ [_ [_ H]]]]]]; [ vm_compute; reflexivity | ].
  exact H.
Defined.

(** X8: [matchContent] does not depend on the case of the letters of the
    text, a text of Latin-1: the text in lower case gives the result of the
    text itself, two texts with the same lower-case form give the same
    result, and so does the text in upper case when its upper-case form is
    a text of Latin-1 (it has no micro sign, sharp s or U+00FF). *)
Theorem matchContent_case_insensitive (subjects : gmap string Subject)
    (text sid : string) :
  matchContent subjects (JS.toLowerCase text) sid
  = matchContent subjects text sid /\
  (forall other,
     JS.toLowerCase other = JS.toLowerCase text ->
     matchContent subjects other sid = matchContent subjects text sid) /\
  (upperCaseInLatin1 text = true ->
   matchContent subjects (toUpperCase text) sid
   = matchContent subjects text sid).
Proof.
  split; [ | split ].
  - apply matchContent_folded, toLowerCase_idempotent.
  - intros other H. apply matchContent_folded, H.
  - intros _. apply matchContent_folded, toLowerCase_upper.
Qed.

(** Case folding beyond ASCII: E with acute accent is U+00C9, in lower case
    U+00E9; the multiplication sign U+00D7 has no other case. *)
Example toLowerCase_latin1 :
  JS.toLowerCase ("CAF" +:+ String (ascii_of_nat 201) " 2"
                  +:+ String (ascii_of_nat 215) "2")
  = "caf" +:+ String (ascii_of_nat 233) " 2" +:+ String (ascii_of_nat 215) "2"
  /\ toUpperCase ("caf" +:+ String (ascii_of_nat 233) "")
     = "CAF" +:+ String (ascii_of_nat 201) ""
  /\ upperCaseInLatin1 ("stra" +:+ String (ascii_of_nat 223) "e") = false.
Proof. repeat split; vm_compute; reflexivity. Qed.

(** A text in upper case, mixed case and lower case. *)
Example matchContent_cases :
  toUpperCase "Unit Testing" = "UNIT TESTING" /\
  matchContent Samples.registry "UNIT TESTING" "test-subject"
  = matchContent Samples.registry "Unit Testing" "test-subject" /\
  matchContent Samples.registry "unit testing" "test-subject"
  = matchContent Samples.registry "Unit Testing" "test-subject" /\
  matchContent Samples.registry "Unit Testing" "test-subject" <> None.
Proof.
  split; [ reflexivity | ]. split; [ vm_compute; reflexivity | ].
  split; [ vm_compute; reflexivity | ]. vm_compute. discriminate.
Qed.

(** A text that has a match has one with text put around it. *)
Lemma matchContent_present_around (subjects : gmap string Subject)
    (pre text post sid : string) :
  matchContent subjects text sid <> None ->
  matchContent subjects (pre +:+ text +:+ post) sid <> None.
Proof.
  intros H Hnone.
  destruct (matchContent subjects text sid) as [m|] eqn:E; [ | congruence ].
  apply matchContent_Some in E. destruct E as [subject [Hreg [_ Hne]]].
  apply (matchContent_None _ _ _ _ Hreg) in Hnone.
  apply hits_iff in Hne. destruct Hne as [term [Hin Hm]].
  apply (proj2 (hits_iff (pre +:+ text +:+ post) subject)); trivial.
  exists term. split; [ exact Hin | apply mentions_around, Hm ].
Qed.

(** X9: for texts of Latin-1, whose lower-case form is made character by
    character, text added before and after a text never loses a match: when
    [matchContent] finds a match in a text, it finds one in every text that
    contains it, with every matched keyword of the first among its
    matchedKeywords and with a relevanceScore that is not lower. *)
Theorem matchContent_monotone (subjects : gmap string Subject)
    (pre text post sid : string) (m : SubjectMatch) :
  matchContent subjects text sid = Some m ->
  exists m',
    matchContent subjects (pre +:+ text +:+ post) sid = Some m' /\
    incl (matchedKeywords m) (matchedKeywords m') /\
    (relevanceScore m <= relevanceScore m')%Z.
Proof.
  intros H. apply matchContent_Some in H.
  destruct H as [subject [Hreg [-> Hne]]].
  set (text' := pre +:+ text +:+ post).
  assert (Hm : forall term,
             mentions text term = true -> mentions text' term = true)
    by (intros term; apply mentions_around).
  destruct (matched_grows text text' (keywords subject) Hm) as [Hk1 Hk2].
  destruct (matched_grows text text' (relatedTerms subject) Hm) as [Hr1 Hr2].
  rewrite (MatchFacts.matchContent_registered _ _ _ _ Hreg).
  destruct (matched text' (keywords subject) ++
            matched text' (relatedTerms subject)) as [|t ts] eqn:E.
  - exfalso. apply Hne. apply app_eq_nil in E. destruct E as [E1 E2].
    rewrite E1 in Hk2. rewrite E2 in Hr2. cbn [length] in *.
    destruct (matched text (keywords subject)),
             (matched text (relatedTerms subject));
      cbn [length] in *; trivial; lia.
  - eexists. split; [ reflexivity | ].
    cbn [matchedKeywords relevanceScore]. split; [ | lia ].
    rewrite <- E. apply incl_app;
      [ apply incl_appl, Hk1 | apply incl_appr, Hr1 ].
Qed.

(** The theorem at the test subject: ["testing"] inside a sentence. *)
Lemma matchContent_monotone_witness :
  exists m',
    matchContent Samples.registry "About testing today" "test-subject"
    = Some m' /\
    (20 <= relevanceScore m')%Z.
Proof.
  destruct (matchContent_monotone Samples.registry "About " "testing" " today"
              "test-subject"
              {| subjectId := "test-subject";
                 matchedKeywords := ["test"; "testing"];
                 relevanceScore := 20 |})
    as [m' [H [_ Hs]]]; [ vm_compute; reflexivity | ].
  exists m'. split; [ exact H | exact Hs ].
Defined.

(** X10: an article whose title and content are texts of Latin-1 is
    relevant as soon as its title alone, or its content alone, matches the
    subject. *)
Theorem isRelevantToSubject_title_or_content (subjects : gmap string Subject)
    (title content sid : string) :
  matchContent subjects title sid <> None \/
  matchContent subjects content sid <> None ->
  isRelevantToSubject subjects title content sid = true.
Proof.
  intros H.
  assert (Hpresent : matchContent subjects (title +:+ " " +:+ content) sid
                     <> None).
  { destruct H as [H|H].
    - apply (matchContent_present_around subjects "" title (" " +:+ content))
        in H.
      exact H.
    - apply (matchContent_present_around subjects (title +:+ " ") content "")
        in H.
      rewrite append_assoc, append_empty_r in H. exact H. }
  rewrite isRelevantToSubject_match.
  destruct (matchContent subjects (title +:+ " " +:+ content) sid);
    congruence.
Qed.

(** The theorem at the test subject and a title that matches it. *)
Lemma isRelevantToSubject_title_or_content_witness :
  isRelevantToSubject Samples.registry "Unit testing" "Nothing else"
    "test-subject" = true.
Proof.
  apply (isRelevantToSubject_title_or_content Samples.registry "Unit testing"
           "Nothing else" "test-subject").
  left. vm_compute. discriminate.
Defined.

(** A keyword may lie across the title and the content: neither matches
    alone, the article is relevant. *)
Example isRelevantToSubject_across :
  let subjects :=
    Subjects.addSubject ∅
      {| id := "agentic-ai"; name := "Agentic AI"; description := "";
         keywords := ["agentic ai"]; relatedTerms := [] |} in
  matchContent subjects "Going agentic" "agentic-ai" = None /\
  matchContent subjects "AI at work" "agentic-ai" = None /\
  isRelevantToSubject subjects "Going agentic" "AI at work" "agentic-ai" = true.
Proof. repeat split; vm_compute; reflexivity. Qed.

End RelevanceFacts.

(** ** The engagement score: sign and zero *)

Module EngagementFacts.
Import Crawlers EngagementScorer Notions FloatOrder Binary64 Sign.

(** *** Rounding a non-negative mantissa *)

Local Open Scope Z_scope.

Lemma shr_fexp_nonneg (M E : Z) (l : location) :
  0 <= M -> 0 <= shr_m (fst (shr_fexp prec emax M E l)).
Proof.
  intros HM. unfold shr_fexp, shr.
  destruct (fexp prec emax (Zdigits2 M + E) - E) as [|q|q]; cbn [fst];
    rewrite ?shr_record_of_loc_m; trivial.
  rewrite iter_shr_m by (rewrite shr_record_of_loc_m; trivial).
  rewrite shr_record_of_loc_m. apply Z.shiftr_nonneg, HM.
Qed.

Lemma round_nearest_even_nonneg (m : Z) (l : location) :
  0 <= m -> 0 <= round_nearest_even m l.
Proof.
  intros Hm. destruct l as [|[| |]]; cbn [round_nearest_even]; try lia.
  destruct (Z.even m); lia.
Qed.

Lemma binary_round_aux_sign (s : bool) (M E : Z) :
  0 <= M -> signedOrZero s (binary_round_aux prec emax s M E loc_Exact).
Proof.
  intros HM. unfold binary_round_aux.
  pose proof (shr_fexp_nonneg M E loc_Exact HM) as H1.
  destruct (shr_fexp prec emax M E loc_Exact) as [mrs1 e1]. cbn [fst] in H1.
  pose proof (round_nearest_even_nonneg _ (loc_of_shr_record mrs1) H1) as H2.
  pose proof (shr_fexp_nonneg _ e1 loc_Exact H2) as H3.
  destruct (shr_fexp prec emax _ e1 loc_Exact) as [mrs2 e2]. cbn [fst] in H3.
  destruct (shr_m mrs2) as [|m2|m2]; try lia.
  - left. reflexivity.
  - right. destruct (e2 <=? emax - prec); [ left; eauto | right; trivial ].
Qed.

Lemma binary_round_sign (s : bool) (m : positive) (e : Z) :
  signedOrZero s (binary_round prec emax s m e).
Proof.
  unfold binary_round. destruct (shl_align m e _) as [mz ez].
  apply binary_round_aux_sign. lia.
Qed.

(** *** Values that are not negative *)

Lemma signedOrZero_nonNegative (f : spec_float) :
  signedOrZero false f -> nonNegative f.
Proof. intros [->|[[m [e ->]]| ->]]; cbn; trivial. Qed.

Lemma SFmul_nonNegative (a : spec_float) (m : positive) (e : Z) :
  nonNegative a -> nonNegative (SF64mul a (S754_finite false m e)).
Proof.
  destruct a as [s|s| |s ma ea]; cbn [nonNegative]; intros H.
  - exact I.
  - subst s. reflexivity.
  - destruct H.
  - subst s. apply signedOrZero_nonNegative.
    cbn [SF64mul SFmul xorb]. apply binary_round_aux_sign. lia.
Qed.

Lemma SFadd_nonNegative (a b : spec_float) :
  nonNegative a -> nonNegative b -> nonNegative (SF64add a b).
Proof.
  destruct a as [sa|sa| |sa ma ea], b as [sb|sb| |sb mb eb];
    cbn [nonNegative]; intros Ha Hb; try tauto; subst;
    cbn [SF64add SFadd nonNegative Bool.eqb]; trivial;
    try (destruct sa, sb; exact I).
  apply signedOrZero_nonNegative. cbn [cond_Zopp].
  unfold binary_normalize.
  change (Zpos ?a + Zpos ?b) with (Zpos (a + b)).
  apply binary_round_sign.
Qed.

Lemma SFmul_zero (a b : spec_float) :
  isZero a ->
  match b with S754_zero _ | S754_finite _ _ _ => True | _ => False end ->
  isZero (SF64mul a b).
Proof.
  destruct a as [sa|sa| |sa ma ea], b as [sb|sb| |sb mb eb];
    cbn [isZero]; intros Ha Hb; try tauto; destruct sa, sb; exact I.
Qed.

Lemma SFadd_zero (a b : spec_float) :
  isZero a -> isZero b -> isZero (SF64add a b).
Proof.
  destruct a as [sa|sa| |sa ma ea], b as [sb|sb| |sb mb eb];
    cbn [isZero]; intros Ha Hb; try tauto.
  destruct sa, sb; exact I.
Qed.

Local Open Scope float_scope.

Lemma leb_nonNegative (x : float) :
  (0 <=? x) = true <-> nonNegative (Prim2SF x).
Proof.
  rewrite leb_spec. change (Prim2SF 0) with (S754_zero false).
  destruct (Prim2SF x) as [s|s| |s m e]; try destruct s;
    cbn; split; intros; trivial; try discriminate; try tauto.
Qed.

Lemma eqb_isZero (x : float) :
  (x =? 0) = true <-> isZero (Prim2SF x).
Proof.
  rewrite FloatAxioms.eqb_spec. change (Prim2SF 0) with (S754_zero false).
  destruct (Prim2SF x) as [s|s| |s m e]; try destruct s;
    cbn; split; intros; trivial; try discriminate; try tauto.
Qed.

Lemma positiveFinite_spec (w : float) :
  positiveFinite w = true -> exists m e, Prim2SF w = S754_finite false m e.
Proof.
  unfold positiveFinite. rewrite andb_true_iff, !FloatAxioms.ltb_spec.
  change (Prim2SF 0) with (S754_zero false).
  change (Prim2SF infinity) with (S754_infinity false).
  destruct (Prim2SF w) as [s|s| |s m e]; try destruct s;
    cbn; intros [H1 H2]; try discriminate; eauto.
Qed.

Lemma nonNegative_number (x : float) :
  nonNegative (Prim2SF x) -> is_nan x = false.
Proof.
  intros H. unfold is_nan. rewrite FloatAxioms.eqb_spec.
  destruct (Prim2SF x) as [s|s| |s m e] eqn:E; cbn in H; try tauto; subst;
    cbn [SFeqb SFcompare]; try reflexivity.
  rewrite Z.compare_refl, Pos.compare_cont_refl. reflexivity.
Qed.

(** What a metric counts for: itself, or 0 when it is falsy. *)
Lemma orElse_nonNegative (metric : option JS.number) :
  notNegative metric = true -> nonNegative (Prim2SF (JS.orElse metric 0)).
Proof.
  destruct metric as [v|]; cbn [notNegative JS.orElse]; [ | intros _; exact I ].
  unfold JS.truthy.
  destruct (v =? 0) eqn:E0; cbn [orb negb]; [ intros _; exact I | ].
  destruct (is_nan v) eqn:En; cbn [negb]; [ intros _; exact I | ].
  rewrite negb_true_iff, FloatAxioms.ltb_spec.
  change (Prim2SF 0) with (S754_zero false).
  pose proof (Prim2SF_number v En) as Hn.
  destruct (Prim2SF v) as [s|s| |s m e]; try destruct s;
    cbn; intros; trivial; try discriminate; congruence.
Qed.

Lemma orElse_absent (metric : option JS.number) :
  JS.present metric = false -> JS.orElse metric 0 = 0.
Proof.
  destruct metric as [v|]; cbn [JS.present JS.orElse]; trivial.
  intros ->. reflexivity.
Qed.

Lemma mul_nonNegative (x w : float) :
  nonNegative (Prim2SF x) -> positiveFinite w = true ->
  nonNegative (Prim2SF (x * w)).
Proof.
  intros Hx Hw. apply positiveFinite_spec in Hw. destruct Hw as [m [e Hw]].
  rewrite mul_spec, Hw. apply SFmul_nonNegative, Hx.
Qed.

Lemma add_nonNegative (x y : float) :
  nonNegative (Prim2SF x) -> nonNegative (Prim2SF y) ->
  nonNegative (Prim2SF (x + y)).
Proof. intros Hx Hy. rewrite add_spec. apply SFadd_nonNegative; trivial. Qed.

Lemma finite_spec (w : float) :
  is_finite w = true ->
  match Prim2SF w with S754_zero _ | S754_finite _ _ _ => True | _ => False end.
Proof.
  unfold is_finite, is_infinity, is_nan.
  rewrite !FloatAxioms.eqb_spec, abs_spec.
  change (Prim2SF infinity) with (S754_infinity false).
  destruct (Prim2SF w) as [s|s| |s m e]; try destruct s; cbn; intros H;
    trivial; try discriminate.
Qed.

Lemma mul_zero (w : float) :
  is_finite w = true -> isZero (Prim2SF (0 * w)).
Proof.
  intros Hw. rewrite mul_spec. apply SFmul_zero; [ exact I | ].
  apply finite_spec, Hw.
Qed.

Lemma add_zero (x y : float) :
  isZero (Prim2SF x) -> isZero (Prim2SF y) -> isZero (Prim2SF (x + y)).
Proof. intros Hx Hy. rewrite add_spec. apply SFadd_zero; trivial. Qed.

(** *** The score *)

Lemma Forall5 {A : Type} (P : A -> Prop) (a b c d e : A) :
  Forall P [a; b; c; d; e] <-> P a /\ P b /\ P c /\ P d /\ P e.
Proof.
  split.
  - intros H. repeat (inversion H as [|? ? ? H']; subst; clear H; rename H' into H).
    tauto.
  - intros [? [? [? [? ?]]]]. repeat constructor; assumption.
Qed.

(** X11: an article none of whose five metrics counts (each is absent,
    zero or NaN) gets, under any weights that are finite numbers, five
    contributions equal to 0 and a totalScore equal to 0. *)
Theorem totalScore_without_metrics (article : Article)
    (weights : ScoringWeights) :
  Forall (fun metric => JS.present metric = false)
    (metricsOf (engagement article)) ->
  Forall (fun w => is_finite w = true) (weightsOf weights) ->
  let r := calculateEngagementScore article weights in
  Forall (fun c => (c =? 0) = true) (contributionsOf r) /\
  (totalScore r =? 0) = true.
Proof.
  intros HM HW r. unfold metricsOf, weightsOf, contributionsOf in *.
  apply Forall5 in HM, HW.
  destruct HM as [M1 [M2 [M3 [M4 M5]]]], HW as [W1 [W2 [W3 [W4 W5]]]].
  unfold r, calculateEngagementScore.
  cbn [upvotesContribution commentsContribution sharesContribution
       reactionsContribution viewsContribution totalScore].
  rewrite !orElse_absent by assumption.
  rewrite Forall5, !eqb_isZero.
  pose proof (mul_zero _ W1). pose proof (mul_zero _ W2).
  pose proof (mul_zero _ W3). pose proof (mul_zero _ W4).
  pose proof (mul_zero _ W5).
  repeat split; trivial. repeat apply add_zero; trivial.
Qed.

(** The theorem at the test article without metrics and the default
    weights. *)
Lemma totalScore_without_metrics_witness :
  (totalScore (calculateEngagementScore Fixtures.noMetrics DEFAULT_WEIGHTS)
   =? 0) = true.
Proof.
  destruct (totalScore_without_metrics Fixtures.noMetrics DEFAULT_WEIGHTS)
    as [_ H]; [ repeat constructor | repeat constructor | exact H ].
Defined.

(** The total of an article without negative metrics. *)
Lemma total_nonNegative (article : Article) (weights : ScoringWeights) :
  Forall (fun metric => notNegative metric = true)
    (metricsOf (engagement article)) ->
  Forall (fun w => positiveFinite w = true) (weightsOf weights) ->
  nonNegative
    (Prim2SF (totalScore (calculateEngagementScore article weights))).
Proof.
  intros HM HW. unfold metricsOf, weightsOf in *.
  apply Forall5 in HM, HW.
  destruct HM as [M1 [M2 [M3 [M4 M5]]]], HW as [W1 [W2 [W3 [W4 W5]]]].
  unfold calculateEngagementScore. cbn [totalScore].
  repeat apply add_nonNegative;
    apply mul_nonNegative; trivial; apply orElse_nonNegative; trivial.
Qed.

(** X12: an article none of whose metrics is negative gets, under weights
    that are positive finite numbers (the default weights are), five
    contributions and a totalScore that are numbers not below 0: the score
    is never NaN, whatever the size of the metrics. *)
Theorem totalScore_not_negative (article : Article)
    (weights : ScoringWeights) :
  Forall (fun metric => notNegative metric = true)
    (metricsOf (engagement article)) ->
  Forall (fun w => positiveFinite w = true) (weightsOf weights) ->
  let r := calculateEngagementScore article weights in
  Forall (fun c => (0 <=? c) = true) (contributionsOf r) /\
  (0 <=? totalScore r) = true /\
  is_nan (totalScore r) = false.
Proof.
  intros HM HW r.
  pose proof (total_nonNegative article weights HM HW) as Htotal.
  fold r in Htotal.
  split; [ | split; [ apply leb_nonNegative, Htotal
                    | apply nonNegative_number, Htotal ] ].
  unfold metricsOf, weightsOf, contributionsOf in *.
  apply Forall5 in HM, HW.
  destruct HM as [M1 [M2 [M3 [M4 M5]]]], HW as [W1 [W2 [W3 [W4 W5]]]].
  unfold r, calculateEngagementScore.
  cbn [upvotesContribution commentsContribution sharesContribution
       reactionsContribution viewsContribution].
  rewrite Forall5, !leb_nonNegative.
  repeat split; apply mul_nonNegative; trivial; apply orElse_nonNegative;
    trivial.
Qed.

(** The theorem at the first test article and the default weights. *)
Lemma totalScore_not_negative_witness :
  is_nan (totalScore (calculateEngagementScore Samples.fullArticle
                        DEFAULT_WEIGHTS)) = false.
Proof.
  destruct (totalScore_not_negative Samples.fullArticle DEFAULT_WEIGHTS)
    as [_ [_ H]]; [ repeat constructor | repeat constructor | exact H ].
Defined.

End EngagementFacts.

(** ** scoreArticles and getTopArticles together *)

Module TopFacts.
Import Crawlers EngagementScorer Notions.

(** What [getTopArticles] returns is a prefix of the sorted array. *)
Lemma getTopArticles_prefix (xs : list ScoredArticle) (limit : Z) :
  exists n, getTopArticles xs limit = firstn n (JS.sort byScore xs).
Proof.
  unfold getTopArticles. destruct (Z.lt_ge_cases limit 0) as [H|H].
  - rewrite RankingFacts.slice_negative by trivial. eauto.
  - rewrite RankingFacts.slice_prefix by trivial. eauto.
Qed.

Lemma firstn_StronglySorted {A : Type} (R : A -> A -> Prop) (n : nat)
    (l : list A) :
  StronglySorted R l -> StronglySorted R (firstn n l).
Proof.
  intros Hs. revert n. induction Hs as [|x l Hs IH Hall]; intros [|n]; simpl;
    try constructor; auto.
  apply Forall_take, Hall.
Qed.

(** In a sorted list, the entries of a prefix are related to the entries
    after it. *)
Lemma sorted_split {A : Type} (R : A -> A -> Prop) (n : nat) (l : list A) :
  StronglySorted R l ->
  forall a b, In a (firstn n l) -> In b (skipn n l) -> R a b.
Proof.
  intros Hs. revert n. induction Hs as [|x l Hs IH Hall]; intros [|n] a b;
    cbn [firstn skipn In]; try tauto.
  intros [<-|Ha] Hb.
  - rewrite List.Forall_forall in Hall. apply Hall.
    rewrite <- (firstn_skipn n l). apply in_or_app. auto.
  - apply (IH n); trivial.
Qed.

(** The scored articles have a score when no metric is negative. *)
Lemma scoreArticles_hasScore (subjects : gmap string Subjects.Subject)
    (articles : list Article) (sid : string) (weights : ScoringWeights) :
  Forall (fun a => Forall (fun metric => notNegative metric = true)
                     (metricsOf (engagement a))) articles ->
  Forall (fun w => positiveFinite w = true) (weightsOf weights) ->
  Forall (fun s => Sign.nonNegative (Prim2SF (engagementScore s)))
    (scoreArticles subjects articles sid weights).
Proof.
  intros HM HW. rewrite ScoreFacts.scoreArticles_map.
  apply Forall_map. rewrite List.Forall_forall in HM.
  apply List.Forall_forall. intros a Ha.
  cbn [scoreOne engagementScore].
  apply EngagementFacts.total_nonNegative; auto.
Qed.

(** X13: the articles [getTopArticles] returns are the highest scored:
    together with the articles it leaves out they are the articles given,
    and, when no engagementScore is NaN, no article left out has a higher
    engagementScore than an article returned.  This holds for every limit,
    a negative one included. *)
Theorem getTopArticles_highest (xs : list ScoredArticle) (limit : Z) :
  exists rest,
    Permutation (getTopArticles xs limit ++ rest) xs /\
    (Forall Spec.hasScore xs ->
     forall a b, In a (getTopArticles xs limit) -> In b rest ->
       (engagementScore b <=? engagementScore a)%float = true).
Proof.
  destruct (getTopArticles_prefix xs limit) as [n ->].
  exists (skipn n (JS.sort byScore xs)). split.
  - rewrite firstn_skipn. apply SortFacts.sort_perm.
  - intros Hxs. apply sorted_split, RankingFacts.sorted_descending, Hxs.
Qed.

(** X14: taking the top [m] of the top [n] is taking the top [m], for
    [0 <= m <= n] and scores none of which is NaN. *)
Theorem getTopArticles_nested (xs : list ScoredArticle) (m n : Z) :
  Forall Spec.hasScore xs -> (0 <= m <= n)%Z ->
  getTopArticles (getTopArticles xs n) m = getTopArticles xs m.
Proof.
  intros Hxs Hmn. unfold getTopArticles.
  rewrite (RankingFacts.slice_prefix (JS.sort byScore xs) n) by lia.
  rewrite SortFacts.sort_fixed
    by (apply SortFacts.firstn_sorted, RankingFacts.sorted_in_order, Hxs).
  rewrite !RankingFacts.slice_prefix by lia.
  rewrite firstn_firstn. f_equal. lia.
Qed.

(** The theorem at the three test articles: the top 1 of the top 2. *)
Lemma getTopArticles_nested_witness :
  getTopArticles (getTopArticles Samples.threeScored 2) 1
  = getTopArticles Samples.threeScored 1.
Proof.
  apply (getTopArticles_nested Samples.threeScored 1 2);
    [ repeat constructor | lia ].
Defined.

(** X15: scoring and ranking together.  For articles none of whose metrics
    is negative and weights that are positive finite numbers, the articles
    [getTopArticles] returns from the output of [scoreArticles] are in
    descending order of engagementScore, for every limit, and each
    engagementScore is a number not below 0. *)
Theorem scored_articles_ranked (subjects : gmap string Subjects.Subject)
    (articles : list Article) (sid : string) (weights : ScoringWeights)
    (limit : Z) :
  Forall (fun a => Forall (fun metric => notNegative metric = true)
                     (metricsOf (engagement a))) articles ->
  Forall (fun w => positiveFinite w = true) (weightsOf weights) ->
  let top :=
    getTopArticles (scoreArticles subjects articles sid weights) limit in
  StronglySorted
    (fun a b => (engagementScore b <=? engagementScore a)%float = true) top /\
  Forall (fun s => (0 <=? engagementScore s)%float = true) top.
Proof.
  intros HM HW top.
  pose proof (scoreArticles_hasScore subjects articles sid weights HM HW) as Hs.
  set (scored := scoreArticles subjects articles sid weights) in *.
  assert (Hn : Forall Spec.hasScore scored).
  { rewrite List.Forall_forall in *. intros s Hin.
    apply EngagementFacts.nonNegative_number; auto. }
  destruct (getTopArticles_prefix scored limit) as [n Htop].
  unfold top. rewrite Htop. split.
  - apply firstn_StronglySorted, RankingFacts.sorted_descending, Hn.
  - apply Forall_take.
    eapply Permutation_Forall;
      [ apply Permutation_sym, SortFacts.sort_perm | ].
    rewrite List.Forall_forall in *. intros s Hin.
    apply EngagementFacts.leb_nonNegative; auto.
Qed.

(** The theorem at two test articles, the default weights and limit 5. *)
Lemma scored_articles_ranked_witness :
  StronglySorted
    (fun a b => (engagementScore b <=? engagementScore a)%float = true)
    (getTopArticles
       (scoreArticles Samples.registry
          [Samples.twoMetrics; Samples.fullArticle] "test-subject"
          DEFAULT_WEIGHTS) 5).
Proof.
  destruct (scored_articles_ranked Samples.registry
              [Samples.twoMetrics; Samples.fullArticle] "test-subject"
              DEFAULT_WEIGHTS 5) as [H _];
    [ repeat constructor | repeat constructor | exact H ].
Defined.

(** X16: the relevance fields of a scored article are those of the match
    of its title, a space and its content: the matched keywords and the
    relevanceScore of the match, or no keyword and 0 without a match.  So
    relevanceScore is 0 or at least 5, and it is at least 5 exactly for the
    articles that [isRelevantToSubject] accepts. *)
Theorem scoreArticles_relevance (subjects : gmap string Subjects.Subject)
    (articles : list Article) (sid : string) (weights : ScoringWeights) :
  Forall
    (fun s =>
       let a := article s in
       match Subjects.matchContent subjects
               (title a +:+ " " +:+ content a) sid with
       | Some m =>
           matchedKeywords s = Subjects.matchedKeywords m /\
           relevanceScore s = Subjects.relevanceScore m /\
           matchedKeywords s <> []
       | None => matchedKeywords s = [] /\ relevanceScore s = 0%Z
       end /\
       (relevanceScore s = 0 \/ 5 <= relevanceScore s)%Z /\
       (Subjects.isRelevantToSubject subjects (title a) (content a) sid = true
        <-> (5 <= relevanceScore s)%Z))
    (scoreArticles subjects articles sid weights).
Proof.
  rewrite ScoreFacts.scoreArticles_map. apply Forall_map.
  apply List.Forall_forall. intros a _.
  cbn [scoreOne article matchedKeywords relevanceScore].
  rewrite RelevanceFacts.isRelevantToSubject_match.
  destruct (Subjects.matchContent subjects (title a +:+ " " +:+ content a) sid)
    as [m|] eqn:E; cbn [option_map JS.intOrElse].
  - apply RelevanceFacts.matchContent_Some in E.
    destruct E as [subject [_ [-> Hne]]].
    cbn [Subjects.matchedKeywords Subjects.relevanceScore].
    set (k := Spec.matched (title a +:+ " " +:+ content a)
                (Subjects.keywords subject)) in *.
    set (r := Spec.matched (title a +:+ " " +:+ content a)
                (Subjects.relatedTerms subject)) in *.
    assert (Hlen : (0 < length k + length r)%nat).
    { destruct k, r; cbn [length app] in *; try lia. congruence. }
    destruct (10 * Z.of_nat (length k) + 5 * Z.of_nat (length r) =? 0)%Z eqn:E0;
      [ apply Z.eqb_eq in E0; lia | ].
    repeat split; trivial; lia.
  - repeat split; trivial; try lia; discriminate.
Qed.

End TopFacts.

(** ** Aggregation, further *)

Module AggregationFacts.
Import Crawlers.

Lemma healthy_In (crawlers : list Crawler) (sid : string)
    (fetched : list Article) :
  In fetched (Spec.healthy crawlers sid) <->
  exists c, In c crawlers /\ fetchArticles c sid = JS.Resolved fetched.
Proof.
  induction crawlers as [|c cs IH]; cbn [Spec.healthy In].
  - split; [ intros [] | intros [c [[] _]] ].
  - destruct (fetchArticles c sid) as [l|e] eqn:E; cbn [In]; rewrite ?IH.
    + split.
      * intros [<-|[c' [Hc' H]]]; [ exists c | exists c' ]; auto.
      * intros [c' [[<-|Hc'] H]]; [ left; congruence | right; eauto ].
    + split.
      * intros [c' [Hc' H]]. exists c'. auto.
      * intros [c' [[<-|Hc'] H]]; [ congruence | eauto ].
Qed.

(** The lists fit the arguments of a call when no provider answers with a
    longer list. *)
Lemma fits_true (argumentLimit : nat) (crawlers : list Crawler)
    (sid : string) :
  Spec.fits argumentLimit (Spec.healthy crawlers sid) = true <->
  forall c fetched,
    In c crawlers -> fetchArticles c sid = JS.Resolved fetched ->
    length fetched <= argumentLimit.
Proof.
  unfold Spec.fits. rewrite forallb_forall. split.
  - intros H c fetched Hc E. apply Nat.leb_le, H, healthy_In. eauto.
  - intros H l Hl. apply healthy_In in Hl. destruct Hl as [c [Hc E]].
    apply Nat.leb_le. eauto.
Qed.

Lemma fits_false (argumentLimit : nat) (crawlers : list Crawler)
    (sid : string) :
  Spec.fits argumentLimit (Spec.healthy crawlers sid) = false ->
  exists c fetched,
    In c crawlers /\ fetchArticles c sid = JS.Resolved fetched /\
    argumentLimit < length fetched.
Proof.
  unfold Spec.fits. intros H.
  assert (Hl : exists l, In l (Spec.healthy crawlers sid) /\
                         argumentLimit < length l).
  { induction (Spec.healthy crawlers sid) as [|l ls IH]; [ discriminate | ].
    cbn [forallb] in H. destruct (length l <=? argumentLimit)%nat eqn:E.
    - destruct (IH H) as [l' [Hin Hlen]]. exists l'. cbn [In]. auto.
    - exists l. apply Nat.leb_gt in E. cbn [In]. auto. }
  destruct Hl as [l [Hin Hlen]]. apply healthy_In in Hin.
  destruct Hin as [c [Hc E]]. eauto.
Qed.

(** When [fetchAllArticles] resolves, it does with the lists of the
    providers one after the other, that of a failed provider empty. *)
Lemma fetchAllArticles_settled (argumentLimit : nat) (crawlers : list Crawler)
    (sid : string) :
  fetchAllArticles argumentLimit crawlers sid
  = if Spec.fits argumentLimit (Spec.healthy crawlers sid)
    then JS.Resolved (concat (map (Spec.settled sid) crawlers))
    else JS.Rejected "RangeError: Maximum call stack size exceeded".
Proof.
  rewrite AggregatorFacts.fetchAllArticles_outcome,
    AggregatorFacts.settled_healthy.
  reflexivity.
Qed.

(** X17: [fetchAllArticles] rejects exactly when a provider answers with a
    list of more entries than the engine accepts as the arguments of a
    call: [allArticles.push(...articles)] then throws a [RangeError].
    Otherwise it resolves; an article is then collected exactly when a
    registered provider answers with a list that holds it, and nothing is
    collected exactly when every provider fails or answers with the empty
    list. *)
Theorem fetchAllArticles_members (argumentLimit : nat)
    (crawlers : list Crawler) (sid : string) :
  match fetchAllArticles argumentLimit crawlers sid with
  | JS.Resolved articles =>
      (forall c fetched,
         In c crawlers -> fetchArticles c sid = JS.Resolved fetched ->
         length fetched <= argumentLimit) /\
      (forall a, In a articles <->
         exists c fetched,
           In c crawlers /\ fetchArticles c sid = JS.Resolved fetched /\
           In a fetched) /\
      (articles = [] <->
       forall c, In c crawlers ->
         fetchArticles c sid = JS.Resolved [] \/
         exists e, fetchArticles c sid = JS.Rejected e)
  | JS.Rejected e =>
      e = "RangeError: Maximum call stack size exceeded" /\
      exists c fetched,
        In c crawlers /\ fetchArticles c sid = JS.Resolved fetched /\
        argumentLimit < length fetched
  end.
Proof.
  rewrite fetchAllArticles_settled.
  destruct (Spec.fits argumentLimit (Spec.healthy crawlers sid)) eqn:F;
    [ | split; [ reflexivity | apply fits_false, F ] ].
  split; [ apply fits_true, F | ]. clear F. split.
  - intros a. rewrite in_concat. split.
    + intros [l [Hl Ha]]. apply in_map_iff in Hl.
      destruct Hl as [c [<- Hc]]. unfold Spec.settled in Ha.
      destruct (fetchArticles c sid) as [fetched|e] eqn:E; [ | destruct Ha ].
      exists c, fetched. auto.
    + intros [c [fetched [Hc [E Ha]]]]. exists fetched. split; trivial.
      apply in_map_iff. exists c. unfold Spec.settled. rewrite E. auto.
  - induction crawlers as [|c cs IH]; cbn [map concat].
    + split; trivial. intros _ c [].
    + split.
      * intros H. apply app_eq_nil in H. destruct H as [H1 H2].
        intros c' [<-|Hc'].
        -- unfold Spec.settled in H1.
           destruct (fetchArticles c sid); [ left; congruence | right; eauto ].
        -- apply IH; trivial.
      * intros H. rewrite (proj2 IH) by (intros c' Hc'; apply H; right; trivial).
        rewrite app_nil_r. unfold Spec.settled.
        destruct (H c (or_introl eq_refl)) as [-> | [e ->]]; reflexivity.
Qed.

(** Two providers of which the second answers with too long a list, and
    the providers of the scenario. *)
Example fetchAllArticles_members_samples :
  fetchAllArticles Samples.argumentLimit [Samples.healthyA; Samples.flooding]
    "agentic-ai"
  = JS.Rejected "RangeError: Maximum call stack size exceeded" /\
  fetchAllArticles Samples.argumentLimit
    [Samples.healthyA; Samples.failing; Samples.healthyB] "agentic-ai"
  = JS.Resolved [Samples.fullArticle; Samples.twoMetrics; Samples.nanMetric].
Proof. split; vm_compute; reflexivity. Qed.

End AggregationFacts.

(** ** The crawlers *)

Module CrawlerFacts.
Import Crawlers Notions.

(** *** The built-ins they use *)

Lemma slice_length {A : Type} (l : list A) (e : Z) :
  (0 <= e)%Z -> (length (JS.slice l 0 e) <= Z.to_nat e)%nat.
Proof.
  intros He. rewrite RankingFacts.slice_prefix by trivial.
  rewrite length_firstn. lia.
Qed.

Lemma ofArray_length (xs : list JS.number) :
  (length (JSSet.ofArray xs) <= length xs)%nat.
Proof.
  unfold JSSet.ofArray.
  assert (H : forall acc,
             (length (fold_left JSSet.add xs acc) <= length acc + length xs)%nat).
  { induction xs as [|x xs IH]; intros acc; cbn [fold_left length]; [ lia | ].
    specialize (IH (JSSet.add acc x)). unfold JSSet.add in *.
    destruct (existsb (JSSet.sameValueZero x) acc);
      rewrite ?length_app in IH; cbn [length] in IH; lia. }
  apply (H []).
Qed.

(** [Promise.all] of requests that are each caught. *)
Lemma all_caught {A B : Type} (request : A -> JS.promise B) (xs : list A) :
  JS.all
    (map (fun x =>
            JS.tryCatch
              (JS.andThen (request x) (fun data => JS.Resolved (Some data)))
              (fun _ => JS.Resolved None)) xs)
  = JS.Resolved
      (map (fun x => match request x with
                     | JS.Resolved data => Some data
                     | JS.Rejected _ => None
                     end) xs).
Proof.
  induction xs as [|x xs IH]; trivial.
  cbn [map JS.all]. rewrite IH.
  destruct (request x); reflexivity.
Qed.

(** A loop whose turns push at most one entry, each with property [P]. *)
Lemma push_loop_Forall {A B : Type} (P : B -> Prop)
    (visit : list B -> A -> list B) (xs : list A) (acc : list B) :
  (forall acc x, Forall P acc -> Forall P (visit acc x)) ->
  Forall P acc -> Forall P (fold_left visit xs acc).
Proof.
  intros Hv. revert acc. induction xs as [|x xs IH]; intros acc Hacc;
    cbn [fold_left]; auto.
Qed.

Lemma push_loop_length {A B : Type}
    (visit : list B -> A -> list B) (xs : list A) (acc : list B) :
  (forall acc x, (length (visit acc x) <= S (length acc))%nat) ->
  (length (fold_left visit xs acc) <= length acc + length xs)%nat.
Proof.
  intros Hv. revert acc. induction xs as [|x xs IH]; intros acc;
    cbn [fold_left length]; [ lia | ].
  specialize (IH (visit acc x)). specialize (Hv acc x). lia.
Qed.

(** A loop whose turns only push: what it pushes does not depend on what
    was there. *)
Lemma push_loop_app {A B : Type}
    (visit : list B -> A -> list B) (xs : list A) (acc : list B) :
  (forall acc x, visit acc x = acc ++ visit [] x) ->
  fold_left visit xs acc = acc ++ fold_left visit xs [].
Proof.
  intros Hv. revert acc. induction xs as [|x xs IH]; intros acc;
    cbn [fold_left]; [ symmetry; apply app_nil_r | ].
  rewrite IH, (IH (visit [] x)), (Hv acc x), app_assoc. reflexivity.
Qed.

(** [new Map(entries)] *)
Section OfEntries.
Context {V : Type}.
Implicit Types (m : list (string * V)) (entries : list (string * V)).

Local Notation "'put'" := (fun m (entry : string * V) =>
                             JSMap.set m (fst entry) (snd entry)).

Lemma find_app {A : Type} (f : A -> bool) (l1 l2 : list A) :
  List.find f (l1 ++ l2)
  = match List.find f l1 with
    | Some x => Some x
    | None => List.find f l2
    end.
Proof.
  induction l1 as [|x l1 IH]; cbn [app List.find]; trivial.
  destruct (f x); trivial.
Qed.

Lemma put_NoDup entries m :
  List.NoDup (map fst m) -> List.NoDup (map fst (fold_left put entries m)).
Proof.
  revert m. induction entries as [|e entries IH]; intros m Hm;
    cbn [fold_left]; trivial.
  apply IH, RegistryFacts.set_NoDup, Hm.
Qed.

Lemma put_In entries m k v :
  In (k, v) (fold_left put entries m) -> In (k, v) m \/ In (k, v) entries.
Proof.
  revert m. induction entries as [|[k' v'] entries IH]; intros m;
    cbn [fold_left In fst snd]; auto.
  intros H. destruct (IH _ H) as [H'|H']; auto.
  apply RegistryFacts.In_set in H'. destruct H' as [[-> ->]|H']; auto.
Qed.

Lemma put_keys entries m k :
  In k (map fst m) \/ In k (map fst entries) ->
  In k (map fst (fold_left put entries m)).
Proof.
  revert m. induction entries as [|[k' v'] entries IH]; intros m;
    cbn [fold_left map In fst snd]; [ tauto | ].
  intros H. apply IH. rewrite RegistryFacts.keys_set.
  destruct (JSMap.get m k') eqn:E.
  - destruct H as [H|[<-|H]]; auto.
    left. destruct (in_dec string_dec k' (map fst m)) as [Hin|Hnin]; trivial.
    apply RegistryFacts.get_None in Hnin. congruence.
  - rewrite in_app_iff. cbn [In]. tauto.
Qed.

Lemma put_get entries m k :
  JSMap.get (fold_left put entries m) k
  = match List.find (fun e => String.eqb (fst e) k) (rev entries) with
    | Some e => Some (snd e)
    | None => JSMap.get m k
    end.
Proof.
  revert m. induction entries as [|[k' v'] entries IH]; intros m;
    cbn [fold_left rev List.find fst snd]; trivial.
  rewrite IH, find_app. cbn [List.find fst snd].
  destruct (List.find _ (rev entries)); trivial.
  destruct (String.eqb k' k) eqn:E.
  - apply String.eqb_eq in E. subst. apply RegistryFacts.get_set_same.
  - apply String.eqb_neq in E. apply RegistryFacts.get_set_other, E.
Qed.

End OfEntries.

(** [Array.from(new Map(xs.map(x => [key(x), x])).values())] *)
Lemma unique_by_key {A : Type} (key : A -> string) (xs : list A) :
  let unique := JSMap.values (JSMap.ofEntries (map (fun x => (key x, x)) xs)) in
  List.NoDup (map key unique) /\
  (forall x, In x unique -> In x xs) /\
  (forall x, In x xs -> exists y, In y unique /\ key y = key x) /\
  (forall x, In x unique ->
     List.find (fun y => String.eqb (key y) (key x)) (rev xs) = Some x).
Proof.
  intros unique. unfold unique, JSMap.values, JSMap.ofEntries.
  set (entries := map (fun x => (key x, x)) xs).
  set (m := fold_left _ entries []).
  assert (Hnd : List.NoDup (map fst m))
    by (apply put_NoDup; constructor).
  assert (Hin : forall k v, In (k, v) m -> k = key v /\ In v xs).
  { intros k v H. apply put_In in H. destruct H as [[]|H].
    apply in_map_iff in H. destruct H as [x [[= <- <-] Hx]]. auto. }
  assert (Hkeys : map key (map snd m) = map fst m).
  { rewrite map_map. apply map_ext_in. intros [k v] H.
    destruct (Hin k v H) as [-> _]. reflexivity. }
  split; [ rewrite Hkeys; exact Hnd | ]. split; [ | split ].
  - intros x Hx. apply in_map_iff in Hx. destruct Hx as [[k v] [<- H]].
    apply (Hin k v H).
  - intros x Hx.
    assert (Hk : In (key x) (map fst m)).
    { apply put_keys. right. unfold entries. rewrite map_map. cbn [fst].
      apply in_map, Hx. }
    apply in_map_iff in Hk. destruct Hk as [[k v] [Hkv H]]. cbn [fst] in Hkv.
    subst k. exists v. split.
    + apply in_map_iff. exists (key x, v). auto.
    + destruct (Hin _ _ H) as [-> _]. reflexivity.
  - intros x Hx. apply in_map_iff in Hx. destruct Hx as [[k v] [<- H]].
    cbn [snd]. destruct (Hin k v H) as [-> Hv].
    apply RegistryFacts.In_get in H; trivial.
    unfold m in H. rewrite put_get in H. cbn [JSMap.get] in H.
    unfold entries in H. rewrite <- map_rev in H. revert H.
    induction (rev xs) as [|y ys IH]; cbn [map List.find fst snd];
      [ discriminate | ].
    destruct (String.eqb (key y) (key v)); [ cbn [snd]; congruence | exact IH ].
Qed.

(** *** Hacker News *)

Section HackerNews.
Variable subjects : gmap string Subjects.Subject.
Variable getIds : string -> JS.promise (list JS.number).
Variable getItem : string -> JS.promise (option HackerNewsCrawler.HNItem).

Lemma hackerNews_visit (sid : string) (acc : list Article)
    (response : option (option HackerNewsCrawler.HNItem)) :
  exists pushed,
    HackerNewsCrawler.visit subjects sid acc response = acc ++ pushed /\
    (length pushed <= 1)%nat /\
    Forall (fun a => passes subjects sid a /\ source a = "Hacker News" /\
                     String.prefix "hn-" (id a) = true) pushed.
Proof.
  assert (Hnone : exists pushed : list Article,
             acc = acc ++ pushed /\ (length pushed <= 1)%nat /\
             Forall (fun a => passes subjects sid a /\
                              source a = "Hacker News" /\
                              String.prefix "hn-" (id a) = true) pushed).
  { exists []. rewrite app_nil_r. cbn [length]. repeat split; auto. }
  unfold HackerNewsCrawler.visit.
  destruct response as [[item|]|]; trivial.
  destruct (HackerNewsCrawler.title item) as [t|]; trivial.
  destruct (HackerNewsCrawler.notStory _ || negb (JSString.truthy t));
    trivial.
  destruct (Subjects.isRelevantToSubject subjects t _ sid) eqn:E;
    cbn [negb]; trivial.
  eexists. split; [ reflexivity | ]. split; [ cbn [length]; lia | ].
  constructor; [ | constructor ]. unfold passes. cbn [title content source id].
  split; [ exact E | ]. split; [ reflexivity | ].
  apply MatchFacts.prefix_spec. eauto.
Qed.

(** The crawler resolves, with articles that passed the relevance test. *)
Lemma hackerNews_passes (sid : string) :
  exists articles,
    HackerNewsCrawler.fetchArticles subjects getIds getItem sid
    = JS.Resolved articles /\
    Forall (passes subjects sid) articles.
Proof.
  unfold HackerNewsCrawler.fetchArticles.
  destruct (getIds (HackerNewsCrawler.HN_API_BASE +:+ "/topstories.json"))
    as [top|e1]; cbn [JS.andThen JS.tryCatch]; [ | exists []; auto ].
  destruct (getIds (HackerNewsCrawler.HN_API_BASE +:+ "/newstories.json"))
    as [new|e2]; cbn [JS.andThen JS.tryCatch]; [ | exists []; auto ].
  rewrite (all_caught
             (fun id => getItem (HackerNewsCrawler.HN_API_BASE +:+ "/item/"
                                 +:+ JS.toString id +:+ ".json"))).
  cbn [JS.andThen JS.tryCatch]. eexists. split; [ reflexivity | ].
  apply push_loop_Forall; [ | constructor ].
  intros acc response Hacc.
  destruct (hackerNews_visit sid acc response) as [pushed [-> [_ Hp]]].
  apply Forall_app. split; trivial.
  eapply Forall_impl; [ exact Hp | ]. intros a Ha. apply Ha.
Qed.

(** X18: the Hacker News crawler never fails: it resolves, with at most 150
    articles, each of which passed [isRelevantToSubject], has the source
    ["Hacker News"] and an id that starts with ["hn-"]; when the request
    for either listing fails it resolves with no article. *)
Theorem hackerNews_fetchArticles (sid : string) :
  exists articles,
    HackerNewsCrawler.fetchArticles subjects getIds getItem sid
    = JS.Resolved articles /\
    (length articles <= 150)%nat /\
    Forall (fun a => passes subjects sid a /\ source a = "Hacker News" /\
                     String.prefix "hn-" (id a) = true) articles /\
    ((exists e, getIds (HackerNewsCrawler.HN_API_BASE +:+ "/topstories.json")
                = JS.Rejected e) \/
     (exists e, getIds (HackerNewsCrawler.HN_API_BASE +:+ "/newstories.json")
                = JS.Rejected e) ->
     articles = []).
Proof.
  unfold HackerNewsCrawler.fetchArticles.
  destruct (getIds (HackerNewsCrawler.HN_API_BASE +:+ "/topstories.json"))
    as [top|e1] eqn:E1; cbn [JS.andThen JS.tryCatch].
  2:{ exists []. cbn [length]. repeat split; auto. lia. }
  destruct (getIds (HackerNewsCrawler.HN_API_BASE +:+ "/newstories.json"))
    as [new|e2] eqn:E2; cbn [JS.andThen JS.tryCatch].
  2:{ exists []. cbn [length]. repeat split; auto. lia. }
  rewrite (all_caught
             (fun id => getItem (HackerNewsCrawler.HN_API_BASE +:+ "/item/"
                                 +:+ JS.toString id +:+ ".json"))).
  cbn [JS.andThen JS.tryCatch]. eexists. split; [ reflexivity | ].
  split; [ | split ].
  - eapply Nat.le_trans.
    + apply push_loop_length. intros acc response.
      destruct (hackerNews_visit sid acc response) as [pushed [-> [Hl _]]].
      rewrite length_app. lia.
    + cbn [length]. rewrite length_map.
      eapply Nat.le_trans; [ apply ofArray_length | ].
      rewrite length_app.
      pose proof (slice_length top 100). pose proof (slice_length new 50). lia.
  - apply push_loop_Forall; [ | constructor ].
    intros acc response Hacc.
    destruct (hackerNews_visit sid acc response) as [pushed [-> [_ Hp]]].
    apply Forall_app. auto.
  - intros [[e H]|[e H]]; discriminate.
Qed.

End HackerNews.

(** *** Reddit *)

Section Reddit.
Variable subjects : gmap string Subjects.Subject.
Variable get : string -> JS.promise (list RedditCrawler.RedditPost).

Lemma reddit_visit (sid : string) (acc : list Article)
    (post : RedditCrawler.RedditPost) :
  exists pushed,
    RedditCrawler.visit subjects sid acc post = acc ++ pushed /\
    RedditCrawler.visit subjects sid [] post = pushed /\
    Forall (fun a => passes subjects sid a /\
                     String.prefix "Reddit r/" (source a) = true /\
                     String.prefix "reddit-" (id a) = true) pushed.
Proof.
  unfold RedditCrawler.visit.
  destruct (Subjects.isRelevantToSubject subjects _ _ sid) eqn:E; cbn [negb].
  - eexists. split; [ reflexivity | ]. split; [ reflexivity | ].
    constructor; [ | constructor ]. unfold passes.
    cbn [title content source id].
    split; [ exact E | ]. split; apply MatchFacts.prefix_spec; eauto.
  - exists []. rewrite app_nil_r. auto.
Qed.

Local Notation "'redditListed'" := (Notions.redditListed subjects get).

Lemma orElse_empty (s : string) : JSString.orElse (Some s) "" = s.
Proof. destruct s; reflexivity. Qed.

(** One turn of the loop over the posts: the article of the post is pushed
    when the post is relevant. *)
Lemma reddit_visit_post (sid : string) (acc : list Article)
    (post : RedditCrawler.RedditPost) :
  RedditCrawler.visit subjects sid acc post
  = acc ++ (if redditRelevant subjects sid post then [redditArticle post]
            else []).
Proof.
  unfold RedditCrawler.visit, redditRelevant, redditArticle,
    JSString.startsWith.
  rewrite orElse_empty.
  destruct (Subjects.isRelevantToSubject subjects _ _ sid); cbn [negb].
  - reflexivity.
  - symmetry. apply app_nil_r.
Qed.

Lemma reddit_posts (sid : string) (posts : list RedditCrawler.RedditPost)
    (acc : list Article) :
  fold_left (RedditCrawler.visit subjects sid) posts acc
  = acc ++ map redditArticle (List.filter (redditRelevant subjects sid) posts).
Proof.
  revert acc. induction posts as [|post posts IH]; intros acc;
    cbn [fold_left List.filter map].
  - symmetry. apply app_nil_r.
  - rewrite IH, reddit_visit_post.
    destruct (redditRelevant subjects sid post); cbn [map].
    + rewrite <- app_assoc. reflexivity.
    + rewrite app_nil_r. reflexivity.
Qed.

Lemma reddit_url (subreddit : string) :
  RedditCrawler.REDDIT_API_BASE +:+ "/r/" +:+ subreddit
  +:+ "/hot.json?limit=50"
  = "https://www.reddit.com/r/" +:+ subreddit +:+ "/hot.json?limit=50".
Proof. reflexivity. Qed.

Lemma reddit_loop (sid : string) (subreddits : list string)
    (acc : list Article) :
  fold_left
    (fun state subreddit =>
       JS.andThen state (fun articles =>
         RedditCrawler.visitSubreddit subjects get sid articles subreddit))
    subreddits (JS.Resolved acc)
  = JS.Resolved (acc ++ concat (map (redditListed sid) subreddits)).
Proof.
  revert acc. induction subreddits as [|sr srs IH]; intros acc;
    cbn [fold_left map concat].
  - rewrite app_nil_r. reflexivity.
  - cbn [JS.andThen]. unfold RedditCrawler.visitSubreddit.
    unfold Notions.redditListed at 1. rewrite reddit_url.
    destruct (get _) as [posts|e]; cbn [JS.andThen JS.tryCatch]; rewrite IH.
    + rewrite reddit_posts, app_assoc. reflexivity.
    + reflexivity.
Qed.

(** The crawler resolves, with articles that passed the relevance test. *)
Lemma reddit_passes (sid : string) :
  exists articles,
    RedditCrawler.fetchArticles subjects get sid = JS.Resolved articles /\
    Forall (passes subjects sid) articles.
Proof.
  unfold RedditCrawler.fetchArticles.
  assert (H : forall subreddits acc,
             Forall (passes subjects sid) acc ->
             exists articles,
               fold_left
                 (fun state subreddit =>
                    JS.andThen state (fun articles =>
                      RedditCrawler.visitSubreddit subjects get sid articles
                        subreddit))
                 subreddits (JS.Resolved acc)
               = JS.Resolved articles /\
               Forall (passes subjects sid) articles).
  { induction subreddits as [|sr srs IH]; intros acc Hacc; cbn [fold_left].
    - eauto.
    - cbn [JS.andThen]. unfold RedditCrawler.visitSubreddit.
      destruct (get _) as [posts|e]; cbn [JS.andThen JS.tryCatch];
        apply IH; trivial.
      apply push_loop_Forall; trivial.
      intros acc' post Hacc'.
      destruct (reddit_visit sid acc' post) as [pushed [-> [_ Hp]]].
      apply Forall_app. split; trivial.
      eapply Forall_impl; [ exact Hp | ]. intros a Ha. apply Ha. }
  apply H. constructor.
Qed.

(** X19: the Reddit crawler never fails.  It resolves with the relevant
    posts (those whose title and selftext pass [isRelevantToSubject]) of
    the hot listings of the subreddits of [TECH_SUBREDDITS], as articles:
    subreddit after subreddit in the order of [TECH_SUBREDDITS], each
    listing in its own order, no post left out and none twice.  A subreddit
    whose request fails contributes nothing and costs no other subreddit
    its posts.  The article of a post has the id of the post after
    ["reddit-"], its title, its selftext as content, its subreddit after
    ["Reddit r/"] as source, its score and number of comments as upvotes and
    comments, and as url the url of the post if that starts with ["http"],
    the permalink on reddit.com otherwise. *)
Theorem reddit_fetchArticles (sid : string) :
  RedditCrawler.fetchArticles subjects get sid
  = JS.Resolved
      (concat (map (redditListed sid) RedditCrawler.TECH_SUBREDDITS)) /\
  RedditCrawler.TECH_SUBREDDITS
  = ["artificial"; "MachineLearning"; "technology"; "programming";
     "LocalLLaMA"; "singularity"; "ChatGPT"; "OpenAI"] /\
  Forall (fun a => passes subjects sid a /\
                   String.prefix "Reddit r/" (source a) = true /\
                   String.prefix "reddit-" (id a) = true)
    (concat (map (redditListed sid) RedditCrawler.TECH_SUBREDDITS)).
Proof.
  split; [ | split; [ reflexivity | ] ].
  - unfold RedditCrawler.fetchArticles. rewrite reddit_loop. reflexivity.
  - apply Forall_concat, Forall_map, List.Forall_forall. intros sr _.
    unfold Notions.redditListed. destruct (get _) as [posts|e]; [ | constructor ].
    apply List.Forall_forall. intros a Ha. apply in_map_iff in Ha.
    destruct Ha as [post [<- Hpost]]. apply filter_In in Hpost.
    destruct Hpost as [_ Hrel]. unfold passes, redditArticle.
    cbn [title content source id].
    split; [ exact Hrel | ]. split; apply MatchFacts.prefix_spec; eauto.
Qed.

End Reddit.

(** *** Dev.to *)

Section DevTo.
Variable subjects : gmap string Subjects.Subject.
Variable get : string -> JS.promise (list DevToCrawler.DevToArticle).
Variable parseDate : string -> option Z.

Local Notation "'search'" := (DevToCrawler.search subjects get parseDate).

Lemma devTo_visit (sid : string) (acc : list Article)
    (article : DevToCrawler.DevToArticle) :
  exists pushed,
    DevToCrawler.visit subjects parseDate sid acc article = acc ++ pushed /\
    Forall (fun a => passes subjects sid a /\ source a = "Dev.to" /\
                     String.prefix "devto-" (id a) = true) pushed.
Proof.
  unfold DevToCrawler.visit.
  destruct (Subjects.isRelevantToSubject subjects _ _ sid) eqn:E; cbn [negb].
  - eexists. split; [ reflexivity | ].
    constructor; [ | constructor ]. unfold passes.
    cbn [title content source id].
    split; [ exact E | ]. split; [ reflexivity | ].
    apply MatchFacts.prefix_spec. eauto.
  - exists []. rewrite app_nil_r. auto.
Qed.

Lemma devTo_search_Forall (sid : string) (terms : list string)
    (acc : list Article) :
  Forall (fun a => passes subjects sid a /\ source a = "Dev.to" /\
                   String.prefix "devto-" (id a) = true) acc ->
  Forall (fun a => passes subjects sid a /\ source a = "Dev.to" /\
                   String.prefix "devto-" (id a) = true) (search sid terms acc).
Proof.
  revert acc. induction terms as [|term terms IH]; intros acc Hacc;
    cbn [DevToCrawler.search]; trivial.
  destruct (get _) as [data|e]; trivial.
  apply IH, push_loop_Forall; trivial.
  intros acc' article Hacc'.
  destruct (devTo_visit sid acc' article) as [pushed [-> Hp]].
  apply Forall_app. auto.
Qed.

(** A request that fails ends the loop over the search terms. *)
Lemma devTo_search_stops (sid : string) (before : list string) (term : string)
    (after : list string) (acc : list Article) (e : string) :
  get (DevToCrawler.DEVTO_API_BASE +:+ "/articles?tag="
       +:+ JSString.encodeURIComponent term +:+ "&per_page=30")
  = JS.Rejected e ->
  search sid (before ++ term :: after) acc = search sid before acc.
Proof.
  intros H. revert acc. induction before as [|t before IH]; intros acc;
    cbn [app DevToCrawler.search].
  - rewrite H. reflexivity.
  - destruct (get (DevToCrawler.DEVTO_API_BASE +:+ "/articles?tag="
                   +:+ JSString.encodeURIComponent t +:+ "&per_page=30"));
      [ apply IH | reflexivity ].
Qed.

(** The crawler resolves, with articles that passed the relevance test. *)
Lemma devTo_passes (sid : string) :
  exists articles,
    DevToCrawler.fetchArticles subjects get parseDate sid
    = JS.Resolved articles /\
    Forall (passes subjects sid) articles.
Proof.
  unfold DevToCrawler.fetchArticles. eexists. split; [ reflexivity | ].
  destruct (unique_by_key id (search sid DevToCrawler.searchTerms []))
    as [_ [Hsub _]].
  apply List.Forall_forall. intros a Ha. apply Hsub in Ha.
  pose proof (devTo_search_Forall sid DevToCrawler.searchTerms []
                (List.Forall_nil _)) as Hf.
  rewrite List.Forall_forall in Hf. apply (Hf a Ha).
Qed.

(** X20: the Dev.to crawler never fails: it resolves, with articles that
    all passed [isRelevantToSubject], have the source ["Dev.to"] and an id
    that starts with ["devto-"], and no two of which have the same id.
    Every id found by the search is kept, once, and the article kept for an
    id is the one the search found last with that id. *)
Theorem devTo_fetchArticles (sid : string) :
  let found := search sid DevToCrawler.searchTerms [] in
  exists articles,
    DevToCrawler.fetchArticles subjects get parseDate sid
    = JS.Resolved articles /\
    List.NoDup (map id articles) /\
    Forall (fun a => passes subjects sid a /\ source a = "Dev.to" /\
                     String.prefix "devto-" (id a) = true) articles /\
    (forall a, In a found -> exists b, In b articles /\ id b = id a) /\
    (forall a, In a articles ->
       List.find (fun b => String.eqb (id b) (id a)) (rev found) = Some a).
Proof.
  intros found. unfold DevToCrawler.fetchArticles. fold found.
  destruct (unique_by_key id found) as [Hnd [Hsub [Hall Hlast]]].
  eexists. split; [ reflexivity | ]. split; [ exact Hnd | ].
  split; [ | split; [ exact Hall | exact Hlast ] ].
  apply List.Forall_forall. intros a Ha. apply Hsub in Ha.
  pose proof (devTo_search_Forall sid DevToCrawler.searchTerms []
                (List.Forall_nil _)) as Hf.
  rewrite List.Forall_forall in Hf. apply Hf, Ha.
Qed.

(** X21: in the Dev.to crawler a request that fails ends the search: the
    search terms after it are not requested, and the articles found for
    the terms before it are kept.  When the request for the first search
    term fails, the crawler resolves with no article. *)
Theorem devTo_search_failure (sid : string) (before : list string)
    (term : string) (after : list string) (e : string) :
  get (DevToCrawler.DEVTO_API_BASE +:+ "/articles?tag="
       +:+ JSString.encodeURIComponent term +:+ "&per_page=30")
  = JS.Rejected e ->
  (forall acc, search sid (before ++ term :: after) acc
               = search sid before acc) /\
  (DevToCrawler.searchTerms = before ++ term :: after ->
   DevToCrawler.fetchArticles subjects get parseDate sid
   = JS.Resolved
       (JSMap.values
          (JSMap.ofEntries
             (map (fun a => (id a, a)) (search sid before []))))) /\
  (before = [] -> DevToCrawler.searchTerms = term :: after ->
   DevToCrawler.fetchArticles subjects get parseDate sid = JS.Resolved []).
Proof.
  intros H.
  assert (Hs : forall acc, search sid (before ++ term :: after) acc
                           = search sid before acc)
    by (intros acc; apply (devTo_search_stops sid before term after acc e H)).
  split; [ exact Hs | ]. unfold DevToCrawler.fetchArticles. split.
  - intros ->. rewrite Hs. reflexivity.
  - intros -> Ht. cbn [app] in Hs. rewrite Ht, Hs. reflexivity.
Qed.


End DevTo.

(** The theorem with every request failing: nothing is found. *)
Lemma devTo_search_failure_witness :
  DevToCrawler.fetchArticles Samples.registry Fixtures.offline
    Fixtures.parseDate "test-subject" = JS.Resolved [].
Proof.
  destruct (devTo_search_failure Samples.registry Fixtures.offline
              Fixtures.parseDate "test-subject" [] "ai"
              ["artificial intelligence"; "llm"; "agents"; "automation"]
              "Network Error" eq_refl) as [_ [_ H]].
  apply H; reflexivity.
Defined.

(** The tests of [devto.test.ts]: the id and the metrics of an article, one
    article for the five answers that hold it, and the tag of a request. *)
Example devTo_sample :
  (match DevToCrawler.fetchArticles Samples.registry Fixtures.devToOnline
           Fixtures.parseDate "test-subject" with
   | JS.Resolved [a] =>
       id a = "devto-12345" /\ source a = "Dev.to" /\
       reactions (engagement a) = Some 250%float /\
       comments (engagement a) = Some 45%float /\
       views (engagement a) = Some 5000%float
   | _ => False
   end) /\
  JSString.encodeURIComponent "artificial intelligence"
  = "artificial%20intelligence".
Proof. vm_compute. repeat split; reflexivity. Qed.

End CrawlerFacts.

(** ** The content fetcher *)

Module ContentFacts.
Import Crawlers Notions.

(** *** [split(/\s+/)], [join(' ')] and [replace(/\s+/g, ' ')] *)

Lemma splitRuns_nonempty (b : bool) (s : string) : JSString.splitRuns b s <> [].
Proof.
  revert b. induction s as [|c s IH]; intros b; cbn [JSString.splitRuns];
    [ discriminate | ].
  destruct (JS.isWhiteSpace c).
  - destruct b; [ apply IH | discriminate ].
  - destruct (JSString.splitRuns false s); discriminate.
Qed.

Lemma splitRuns_words (b : bool) (s : string) :
  Forall (fun w => noWhiteSpace w = true) (JSString.splitRuns b s).
Proof.
  revert b. induction s as [|c s IH]; intros b; cbn [JSString.splitRuns].
  - repeat constructor.
  - destruct (JS.isWhiteSpace c) eqn:E.
    + destruct b; [ apply IH | constructor; [ reflexivity | apply IH ] ].
    + specialize (IH false).
      destruct (JSString.splitRuns false s) as [|w ws].
      * repeat constructor. cbn [noWhiteSpace]. rewrite E. reflexivity.
      * inversion IH as [|? ? Hw Hws]; subst. constructor; trivial.
        cbn [noWhiteSpace]. rewrite E, Hw. reflexivity.
Qed.

(** A run of white space at the start is the only thing [inRun] skips. *)
Lemma splitRuns_skip (s : string) :
  (length (JSString.splitRuns true s) <= length (JSString.splitRuns false s))%nat.
Proof.
  destruct s as [|c s]; cbn [JSString.splitRuns]; trivial.
  destruct (JS.isWhiteSpace c); cbn [length]; lia.
Qed.

Lemma splitRuns_length (b : bool) (s : string) :
  (length (JSString.splitRuns b s) <= S (String.length s))%nat.
Proof.
  revert b. induction s as [|c s IH]; intros b;
    cbn [JSString.splitRuns String.length length]; [ lia | ].
  destruct (JS.isWhiteSpace c).
  - destruct b; [ specialize (IH true) | specialize (IH true) ];
      cbn [length]; lia.
  - specialize (IH false).
    destruct (JSString.splitRuns false s); cbn [length] in *; lia.
Qed.

(** A word at the start joins the first piece of what follows. *)
Lemma splitRuns_word (w s : string) :
  noWhiteSpace w = true ->
  length (JSString.splitRuns false (w +:+ s))
  = length (JSString.splitRuns false s).
Proof.
  induction w as [|c w IH]; intros Hw; trivial.
  cbn [noWhiteSpace] in Hw. apply andb_true_iff in Hw. destruct Hw as [Hc Hw].
  apply negb_true_iff in Hc.
  rewrite MatchFacts.append_cons. cbn [JSString.splitRuns]. rewrite Hc.
  rewrite <- (IH Hw).
  pose proof (splitRuns_nonempty false (w +:+ s)).
  destruct (JSString.splitRuns false (w +:+ s)); [ congruence | reflexivity ].
Qed.

Lemma join_cons (sep p : string) (rest : list string) :
  rest <> [] -> JS.join sep (p :: rest) = p +:+ sep +:+ JS.join sep rest.
Proof. destruct rest; [ congruence | reflexivity ]. Qed.

(** Words joined by single spaces are cut into no more pieces than there
    are words. *)
Lemma split_join (ws : list string) :
  ws <> [] -> Forall (fun w => noWhiteSpace w = true) ws ->
  (length (JSString.split (JS.join " " ws)) <= length ws)%nat.
Proof.
  unfold JSString.split.
  induction ws as [|w ws IH]; [ congruence | ]. intros _ H.
  inversion H as [|? ? Hw Hws]; subst.
  destruct ws as [|w' ws].
  - cbn [JS.join length]. rewrite <- (RelevanceFacts.append_empty_r w).
    rewrite splitRuns_word by trivial. cbn. lia.
  - rewrite join_cons by discriminate. rewrite splitRuns_word by trivial.
    rewrite MatchFacts.append_cons, MatchFacts.append_empty.
    change (JSString.splitRuns false (String " " (JS.join " " (w' :: ws))))
      with ("" :: JSString.splitRuns true (JS.join " " (w' :: ws))).
    specialize (IH ltac:(discriminate) Hws).
    pose proof (splitRuns_skip (JS.join " " (w' :: ws))).
    cbn [length] in *. lia.
Qed.

(** Joining the pieces with single spaces is replacing every run of white
    space by one space. *)
Lemma join_splitRuns (b : bool) (s : string) :
  JS.join " " (JSString.splitRuns b s)
  = JSString.replaceRuns JS.isWhiteSpace " " b s.
Proof.
  revert b. induction s as [|c s IH]; intros b;
    cbn [JSString.splitRuns JSString.replaceRuns]; trivial.
  destruct (JS.isWhiteSpace c).
  - destruct b; [ apply IH | ].
    rewrite join_cons by apply splitRuns_nonempty.
    rewrite IH. reflexivity.
  - rewrite <- IH.
    pose proof (splitRuns_nonempty false s).
    destruct (JSString.splitRuns false s) as [|w ws]; [ congruence | ].
    destruct ws; reflexivity.
Qed.

Lemma spacesOnly_append (s t : string) :
  spacesOnly (s +:+ t) = spacesOnly s && spacesOnly t.
Proof.
  induction s as [|c s IH]; trivial.
  rewrite MatchFacts.append_cons. cbn [spacesOnly]. rewrite IH.
  apply andb_assoc.
Qed.

Lemma noWhiteSpace_spacesOnly (w : string) :
  noWhiteSpace w = true -> spacesOnly w = true.
Proof.
  induction w as [|c w IH]; trivial. cbn [noWhiteSpace spacesOnly].
  intros H. apply andb_true_iff in H. destruct H as [-> H].
  rewrite IH; trivial.
Qed.

Lemma join_spacesOnly (ws : list string) :
  Forall (fun w => noWhiteSpace w = true) ws ->
  spacesOnly (JS.join " " ws) = true.
Proof.
  induction 1 as [|w ws Hw Hws IH]; trivial.
  destruct ws as [|w' ws]; [ apply noWhiteSpace_spacesOnly, Hw | ].
  rewrite join_cons by discriminate.
  rewrite !spacesOnly_append, IH, (noWhiteSpace_spacesOnly w Hw). reflexivity.
Qed.

Example split_samples :
  map JSString.split [""; "one"; "  two  words "; "a" +:+ JS.newline +:+ "b"]
  = [[""]; ["one"]; [""; "two"; "words"; ""]; ["a"; "b"]].
Proof. reflexivity. Qed.

(** *** [trim] *)

Lemma reverse_cons (c : ascii) (s : string) :
  JS.reverse (String c s) = JS.reverse s +:+ String c "".
Proof.
  unfold JS.reverse. cbn [list_ascii_of_string rev].
  induction (rev (list_ascii_of_string s)) as [|d l IH]; trivial.
  cbn [app string_of_list_ascii]. rewrite IH. reflexivity.
Qed.

Lemma append_eq_empty (s t : string) : s +:+ t = "" -> s = "" /\ t = "".
Proof.
  destruct s; [ auto | ]. rewrite MatchFacts.append_cons. discriminate.
Qed.

Lemma reverse_empty (s : string) : JS.reverse s = "" -> s = "".
Proof.
  destruct s as [|c s]; trivial. rewrite reverse_cons.
  intros H. apply append_eq_empty in H. destruct H; discriminate.
Qed.

Lemma endsWord_snoc (s : string) (c : ascii) :
  endsWord (s +:+ String c "") = negb (JS.isWhiteSpace c).
Proof.
  induction s as [|d s IH]; trivial.
  rewrite MatchFacts.append_cons. cbn [endsWord].
  destruct (s +:+ String c "") eqn:E; [ | exact IH ].
  apply append_eq_empty in E. destruct E; discriminate.
Qed.

Lemma endsWord_cons (c : ascii) (s : string) :
  endsWord (String c s)
  = match s with
    | EmptyString => negb (JS.isWhiteSpace c)
    | _ => endsWord s
    end.
Proof. destruct s; reflexivity. Qed.

Lemma startsWord_reverse (s : string) :
  startsWord (JS.reverse s) = endsWord s.
Proof.
  induction s as [|c s IH]; trivial.
  rewrite reverse_cons, endsWord_cons. destruct s as [|d s]; trivial.
  rewrite <- IH.
  destruct (JS.reverse (String d s)) eqn:E; [ | reflexivity ].
  apply reverse_empty in E. discriminate.
Qed.

Lemma endsWord_reverse (s : string) :
  endsWord (JS.reverse s) = startsWord s.
Proof.
  destruct s as [|c s]; trivial. rewrite reverse_cons. apply endsWord_snoc.
Qed.

Lemma trimStart_starts (s : string) :
  JS.trimStart s = "" \/ startsWord (JS.trimStart s) = true.
Proof.
  induction s as [|c s IH]; cbn [JS.trimStart]; auto.
  destruct (JS.isWhiteSpace c) eqn:E; trivial.
  right. cbn [startsWord]. rewrite E. reflexivity.
Qed.

Lemma trimStart_ends (s : string) :
  endsWord (JS.trimStart s) = endsWord s.
Proof.
  induction s as [|c s IH]; trivial. cbn [JS.trimStart].
  destruct (JS.isWhiteSpace c) eqn:E; trivial.
  rewrite IH, endsWord_cons. destruct s; trivial. rewrite E. reflexivity.
Qed.

(** What [trim] returns is empty, or starts and ends with a character that
    is not white space. *)
Lemma trim_ends (s : string) :
  JS.trim s = "" \/
  (startsWord (JS.trim s) = true /\ endsWord (JS.trim s) = true).
Proof.
  unfold JS.trim. rewrite startsWord_reverse, endsWord_reverse, trimStart_ends,
    endsWord_reverse.
  destruct (trimStart_starts s) as [->|Hs]; [ left; reflexivity | right ].
  split; trivial.
  destruct (trimStart_starts (JS.reverse (JS.trimStart s))) as [E|E]; trivial.
  pose proof (trimStart_ends (JS.reverse (JS.trimStart s))) as H.
  rewrite E, endsWord_reverse, Hs in H. discriminate.
Qed.

(** The pieces of a text that ends with a word: only the first may be
    empty, and it is when the text starts with white space. *)
Lemma splitRuns_pieces (s : string) :
  endsWord s = true ->
  Forall (fun w => w <> "") (JSString.splitRuns true s) /\
  (startsWord s = true ->
   Forall (fun w => w <> "") (JSString.splitRuns false s)).
Proof.
  induction s as [|c s IH]; [ discriminate | ].
  rewrite endsWord_cons. cbn [JSString.splitRuns startsWord].
  destruct (JS.isWhiteSpace c) eqn:E; cbn [negb].
  - destruct s as [|d s]; [ discriminate | ]. intros H.
    split; [ apply IH, H | discriminate ].
  - destruct s as [|d s].
    + intros _. cbn [JSString.splitRuns].
      split; [ | intros _ ]; repeat constructor; discriminate.
    + intros H. destruct (IH H) as [IH1 IH2].
      assert (Ht : Forall (fun w => w <> "")
                     (match JSString.splitRuns false (String d s) with
                      | piece :: pieces => String c piece :: pieces
                      | [] => [String c ""]
                      end)).
      { cbn [JSString.splitRuns] in *. cbn [startsWord] in IH2.
        destruct (JS.isWhiteSpace d) eqn:Ed; cbn [negb] in *.
        - constructor; [ discriminate | exact IH1 ].
        - specialize (IH2 eq_refl).
          destruct (JSString.splitRuns false s) as [|w ws];
            inversion IH2; subst; constructor; trivial; discriminate. }
      split; [ exact Ht | intros _; exact Ht ].
Qed.

(** *** The first 300 words *)

Lemma firstWords_prefix (s : string) :
  ContentFetcher.firstWords s = JS.join " " (firstn 300 (JSString.split s)).
Proof.
  unfold ContentFetcher.firstWords.
  rewrite RankingFacts.slice_prefix by lia. reflexivity.
Qed.

Lemma firstWords_count (s : string) :
  (wordCount (ContentFetcher.firstWords s) <= 300)%nat.
Proof.
  unfold wordCount. rewrite firstWords_prefix.
  eapply Nat.le_trans; [ apply split_join | ].
  - pose proof (splitRuns_nonempty false s). unfold JSString.split.
    destruct (JSString.splitRuns false s); [ congruence | discriminate ].
  - apply Forall_take, splitRuns_words.
  - rewrite length_firstn. lia.
Qed.

Lemma firstWords_spacesOnly (s : string) :
  spacesOnly (ContentFetcher.firstWords s) = true.
Proof.
  rewrite firstWords_prefix. apply join_spacesOnly, Forall_take, splitRuns_words.
Qed.

Lemma firstWords_nonempty (s : string) :
  s <> "" -> ContentFetcher.firstWords s <> "".
Proof.
  intros Hs. rewrite firstWords_prefix. unfold JSString.split.
  destruct s as [|c s]; [ congruence | ]. cbn [JSString.splitRuns].
  destruct (JS.isWhiteSpace c).
  - pose proof (splitRuns_nonempty true s).
    destruct (JSString.splitRuns true s) as [|w ws]; [ congruence | ].
    cbn [firstn]. rewrite join_cons by discriminate. discriminate.
  - pose proof (splitRuns_nonempty false s).
    destruct (JSString.splitRuns false s) as [|w ws]; [ congruence | ].
    cbn [firstn]. destruct (firstn 299 ws).
    + cbn [JS.join]. discriminate.
    + rewrite join_cons by discriminate. rewrite MatchFacts.append_cons.
      discriminate.
Qed.

(** The first 300 words of a trimmed text. *)
Lemma firstWords_trim (s : string) :
  normalized (ContentFetcher.firstWords (JS.trim s)).
Proof.
  rewrite firstWords_prefix.
  destruct (trim_ends s) as [->|[Hs He]].
  - exists []. split; [ reflexivity | constructor ].
  - exists (firstn 300 (JSString.split (JS.trim s))). split; trivial.
    apply Forall_take. unfold JSString.split.
    pose proof (proj2 (splitRuns_pieces _ He) Hs) as Hne.
    pose proof (splitRuns_words false (JS.trim s)) as Hw.
    rewrite List.Forall_forall in *. auto.
Qed.

(** X22: [split(/\s+/).slice(0, 300).join(' ')], which both functions of
    the content fetcher apply, gives a text of at most 300 words in which
    the only white space is the space character; a text of at most 300
    words only has each run of white space replaced by one space, and a
    text that is not empty does not become empty. *)
Theorem firstWords_spec (s : string) :
  (wordCount (ContentFetcher.firstWords s) <= 300)%nat /\
  spacesOnly (ContentFetcher.firstWords s) = true /\
  ((wordCount s <= 300)%nat ->
   ContentFetcher.firstWords s
   = JSString.replaceRuns JS.isWhiteSpace " " false s) /\
  (s <> "" -> ContentFetcher.firstWords s <> "").
Proof.
  split; [ apply firstWords_count | ].
  split; [ apply firstWords_spacesOnly | ].
  split; [ | apply firstWords_nonempty ].
  intros H. rewrite firstWords_prefix, firstn_all2 by exact H.
  apply join_splitRuns.
Qed.

Section Network.
Variable get : string -> JS.promise ContentFetcher.Page.

Lemma fetchArticleContent_resolved (url : string) :
  exists text,
    ContentFetcher.fetchArticleContent get url = JS.Resolved text /\
    (wordCount text <= 300)%nat /\
    spacesOnly text = true.
Proof.
  unfold ContentFetcher.fetchArticleContent.
  destruct (get url) as [page|e]; cbn [JS.andThen JS.tryCatch].
  - eexists. split; [ reflexivity | ].
    split; [ apply firstWords_count | apply firstWords_spacesOnly ].
  - exists "". repeat split. unfold wordCount. cbn. lia.
Qed.

(** X23: [fetchArticleContent] never fails: it resolves, with the empty
    string when the request for the page fails, and otherwise with a text
    of at most 300 words.  The text is made of words with one space between
    two of them: it neither starts nor ends with white space, and the only
    white space in it are single spaces. *)
Theorem fetchArticleContent_total (url : string) :
  exists text,
    ContentFetcher.fetchArticleContent get url = JS.Resolved text /\
    (wordCount text <= 300)%nat /\
    normalized text /\
    spacesOnly text = true /\
    ((exists e, get url = JS.Rejected e) -> text = "").
Proof.
  unfold ContentFetcher.fetchArticleContent.
  destruct (get url) as [page|e]; cbn [JS.andThen JS.tryCatch].
  - eexists. split; [ reflexivity | ].
    split; [ apply firstWords_count | ].
    split; [ apply firstWords_trim | ].
    split; [ apply firstWords_spacesOnly | ].
    intros [e He]. discriminate.
  - exists "". split; [ reflexivity | ].
    split; [ unfold wordCount; cbn; lia | ].
    split; [ exists []; split; [ reflexivity | constructor ] | ].
    split; reflexivity.
Qed.

(** One turn of the loop of [enrichArticlesWithContent]. *)
Lemma enrich_visit (acc : list ScoredArticle) (a : ScoredArticle) :
  exists text,
    ContentFetcher.visit get acc a
    = JS.Resolved (acc ++ [ContentFetcher.withContent a text]) /\
    (wordCount text <= 300)%nat /\
    (content (article a) <> "" -> text <> "") /\
    ((100 <= String.length (content (article a)))%nat ->
     text = ContentFetcher.firstWords (content (article a))) /\
    ((String.length (content (article a)) < 100)%nat ->
     text = content (article a) \/
     (text <> "" /\
      ContentFetcher.fetchArticleContent get (url (article a))
      = JS.Resolved text)).
Proof.
  unfold ContentFetcher.visit.
  destruct (negb (JSString.truthy (content (article a)))
            || (String.length (content (article a)) <? 100)%nat) eqn:E.
  - assert (Hshort : (String.length (content (article a)) < 100)%nat).
    { apply orb_true_iff in E. destruct E as [E|E].
      - unfold JSString.truthy in E. apply negb_true_iff, negb_false_iff in E.
        apply Nat.eqb_eq in E. lia.
      - apply Nat.ltb_lt, E. }
    destruct (fetchArticleContent_resolved (url (article a)))
      as [fetched [-> [Hc _]]].
    cbn [JS.andThen JS.tryCatch].
    destruct (JSString.truthy fetched) eqn:Ef.
    + exists fetched. split; [ reflexivity | ]. split; [ exact Hc | ].
      assert (Hne : fetched <> "").
      { intros ->. discriminate. }
      repeat split; auto. lia.
    + exists (content (article a)). split; [ reflexivity | ].
      split.
      * unfold wordCount, JSString.split.
        pose proof (splitRuns_length false (content (article a))). lia.
      * repeat split; auto. lia.
  - apply orb_false_iff in E. destruct E as [E1 E2].
    apply Nat.ltb_ge in E2. cbn [JS.andThen].
    exists (ContentFetcher.firstWords (content (article a))).
    split; [ reflexivity | ]. split; [ apply firstWords_count | ].
    split; [ apply firstWords_nonempty | ]. split; [ trivial | lia ].
Qed.

Lemma enrich_loop (articles acc : list ScoredArticle) :
  exists enriched,
    fold_left
      (fun state a =>
         JS.andThen state (fun enrichedArticles =>
           ContentFetcher.visit get enrichedArticles a))
      articles (JS.Resolved acc)
    = JS.Resolved (acc ++ enriched) /\
    Forall2
      (fun a b =>
         b = ContentFetcher.withContent a (content (article b)) /\
         (wordCount (content (article b)) <= 300)%nat /\
         (content (article a) <> "" -> content (article b) <> "") /\
         ((100 <= String.length (content (article a)))%nat ->
          content (article b)
          = ContentFetcher.firstWords (content (article a))) /\
         ((String.length (content (article a)) < 100)%nat ->
          content (article b) = content (article a) \/
          (content (article b) <> "" /\
           ContentFetcher.fetchArticleContent get (url (article a))
           = JS.Resolved (content (article b)))))
      articles enriched.
Proof.
  revert acc. induction articles as [|a articles IH]; intros acc;
    cbn [fold_left].
  - exists []. rewrite app_nil_r. split; [ reflexivity | constructor ].
  - cbn [JS.andThen].
    destruct (enrich_visit acc a) as [text [-> H]].
    destruct (IH (acc ++ [ContentFetcher.withContent a text]))
      as [enriched [-> Hall]].
    exists (ContentFetcher.withContent a text :: enriched).
    rewrite <- app_assoc. split; [ reflexivity | ].
    constructor; [ | exact Hall ].
    cbn [ContentFetcher.withContent article content]. split; [ reflexivity | ].
    exact H.
Qed.

(** X24: [enrichArticlesWithContent] never fails, whatever the network
    does: it resolves, with one article for each article given, in the
    same order, and each differs from the article given in its content at
    most: the id, title, url, source, date, metrics, score, breakdown,
    matched keywords and relevance score are the ones given. *)
Theorem enrichArticlesWithContent_preserves (articles : list ScoredArticle) :
  exists enriched,
    ContentFetcher.enrichArticlesWithContent get articles
    = JS.Resolved enriched /\
    length enriched = length articles /\
    Forall2
      (fun a b => b = ContentFetcher.withContent a (content (article b)))
      articles enriched.
Proof.
  unfold ContentFetcher.enrichArticlesWithContent.
  destruct (enrich_loop articles []) as [enriched [-> Hall]].
  exists enriched. split; [ reflexivity | ].
  split; [ symmetry; eapply List.Forall2_length; exact Hall | ].
  eapply List.Forall2_impl; [ | exact Hall ].
  intros a b H. apply H.
Qed.

(** X25: after [enrichArticlesWithContent] every content has at most 300
    words, and no content that was not empty is empty.  A content of 100
    characters or more is cut to its first 300 words without any request;
    a shorter content is kept, or replaced by the text
    [fetchArticleContent] resolves with for the url of the article when
    that text is not empty. *)
Theorem enrichArticlesWithContent_content (articles : list ScoredArticle) :
  exists enriched,
    ContentFetcher.enrichArticlesWithContent get articles
    = JS.Resolved enriched /\
    Forall2
      (fun a b =>
         (wordCount (content (article b)) <= 300)%nat /\
         (content (article a) <> "" -> content (article b) <> "") /\
         ((100 <= String.length (content (article a)))%nat ->
          content (article b)
          = ContentFetcher.firstWords (content (article a))) /\
         ((String.length (content (article a)) < 100)%nat ->
          content (article b) = content (article a) \/
          (content (article b) <> "" /\
           ContentFetcher.fetchArticleContent get (url (article a))
           = JS.Resolved (content (article b)))))
      articles enriched.
Proof.
  unfold ContentFetcher.enrichArticlesWithContent.
  destruct (enrich_loop articles []) as [enriched [-> Hall]].
  exists enriched. split; [ reflexivity | ].
  eapply List.Forall2_impl; [ | exact Hall ].
  intros a b H. apply H.
Qed.

End Network.

End ContentFacts.

(** ** The articles route, further *)

Module RouteFacts.
Import Crawlers Notions.

Lemma getTopArticles_length (xs : list ScoredArticle) (limit : Z) :
  length (EngagementScorer.getTopArticles xs limit)
  = if (limit <? 0)%Z then (length xs - Z.to_nat (- limit))%nat
    else Nat.min (Z.to_nat limit) (length xs).
Proof.
  unfold EngagementScorer.getTopArticles.
  destruct (Z.ltb_spec limit 0) as [H|H].
  - rewrite RankingFacts.slice_negative by trivial.
    rewrite length_firstn, RankingFacts.sort_length. lia.
  - rewrite RankingFacts.slice_prefix by trivial.
    rewrite length_firstn, RankingFacts.sort_length. reflexivity.
Qed.

Lemma getTopArticles_In (xs : list ScoredArticle) (limit : Z)
    (s : ScoredArticle) :
  In s (EngagementScorer.getTopArticles xs limit) -> In s xs.
Proof.
  destruct (TopFacts.getTopArticles_prefix xs limit) as [n ->]. intros H.
  eapply Permutation_in; [ apply SortFacts.sort_perm | ].
  rewrite <- (firstn_skipn n). apply in_or_app. left. exact H.
Qed.

(** The relevance fields of an article that passes the test of the
    crawlers. *)
Lemma scoreOne_passes (subjects : gmap string Subjects.Subject)
    (sid : string) (weights : EngagementScorer.ScoringWeights) (a : Article) :
  passes subjects sid a ->
  (5 <= relevanceScore (EngagementScorer.scoreOne subjects sid weights a))%Z /\
  matchedKeywords (EngagementScorer.scoreOne subjects sid weights a) <> [].
Proof.
  unfold passes. rewrite RelevanceFacts.isRelevantToSubject_match.
  cbn [EngagementScorer.scoreOne matchedKeywords relevanceScore].
  destruct (Subjects.matchContent subjects (title a +:+ " " +:+ content a) sid)
    as [m|] eqn:E; [ intros _ | discriminate ].
  apply RelevanceFacts.matchContent_Some in E.
  destruct E as [subject [_ [-> Hne]]].
  cbn [option_map JS.intOrElse Subjects.matchedKeywords
       Subjects.relevanceScore].
  split; [ | exact Hne ].
  set (k := Spec.matched (title a +:+ " " +:+ content a)
              (Subjects.keywords subject)) in *.
  set (r := Spec.matched (title a +:+ " " +:+ content a)
              (Subjects.relatedTerms subject)) in *.
  assert (Hlen : (0 < length k + length r)%nat).
  { destruct k, r; cbn [length app] in *; try lia. congruence. }
  destruct (10 * Z.of_nat (length k) + 5 * Z.of_nat (length r) =? 0)%Z eqn:E0;
    [ apply Z.eqb_eq in E0; lia | lia ].
Qed.

(** The route, step by step. *)
Lemma getArticles_steps (argumentLimit : nat)
    (subjects : gmap string Subjects.Subject) (crawlers : list Crawler)
    (enrich : list ScoredArticle -> JS.promise (list ScoredArticle))
    (sid : string) (limitParam : option string) :
  let collected := concat (map (Spec.settled sid) crawlers) in
  let top :=
    EngagementScorer.getTopArticles
      (EngagementScorer.scoreArticles subjects collected sid
         EngagementScorer.DEFAULT_WEIGHTS)
      (Api.requestLimit limitParam) in
  Api.getArticles argumentLimit subjects crawlers enrich sid limitParam
  = match Subjects.getSubject subjects sid with
    | None => Api.NotFound "Subject not found"
    | Some subject =>
        if Spec.fits argumentLimit (Spec.healthy crawlers sid) then
          match enrich top with
          | JS.Resolved enriched =>
              Api.Ok {| Api.subject := Subjects.name subject;
                        Api.totalFound := length collected;
                        Api.returned := length enriched;
                        Api.scoringMethod :=
                          EngagementScorer.getScoringMethodExplanation;
                        Api.weights := EngagementScorer.DEFAULT_WEIGHTS;
                        Api.articles := enriched |}
          | JS.Rejected _ => Api.ServerError "Failed to fetch articles"
          end
        else Api.ServerError "Failed to fetch articles"
    end.
Proof.
  intros collected top. unfold Api.getArticles, Api.pipeline.
  destruct (Subjects.getSubject subjects sid) as [subject|]; trivial.
  rewrite AggregationFacts.fetchAllArticles_settled.
  destruct (Spec.fits argumentLimit (Spec.healthy crawlers sid));
    cbn [JS.andThen]; trivial.
  fold collected. fold top.
  destruct (enrich top) as [enriched|e]; cbn [JS.andThen]; trivial.
  rewrite map_id. reflexivity.
Qed.

(** X26: the articles route answers 404 exactly when the subject id is not
    registered.  For a registered subject it answers 500 in two cases only:
    a provider returned a list of more entries than the engine accepts as
    the arguments of a call, so that [fetchAllArticles] rejects, or the
    content enricher rejects.  A provider that fails causes neither.
    Otherwise the route answers with the name of the subject, the number of
    articles the providers that answered returned as [totalFound], and the
    enriched top articles with their number as [returned]. *)
Theorem getArticles_outcome (argumentLimit : nat)
    (subjects : gmap string Subjects.Subject) (crawlers : list Crawler)
    (enrich : list ScoredArticle -> JS.promise (list ScoredArticle))
    (sid : string) (limitParam : option string) :
  let collected := concat (Spec.healthy crawlers sid) in
  let top :=
    EngagementScorer.getTopArticles
      (EngagementScorer.scoreArticles subjects collected sid
         EngagementScorer.DEFAULT_WEIGHTS)
      (Api.requestLimit limitParam) in
  let exceeded :=
    exists c fetched,
      In c crawlers /\ fetchArticles c sid = JS.Resolved fetched /\
      argumentLimit < length fetched in
  match
    Api.getArticles argumentLimit subjects crawlers enrich sid limitParam
  with
  | Api.NotFound e =>
      Subjects.getSubject subjects sid = None /\ e = "Subject not found"
  | Api.ServerError e =>
      Subjects.getSubject subjects sid <> None /\
      (exceeded \/ exists reason, enrich top = JS.Rejected reason) /\
      e = "Failed to fetch articles"
  | Api.Ok body =>
      exists subject,
        Subjects.getSubject subjects sid = Some subject /\
        ~ exceeded /\
        Api.subject body = Subjects.name subject /\
        Api.totalFound body = length collected /\
        enrich top = JS.Resolved (Api.articles body) /\
        Api.returned body = length (Api.articles body)
  end.
Proof.
  intros collected top exceeded. rewrite getArticles_steps.
  rewrite AggregatorFacts.settled_healthy. fold collected. fold top.
  destruct (Subjects.getSubject subjects sid) as [subject|]; [ | auto ].
  destruct (Spec.fits argumentLimit (Spec.healthy crawlers sid)) eqn:F.
  - destruct (enrich top) as [enriched|e].
    + exists subject. cbn [Api.subject Api.totalFound Api.articles Api.returned].
      split; [ reflexivity | ]. split; [ | auto ].
      intros [c [fetched [Hc [E Hlen]]]].
      pose proof (proj1 (AggregationFacts.fits_true _ _ _) F c fetched Hc E).
      lia.
    + split; [ discriminate | ]. split; [ eauto | reflexivity ].
  - split; [ discriminate | ]. split; [ | reflexivity ].
    left. apply AggregationFacts.fits_false, F.
Qed.

(** A provider that returns too long a list makes the route answer 500,
    and a provider that fails does not. *)
Example getArticles_outcome_samples :
  Api.getArticles Samples.argumentLimit Samples.registry
    [Samples.healthyA; Samples.flooding] (fun l => JS.Resolved l)
    "test-subject" None
  = Api.ServerError "Failed to fetch articles" /\
  exists body,
    Api.getArticles Samples.argumentLimit Samples.registry
      [Samples.healthyA; Samples.failing; Samples.healthyB]
      (fun l => JS.Resolved l) "test-subject" None
    = Api.Ok body /\
    Api.totalFound body = 3.
Proof.
  split; [ vm_compute; reflexivity | ].
  eexists. split; vm_compute; reflexivity.
Qed.

Section Server.
Variable argumentLimit : nat.
Variable subjects : gmap string Subjects.Subject.
Variable hackerNewsIds : string -> JS.promise (list JS.number).
Variable hackerNewsItem :
  string -> JS.promise (option HackerNewsCrawler.HNItem).
Variable reddit : string -> JS.promise (list RedditCrawler.RedditPost).
Variable devTo : string -> JS.promise (list DevToCrawler.DevToArticle).
Variable parseDate : string -> option Z.
Variable page : string -> JS.promise ContentFetcher.Page.

Local Notation "'crawlers'" :=
  (Server.crawlers subjects hackerNewsIds hackerNewsItem reddit devTo
     parseDate).
Local Notation "'getArticles'" :=
  (Server.getArticles argumentLimit subjects hackerNewsIds hackerNewsItem
     reddit devTo parseDate page).

(** Every registered crawler resolves, with articles that passed the
    relevance test. *)
Lemma crawlers_pass (sid : string) :
  Forall (fun c => exists fetched,
            fetchArticles c sid = JS.Resolved fetched /\
            Forall (passes subjects sid) fetched) crawlers.
Proof.
  unfold Server.crawlers.
  constructor; [ | constructor; [ | constructor; [ | constructor ] ] ].
  - apply CrawlerFacts.hackerNews_passes.
  - apply CrawlerFacts.reddit_passes.
  - apply CrawlerFacts.devTo_passes.
Qed.

(** The response of the server for a registered subject. *)
Lemma server_response (sid : string) (limitParam : option string)
    (subject : Subjects.Subject) :
  Subjects.getSubject subjects sid = Some subject ->
  Spec.fits argumentLimit (Spec.healthy crawlers sid) = true ->
  exists body,
    getArticles sid limitParam = Api.Ok body /\
    Api.subject body = Subjects.name subject /\
    Api.returned body = length (Api.articles body) /\
    Api.returned body
    = (if (Api.requestLimit limitParam <? 0)%Z
       then (Api.totalFound body - Z.to_nat (- Api.requestLimit limitParam))%nat
       else Nat.min (Z.to_nat (Api.requestLimit limitParam))
              (Api.totalFound body)) /\
    Forall (fun s => (5 <= relevanceScore s)%Z /\ matchedKeywords s <> [] /\
                     (wordCount (content (article s)) <= 300)%nat)
      (Api.articles body).
Proof.
  intros Hreg Hfit. unfold Server.getArticles.
  rewrite getArticles_steps, Hreg, Hfit.
  set (collected := concat (map (Spec.settled sid) crawlers)).
  set (scored := EngagementScorer.scoreArticles subjects collected sid
                   EngagementScorer.DEFAULT_WEIGHTS).
  set (top := EngagementScorer.getTopArticles scored
                (Api.requestLimit limitParam)).
  destruct (ContentFacts.enrich_loop page top []) as [enriched [Hen Hall]].
  unfold ContentFetcher.enrichArticlesWithContent. rewrite Hen. cbn [app].
  eexists. split; [ reflexivity | ].
  cbn [Api.subject Api.returned Api.totalFound Api.articles].
  split; [ reflexivity | ]. split; [ reflexivity | ].
  assert (Hpass : Forall (passes subjects sid) collected).
  { apply Forall_concat, Forall_map.
    eapply Forall_impl; [ apply (crawlers_pass sid) | ].
    intros c [fetched [Hc Hf]]. unfold Spec.settled. rewrite Hc. exact Hf. }
  split.
  - rewrite <- (List.Forall2_length Hall). unfold top.
    rewrite getTopArticles_length. unfold scored.
    rewrite ScoreFacts.scoreArticles_map, length_map. reflexivity.
  - assert (Htop : Forall (fun s => (5 <= relevanceScore s)%Z /\
                                    matchedKeywords s <> []) top).
    { apply List.Forall_forall. intros s Hs.
      apply getTopArticles_In in Hs. unfold scored in Hs.
      rewrite ScoreFacts.scoreArticles_map in Hs. apply in_map_iff in Hs.
      destruct Hs as [a [<- Ha]]. apply scoreOne_passes.
      rewrite List.Forall_forall in Hpass. auto. }
    clear - Hall Htop. induction Hall as [|a b top enriched Hab Hall IH];
      [ constructor | ].
    inversion Htop as [|? ? Ha Htop']; subst.
    constructor; [ | apply IH, Htop' ].
    destruct Hab as [Hb [Hw _]]. split; [ | split; [ | exact Hw ] ].
    + rewrite Hb. apply Ha.
    + rewrite Hb. apply Ha.
Qed.

(** The response of the server when a crawler returns too long a list. *)
Lemma server_exceeded (sid : string) (limitParam : option string)
    (subject : Subjects.Subject) :
  Subjects.getSubject subjects sid = Some subject ->
  Spec.fits argumentLimit (Spec.healthy crawlers sid) = false ->
  getArticles sid limitParam = Api.ServerError "Failed to fetch articles".
Proof.
  intros Hreg Hfit. unfold Server.getArticles.
  rewrite getArticles_steps, Hreg, Hfit. reflexivity.
Qed.

(** X27: on the articles route of the server, whose network answers with
    values of the declared types, no failed request causes a 500: every
    crawler and the content enricher catch their failures.  The server
    answers 404 when the subject id is not registered, and 500 only when a
    crawler collected more articles than the engine accepts as the
    arguments of a call.  Otherwise it answers with the name of the subject
    and a number [returned] of articles that is [totalFound] cut to the
    limit of the request (for a negative limit, [totalFound] less the size
    of the limit). *)
Theorem server_getArticles (sid : string) (limitParam : option string) :
  match getArticles sid limitParam with
  | Api.NotFound _ => Subjects.getSubject subjects sid = None
  | Api.ServerError _ =>
      Subjects.getSubject subjects sid <> None /\
      exists c fetched,
        In c crawlers /\ fetchArticles c sid = JS.Resolved fetched /\
        argumentLimit < length fetched
  | Api.Ok body =>
      (exists subject,
         Subjects.getSubject subjects sid = Some subject /\
         Api.subject body = Subjects.name subject) /\
      (forall c fetched,
         In c crawlers -> fetchArticles c sid = JS.Resolved fetched ->
         length fetched <= argumentLimit) /\
      Api.returned body = length (Api.articles body) /\
      (Api.returned body <= Api.totalFound body)%nat /\
      Api.returned body
      = (if (Api.requestLimit limitParam <? 0)%Z
         then (Api.totalFound body
               - Z.to_nat (- Api.requestLimit limitParam))%nat
         else Nat.min (Z.to_nat (Api.requestLimit limitParam))
                (Api.totalFound body))
  end.
Proof.
  destruct (Subjects.getSubject subjects sid) as [subject|] eqn:Hreg.
  - destruct (Spec.fits argumentLimit (Spec.healthy crawlers sid)) eqn:Hfit.
    + destruct (server_response sid limitParam subject Hreg Hfit)
        as [body [-> [Hname [Hlen [Hcut _]]]]].
      split; [ eauto | ].
      split; [ apply AggregationFacts.fits_true, Hfit | ].
      split; [ exact Hlen | ]. split; [ | exact Hcut ].
      rewrite Hcut. destruct (Api.requestLimit limitParam <? 0)%Z; lia.
    + rewrite (server_exceeded sid limitParam subject Hreg Hfit).
      split; [ discriminate | apply AggregationFacts.fits_false, Hfit ].
  - unfold Server.getArticles, Api.getArticles. rewrite Hreg. reflexivity.
Qed.

(** X28: every article the server returns on the articles route passed
    the relevance test of its crawler: its relevanceScore is at least 5 and
    it has a matched keyword; and its content has at most 300 words. *)
Theorem server_articles (sid : string) (limitParam : option string)
    (body : Api.ArticlesBody) :
  getArticles sid limitParam = Api.Ok body ->
  Forall (fun s => (5 <= relevanceScore s)%Z /\ matchedKeywords s <> [] /\
                   (wordCount (content (article s)) <= 300)%nat)
    (Api.articles body).
Proof.
  intros H.
  destruct (Subjects.getSubject subjects sid) as [subject|] eqn:Hreg.
  - destruct (Spec.fits argumentLimit (Spec.healthy crawlers sid)) eqn:Hfit.
    + destruct (server_response sid limitParam subject Hreg Hfit)
        as [body' [H' [_ [_ [_ Hall]]]]].
      rewrite H' in H. injection H as <-. exact Hall.
    + rewrite (server_exceeded sid limitParam subject Hreg Hfit) in H.
      discriminate.
  - unfold Server.getArticles, Api.getArticles in H. rewrite Hreg in H.
    discriminate.
Qed.

End Server.

(** The theorem on a network where only Dev.to answers, with one article
    that matches the test subject. *)
Lemma server_articles_witness :
  exists body,
    Server.getArticles Samples.argumentLimit Samples.registry
      Fixtures.offline Fixtures.offline Fixtures.offline Fixtures.devToOnline
      Fixtures.parseDate Fixtures.offline "test-subject" None = Api.Ok body /\
    map (fun s => (id (article s), relevanceScore s)) (Api.articles body)
    = [("devto-12345", 20%Z)] /\
    Forall (fun s => (5 <= relevanceScore s)%Z /\ matchedKeywords s <> [] /\
                     (wordCount (content (article s)) <= 300)%nat)
      (Api.articles body).
Proof.
  eexists. split; [ vm_compute; reflexivity | ].
  split; [ vm_compute; reflexivity | ].
  apply (server_articles Samples.argumentLimit Samples.registry
           Fixtures.offline Fixtures.offline Fixtures.offline
           Fixtures.devToOnline Fixtures.parseDate Fixtures.offline
           "test-subject" None).
  vm_compute. reflexivity.
Defined.

(** Reddit answers every listing with two relevant posts, so that its
    crawler collects sixteen articles: an engine that accepted ten arguments
    in a call would make the server answer 500; one that accepts 125000
    answers with the articles. *)
Example server_getArticles_samples :
  Server.getArticles 10 Samples.registry Fixtures.offline Fixtures.offline
    Fixtures.redditOnline Fixtures.offline Fixtures.parseDate
    Fixtures.offline "test-subject" None
  = Api.ServerError "Failed to fetch articles" /\
  exists body,
    Server.getArticles Samples.argumentLimit Samples.registry
      Fixtures.offline Fixtures.offline Fixtures.redditOnline
      Fixtures.offline Fixtures.parseDate Fixtures.offline "test-subject"
      None
    = Api.Ok body /\
    Api.totalFound body = 16 /\ Api.returned body = 10 /\
    map (fun s => (id (article s), url (article s), source (article s),
                   engagementScore s))
      (firstn 1 (Api.articles body))
    = [("reddit-abc123",
        "https://www.reddit.com/r/artificial/comments/abc123/testing",
        "Reddit r/artificial", 560%float)].
Proof.
  split; [ vm_compute; reflexivity | ].
  eexists. split; [ vm_compute; reflexivity | ].
  repeat split; vm_compute; reflexivity.
Qed.

End RouteFacts.

(** ** The limit of a request, written in decimal *)

Module LimitFacts.
Local Open Scope Z_scope.

Lemma digitsPrefix_acc (d : Decimal.uint) (p : positive) :
  JS.digitsPrefix 10 (NilEmpty.string_of_uint d) (Some (Zpos p))
  = Some (Zpos (Pos.of_uint_acc d p)).
Proof.
  revert p. induction d; intros p;
    cbn [NilEmpty.string_of_uint JS.digitsPrefix Pos.of_uint_acc]; trivial;
    match goal with
    | |- context [ JS.digitValue ?c ] =>
        change (JS.digitValue c) with (Some (Z.of_nat (nat_of_ascii c - 48)))
    end;
    cbv iota beta;
    match goal with
    | |- context [ (?a <? 10) ] => change (a <? 10) with true
    end;
    cbv iota; rewrite <- IHd; f_equal; f_equal;
    match goal with
    | |- context [ Z.of_nat ?t ] =>
        let v := eval vm_compute in (Z.of_nat t) in
        change (Z.of_nat t) with v
    end;
    lia.
Qed.

Lemma digitsPrefix_zero (d : Decimal.uint) :
  JS.digitsPrefix 10 (NilEmpty.string_of_uint d) (Some 0)
  = Some (Z.of_N (Pos.of_uint d)).
Proof.
  induction d;
    cbn [NilEmpty.string_of_uint JS.digitsPrefix Pos.of_uint]; trivial;
    match goal with
    | |- context [ JS.digitValue ?c ] =>
        let v := eval vm_compute in (JS.digitValue c) in
        change (JS.digitValue c) with v
    end;
    cbv iota beta;
    match goal with
    | |- context [ (?a <? 10) ] => change (a <? 10) with true
    end;
    cbv iota;
    first [ exact IHd | apply digitsPrefix_acc ].
Qed.

Lemma digitsPrefix_start (d : Decimal.uint) :
  d <> Decimal.Nil ->
  JS.digitsPrefix 10 (NilEmpty.string_of_uint d) None
  = Some (Z.of_N (Pos.of_uint d)).
Proof.
  intros Hd. rewrite <- digitsPrefix_zero.
  destruct d; [ congruence | .. ]; reflexivity.
Qed.

(** [parseInt] of a string of decimal digits, and of one after a minus
    sign. *)
Lemma parseInt_digits (d : Decimal.uint) :
  d <> Decimal.Nil ->
  JS.parseInt (Some (NilEmpty.string_of_uint d))
  = Some (JS.toNumber (Z.of_N (Pos.of_uint d))) /\
  JS.parseInt (Some (String "-" (NilEmpty.string_of_uint d)))
  = Some (JS.toNumber (- Z.of_N (Pos.of_uint d))).
Proof.
  intros Hd. pose proof (digitsPrefix_start d Hd) as H.
  assert (H1 : JS.parseInt (Some (NilEmpty.string_of_uint d))
               = match JS.digitsPrefix 10 (NilEmpty.string_of_uint d) None with
                 | None => None
                 | Some mathInt => Some (JS.toNumber (1 * mathInt))
                 end).
  { destruct d as [|d'|d'|d'|d'|d'|d'|d'|d'|d'|d']; [ congruence | .. ];
      try reflexivity.
    destruct d'; reflexivity. }
  assert (H2 : JS.parseInt (Some (String "-" (NilEmpty.string_of_uint d)))
               = match JS.digitsPrefix 10 (NilEmpty.string_of_uint d) None with
                 | None => None
                 | Some mathInt => Some (JS.toNumber (-1 * mathInt))
                 end).
  { destruct d as [|d'|d'|d'|d'|d'|d'|d'|d'|d'|d']; [ congruence | .. ];
      try reflexivity.
    destruct d'; reflexivity. }
  rewrite H1, H2, H. split; f_equal; f_equal; lia.
Qed.

Lemma parseInt_decimal (n : Z) :
  0 <= n ->
  JS.parseInt (Some (JS.decimal n)) = Some (JS.toNumber n) /\
  JS.parseInt (Some ("-" +:+ JS.decimal n)) = Some (JS.toNumber (- n)).
Proof.
  intros Hn. unfold JS.decimal.
  assert (Hd : N.to_uint (Z.to_N n) <> Decimal.Nil).
  { destruct (Z.to_N n); [ discriminate | apply DecimalPos.Unsigned.to_uint_nonnil ]. }
  assert (Hs : NilZero.string_of_uint (N.to_uint (Z.to_N n))
               = NilEmpty.string_of_uint (N.to_uint (Z.to_N n))).
  { unfold NilZero.string_of_uint.
    destruct (N.to_uint (Z.to_N n)); [ congruence | .. ]; reflexivity. }
  rewrite Hs. destruct (parseInt_digits _ Hd) as [H1 H2].
  change ("-" +:+ ?s) with (String "-" s).
  rewrite H1, H2.
  change (Pos.of_uint (N.to_uint (Z.to_N n)))
    with (N.of_uint (N.to_uint (Z.to_N n))).
  rewrite DecimalN.Unsigned.of_to, Z2N.id by trivial. auto.
Qed.

(** *** The integers that are binary64 values *)

Lemma iter_xO_digits (p k : positive) :
  digits2_pos (Pos.iter xO p k) = (digits2_pos p + k)%positive.
Proof.
  induction k as [|k IH] using Pos.peano_ind.
  - cbn [Pos.iter digits2_pos]. lia.
  - rewrite Pos.iter_succ. cbn [digits2_pos]. rewrite IH. lia.
Qed.

Lemma iter_xO_value (p k : positive) :
  Zpos (Pos.iter xO p k) = Zpos p * 2 ^ Zpos k.
Proof.
  induction k as [|k IH] using Pos.peano_ind.
  - cbn [Pos.iter]. lia.
  - rewrite Pos.iter_succ, Pos2Z.inj_xO, IH, Pos2Z.inj_succ, Z.pow_succ_r; lia.
Qed.

(** Rounding leaves a mantissa of 53 digits as it is. *)
Lemma binary_round_aux_exact (sx : bool) (m : positive) (e : Z) :
  Zpos (digits2_pos m) = 53 -> -1074 <= e <= 971 ->
  binary_round_aux 53 1024 sx (Zpos m) e loc_Exact = S754_finite sx m e.
Proof.
  intros Hd He.
  assert (Hs : forall l, shr_fexp 53 1024 (Zpos m) e l
                         = (shr_record_of_loc (Zpos m) l, e)).
  { intros l. unfold shr_fexp. cbn [Zdigits2]. rewrite Hd.
    unfold fexp, SpecFloat.emin.
    replace (Z.max (53 + e - 53) (3 - 1024 - 53) - e) with 0 by lia.
    reflexivity. }
  unfold binary_round_aux. rewrite Hs.
  cbn [shr_record_of_loc shr_m loc_of_shr_record round_nearest_even].
  rewrite Hs. cbn [shr_record_of_loc shr_m].
  destruct (Z.leb_spec e (1024 - 53)); [ reflexivity | lia ].
Qed.

(** An integer below [2^53] becomes a mantissa of 53 digits and the
    exponent that makes up for the digits added. *)
Lemma binary_round_exact (sx : bool) (p : positive) :
  Zpos p < 2 ^ 53 ->
  exists m e,
    binary_round 53 1024 sx p 0 = S754_finite sx m e /\
    e <= 0 /\ Zpos m = Zpos p * 2 ^ (- e).
Proof.
  intros Hp. pose proof (FloatOrder.digits2_bounds p) as [Hlo Hhi].
  unfold binary_round.
  set (d := Zpos (digits2_pos p)) in *.
  assert (Hd : 1 <= d <= 53).
  { split; [ unfold d; lia | ].
    assert (d - 1 < 53); [ | lia ].
    apply (Z.pow_lt_mono_r_iff 2); lia. }
  unfold fexp, SpecFloat.emin.
  replace (Z.max (d + 0 - 53) (3 - 1024 - 53)) with (d - 53) by lia.
  unfold shl_align.
  destruct (d - 53 - 0) as [|k|k] eqn:Ek; try lia.
  - exists p, 0. split; [ apply binary_round_aux_exact; fold d; lia | ].
    split; [ lia | ]. cbn. lia.
  - exists (Pos.iter xO p k), (d - 53). split.
    + apply binary_round_aux_exact; [ | lia ].
      rewrite iter_xO_digits, Pos2Z.inj_add. fold d. lia.
    + split; [ lia | ]. rewrite iter_xO_value. f_equal. f_equal. lia.
Qed.

(** The integers up to [2^53] in size are binary64 values. *)
Lemma toNumber_exact (v : Z) : Z.abs v <= 2 ^ 53 -> JS.toNumber v = v.
Proof.
  intros Hv.
  destruct (Z.eq_dec (Z.abs v) (2 ^ 53)) as [E|E].
  - destruct (Z.abs_eq_or_opp v) as [H|H]; rewrite H in E.
    + subst v. vm_compute. reflexivity.
    + replace v with (- 2 ^ 53) by lia. vm_compute. reflexivity.
  - unfold JS.toNumber, binary_normalize. destruct v as [|p|p]; trivial.
    + destruct (binary_round_exact false p) as [m [e [-> [He Hm]]]]; [ lia | ].
      destruct (Z.leb_spec 0 e).
      * replace e with 0 in * by lia. cbn in Hm. lia.
      * rewrite Hm, Z.div_mul; [ reflexivity | ].
        apply Z.pow_nonzero; lia.
    + destruct (binary_round_exact true p) as [m [e [-> [He Hm]]]]; [ lia | ].
      destruct (Z.leb_spec 0 e).
      * replace e with 0 in * by lia. cbn in Hm. lia.
      * rewrite Hm, Z.div_mul; [ reflexivity | ].
        apply Z.pow_nonzero; lia.
Qed.

(** X29: a limit written in decimal in the query is the limit the route
    runs with, as long as it is a binary64 value: [?limit=n] gives [n] for
    every integer [n] with [0 < n <= 2^53], and [?limit=-n] gives the
    negative limit [-n]; only [?limit=0] is replaced, by 10.  (A larger
    integer gives the binary64 value nearest to it.) *)
Theorem requestLimit_decimal (n : Z) :
  0 < n <= 2 ^ 53 ->
  Api.requestLimit (Some (JS.decimal n)) = n /\
  Api.requestLimit (Some ("-" +:+ JS.decimal n)) = - n /\
  Api.requestLimit (Some (JS.decimal 0)) = 10.
Proof.
  intros Hn. unfold Api.requestLimit.
  destruct (parseInt_decimal n ltac:(lia)) as [-> ->].
  destruct (parseInt_decimal 0 ltac:(lia)) as [-> _].
  rewrite !toNumber_exact by lia.
  cbn [JS.intOrElse].
  destruct (Z.eqb_spec n 0); [ lia | ].
  destruct (Z.eqb_spec (- n) 0); [ lia | ]. auto.
Qed.

(** The theorem at [?limit=5]. *)
Lemma requestLimit_decimal_witness :
  Api.requestLimit (Some "5") = 5 /\ Api.requestLimit (Some "-5") = -5.
Proof.
  destruct (requestLimit_decimal 5) as [H1 [H2 _]]; [ lia | ].
  split; [ exact H1 | exact H2 ].
Defined.

(** Beyond [2^53] the limit is the binary64 value nearest to the integer
    written, the one with the even mantissa on a tie. *)
Example requestLimit_rounded :
  map Api.requestLimit
    [Some "9007199254740992"; Some "9007199254740993";
     Some "9007199254740995"; Some "-9007199254740993";
     Some "100000000000000000000000"]
  = [9007199254740992; 9007199254740992; 9007199254740996;
     -9007199254740992; 99999999999999991611392].
Proof. vm_compute. reflexivity. Qed.

End LimitFacts.

(** ** The front end: truncateContent *)

Module AppFacts.

Lemma substring_length (n : nat) (s : string) :
  (n <= String.length s)%nat -> String.length (String.substring 0 n s) = n.
Proof.
  revert s. induction n as [|n IH]; intros [|c s];
    cbn [String.substring String.length]; trivial; try lia.
  intros H. rewrite IH; lia.
Qed.

Lemma substring_append (s t : string) :
  String.substring 0 (String.length s) (s +:+ t) = s.
Proof.
  induction s as [|c s IH].
  - destruct t; reflexivity.
  - rewrite MatchFacts.append_cons. cbn [String.length String.substring].
    rewrite IH. reflexivity.
Qed.

Lemma length_append (s t : string) :
  String.length (s +:+ t) = (String.length s + String.length t)%nat.
Proof.
  induction s as [|c s IH]; trivial.
  rewrite MatchFacts.append_cons. cbn [String.length]. rewrite IH. reflexivity.
Qed.

(** [s.substring(0, end)]: the first [end] characters, none for a negative
    [end], all of them beyond the length. *)
Lemma substring_from_start (s : string) (end_ : Z) :
  JSString.substring s 0 end_
  = String.substring 0
      (Nat.min (Z.to_nat end_) (String.length s)) s.
Proof.
  unfold JSString.substring. f_equal; lia.
Qed.

(** The string that [truncateContent] returns for a content longer than
    [maxLength]. *)
Lemma truncateContent_long (content : string) (maxLength : Z) :
  (maxLength < Z.of_nat (String.length content))%Z ->
  App.truncateContent content maxLength
  = String.substring 0 (Z.to_nat maxLength) content +:+ "..." /\
  String.length (String.substring 0 (Z.to_nat maxLength) content)
  = Z.to_nat maxLength.
Proof.
  intros H. unfold App.truncateContent.
  destruct (Z.leb_spec (Z.of_nat (String.length content)) maxLength); [ lia | ].
  rewrite substring_from_start, Nat.min_l by lia.
  split; [ reflexivity | apply substring_length; lia ].
Qed.

(** X30: [truncateContent] returns a content of at most [maxLength]
    characters as it is, and otherwise its first [maxLength] characters
    (none for a negative [maxLength]) followed by ["..."], so that the
    result has at most [maxLength + 3] characters for [maxLength >= 0];
    truncating the result again with the same [maxLength] changes
    nothing. *)
Theorem truncateContent_spec (content : string) (maxLength : Z) :
  ((Z.of_nat (String.length content) <= maxLength)%Z ->
   App.truncateContent content maxLength = content) /\
  ((maxLength < Z.of_nat (String.length content))%Z ->
   App.truncateContent content maxLength
   = String.substring 0 (Z.to_nat maxLength) content +:+ "..." /\
   String.length (App.truncateContent content maxLength)
   = (Z.to_nat maxLength + 3)%nat) /\
  App.truncateContent (App.truncateContent content maxLength) maxLength
  = App.truncateContent content maxLength.
Proof.
  split; [ | split ].
  - intros H. unfold App.truncateContent.
    destruct (Z.leb_spec (Z.of_nat (String.length content)) maxLength);
      [ reflexivity | lia ].
  - intros H. destruct (truncateContent_long content maxLength H) as [-> Hl].
    split; [ reflexivity | ]. rewrite length_append, Hl. reflexivity.
  - destruct (Z.le_gt_cases (Z.of_nat (String.length content)) maxLength)
      as [H|H].
    + unfold App.truncateContent.
      destruct (Z.leb_spec (Z.of_nat (String.length content)) maxLength);
        [ | lia ].
      destruct (Z.leb_spec (Z.of_nat (String.length content)) maxLength);
        [ reflexivity | lia ].
    + destruct (truncateContent_long content maxLength H) as [-> Hl].
      set (kept := String.substring 0 (Z.to_nat maxLength) content) in *.
      assert (H' : (maxLength < Z.of_nat (String.length (kept +:+ "...")))%Z).
      { rewrite length_append, Hl. cbn [String.length]. lia. }
      destruct (truncateContent_long (kept +:+ "...") maxLength H') as [-> _].
      rewrite <- Hl at 1. rewrite substring_append. reflexivity.
Qed.

(** The tests of [utils.test.ts]. *)
Example truncateContent_samples :
  App.truncateContent "Short content" 300 = "Short content" /\
  App.truncateContent "This is a test content that should be truncated" 20
  = "This is a test conte..." /\
  App.truncateContent "" 300 = "" /\
  App.truncateContent "abc" (-1) = "...".
Proof. repeat split; reflexivity. Qed.

End AppFacts.
